(** * The engagement core of selfdrive/controls/controlsd.py

    A shallow embedding of the [Controls] class: the per-cycle event
    aggregation ([update_events]), the panda mismatch counter
    ([data_sample]), the engagement state machine ([state_transition]),
    the actuator sanitizer at the end of [state_control] and the order in
    which [step] runs them.

    Python integers are unbounded and are modelled by [Z]; capnp enums are
    inductive types whose constructors carry the names the source uses;
    event names are strings; actuator values are IEEE 754 values in the
    [spec_float] representation of the Standard Library. *)

From Stdlib Require Import ZArith List Bool SpecFloat.
From stdpp Require Import base decidable list strings gmap.

Local Open Scope Z_scope.

(** ** Enumerations *)

(** [ET], the event categories the state machine queries. *)
Module ET.
Inductive t : Set :=
  | ENABLE
  | PRE_ENABLE
  | OVERRIDE_LATERAL
  | OVERRIDE_LONGITUDINAL
  | NO_ENTRY
  | WARNING
  | USER_DISABLE
  | SOFT_DISABLE
  | IMMEDIATE_DISABLE
  | PERMANENT.

#[global] Instance ET_eq_dec : EqDecision t.
Proof. solve_decision. Defined.
End ET.

(** [State = log.ControlsState.OpenpilotState]. *)
Module State.
Inductive t : Set :=
  | disabled
  | preEnabled
  | enabled
  | softDisabling
  | overriding.

#[global] Instance State_eq_dec : EqDecision t.
Proof. solve_decision. Defined.
End State.

(** [ACTIVE_STATES] and [ENABLED_STATES]. *)
Definition ACTIVE_STATES : list State.t :=
  [State.enabled; State.softDisabling; State.overriding].

Definition ENABLED_STATES : list State.t :=
  State.preEnabled :: ACTIVE_STATES.

(** [SafetyModel = car.CarParams.SafetyModel]; the source names two of its
    values, every other one is kept by its number. *)
Module SafetyModel.
Inductive t : Set :=
  | silent
  | noOutput
  | other (n : N).

#[global] Instance SafetyModel_eq_dec : EqDecision t.
Proof. solve_decision. Defined.
End SafetyModel.

Definition IGNORED_SAFETY_MODES : list SafetyModel.t :=
  [SafetyModel.silent; SafetyModel.noOutput].

(** [log.PandaState.FaultType]; only [relayMalfunction] is named. *)
Module FaultType.
Inductive t : Set :=
  | relayMalfunction
  | other (n : N).

#[global] Instance FaultType_eq_dec : EqDecision t.
Proof. solve_decision. Defined.
End FaultType.

(** [ButtonType = car.CarState.ButtonEvent.Type]. *)
Module ButtonType.
Inductive t : Set :=
  | accelCruise
  | resumeCruise
  | decelCruise
  | gapAdjustCruise
  | other (n : N).

#[global] Instance ButtonType_eq_dec : EqDecision t.
Proof. solve_decision. Defined.
End ButtonType.

(** [log.LiveCalibrationData.Status]. *)
Module CalStatus.
Inductive t : Set :=
  | uncalibrated
  | calibrated
  | invalid
  | recalibrating.

#[global] Instance CalStatus_eq_dec : EqDecision t.
Proof. solve_decision. Defined.
End CalStatus.

(** [LaneChangeState] and [LaneChangeDirection]. *)
Module LaneChangeState.
Inductive t : Set :=
  | off
  | preLaneChange
  | laneChangeStarting
  | laneChangeFinishing.

#[global] Instance LaneChangeState_eq_dec : EqDecision t.
Proof. solve_decision. Defined.
End LaneChangeState.

Module LaneChangeDirection.
Inductive t : Set :=
  | none
  | left
  | right.

#[global] Instance LaneChangeDirection_eq_dec : EqDecision t.
Proof. solve_decision. Defined.
End LaneChangeDirection.

(** [ThermalStatus = log.DeviceState.ThermalStatus], in increasing order. *)
Module ThermalStatus.
Inductive t : Set :=
  | green
  | yellow
  | red
  | danger.

#[global] Instance ThermalStatus_eq_dec : EqDecision t.
Proof. solve_decision. Defined.

Definition level (s : t) : Z :=
  match s with green => 0 | yellow => 1 | red => 2 | danger => 3 end.
End ThermalStatus.

(** [Desire], as far as [meta.turnDirection] is compared. *)
Module Desire.
Inductive t : Set :=
  | none
  | turnLeft
  | turnRight
  | other (n : N).

#[global] Instance Desire_eq_dec : EqDecision t.
Proof. solve_decision. Defined.
End Desire.

(** [EventName = car.CarEvent.EventName]: an event code is kept by its
    name. *)
Definition EventName : Set := string.

Module EventName.
Local Open Scope string_scope.
Definition joystickDebug : EventName := "joystickDebug".
Definition controlsInitializing : EventName := "controlsInitializing".
Definition resumeBlocked : EventName := "resumeBlocked".
Definition pedalPressed : EventName := "pedalPressed".
Definition preEnableStandstill : EventName := "preEnableStandstill".
Definition gasPressedOverride : EventName := "gasPressedOverride".
Definition overheat : EventName := "overheat".
Definition outOfSpace : EventName := "outOfSpace".
Definition lowMemory : EventName := "lowMemory".
Definition fanMalfunction : EventName := "fanMalfunction".
Definition calibrationIncomplete : EventName := "calibrationIncomplete".
Definition calibrationRecalibrating : EventName := "calibrationRecalibrating".
Definition calibrationInvalid : EventName := "calibrationInvalid".
Definition laneChangeBlockedLoud : EventName := "laneChangeBlockedLoud".
Definition laneChangeBlocked : EventName := "laneChangeBlocked".
Definition preLaneChangeLeft : EventName := "preLaneChangeLeft".
Definition preLaneChangeRight : EventName := "preLaneChangeRight".
Definition noLaneAvailable : EventName := "noLaneAvailable".
Definition laneChange : EventName := "laneChange".
Definition controlsMismatch : EventName := "controlsMismatch".
Definition relayMalfunction : EventName := "relayMalfunction".
Definition processNotRunning : EventName := "processNotRunning".
Definition cameraMalfunction : EventName := "cameraMalfunction".
Definition cameraFrameRate : EventName := "cameraFrameRate".
Definition controlsdLagging : EventName := "controlsdLagging".
Definition radarFault : EventName := "radarFault".
Definition usbError : EventName := "usbError".
Definition canBusMissing : EventName := "canBusMissing".
Definition canError : EventName := "canError".
Definition commIssue : EventName := "commIssue".
Definition commIssueAvgFreq : EventName := "commIssueAvgFreq".
Definition posenetInvalid : EventName := "posenetInvalid".
Definition deviceFalling : EventName := "deviceFalling".
Definition locationdTemporaryError : EventName := "locationdTemporaryError".
Definition paramsdTemporaryError : EventName := "paramsdTemporaryError".
Definition sensorDataInvalid : EventName := "sensorDataInvalid".
Definition cruiseMismatch : EventName := "cruiseMismatch".
Definition fcw : EventName := "fcw".
Definition yourFrogTriedToKillMe : EventName := "yourFrogTriedToKillMe".
Definition roadCameraError : EventName := "roadCameraError".
Definition wideRoadCameraError : EventName := "wideRoadCameraError".
Definition driverCameraError : EventName := "driverCameraError".
Definition noGps : EventName := "noGps".
Definition modeldLagging : EventName := "modeldLagging".
Definition soundsUnavailable : EventName := "soundsUnavailable".
Definition carUnrecognized : EventName := "carUnrecognized".
Definition dashcamMode : EventName := "dashcamMode".
Definition blockUser : EventName := "blockUser".
Definition accel30 : EventName := "accel30".
Definition accel35 : EventName := "accel35".
Definition accel40 : EventName := "accel40".
Definition greenLight : EventName := "greenLight".
Definition holidayActive : EventName := "holidayActive".
Definition leadDeparting : EventName := "leadDeparting".
Definition turningLeft : EventName := "turningLeft".
Definition turningRight : EventName := "turningRight".
Definition openpilotCrashedRandomEvents : EventName := "openpilotCrashedRandomEvents".
Definition openpilotCrashed : EventName := "openpilotCrashed".
Definition speedLimitChanged : EventName := "speedLimitChanged".
Definition torqueNNLoad : EventName := "torqueNNLoad".
Definition vCruise69 : EventName := "vCruise69".
End EventName.

(** ** Constants *)

Definition SOFT_DISABLE_TIME : Z := 3.

(** Modelled from the spec: [DT_CTRL], the tick period that controlsd.py
    imports from openpilot.common.realtime. The spec gives the tick as
    100 Hz, a period of 10 ms; the model keeps the rate, so that the
    source's [int(x / DT_CTRL)] is [x * TICK_RATE]. *)
Definition TICK_RATE : Z := 100.

(** [int(SOFT_DISABLE_TIME / DT_CTRL)] *)
Definition soft_disable_ticks : Z := SOFT_DISABLE_TIME * TICK_RATE.

(** [int(6. / DT_CTRL)] *)
Definition cruise_mismatch_ticks : Z := 6 * TICK_RATE.

(** ** Messages read by the loop *)

(** One entry of [sm['pandaStates']]. *)
Record PandaState : Set := {
  safetyModel : SafetyModel.t;
  safetyParam : Z;
  alternativeExperience : Z;
  controlsAllowed : bool;
  safetyRxChecksInvalid : bool;
  faults : list FaultType.t
}.

(** One entry of [CP.safetyConfigs]. *)
Record SafetyConfig : Set := {
  cfg_safetyModel : SafetyModel.t;
  cfg_safetyParam : Z
}.

Record ButtonEvent : Set := {
  be_type : ButtonType.t;
  be_pressed : bool
}.

(** [CarState], the fields [update_events] reads. [aEgo] is a float that
    is only compared with [-1.25]; the comparison is kept. *)
Record CarState : Set := {
  buttonEvents : list ButtonEvent;
  gasPressed : bool;
  brakePressed : bool;
  regenBraking : bool;
  standstill : bool;
  canValid : bool;
  canTimeout : bool;
  cs_events : list EventName;          (* CS.events *)
  leftBlindspot : bool;
  rightBlindspot : bool;
  cruiseState_enabled : bool;          (* CS.cruiseState.enabled *)
  aEgo_below_stock_braking : bool      (* CS.aEgo < -1.25 *)
}.

(** [car.CarState.new_message()]: every field at its default. *)
Definition CarState_new_message : CarState :=
  {| buttonEvents := []; gasPressed := false; brakePressed := false;
     regenBraking := false; standstill := false; canValid := false;
     canTimeout := false; cs_events := []; leftBlindspot := false;
     rightBlindspot := false; cruiseState_enabled := false;
     aEgo_below_stock_braking := false |}.

(** [CP] and the module-level environment flags: fixed for a run. *)
Record CarParams : Set := {
  passive : bool;
  pcmCruise : bool;
  notCar : bool;
  openpilotLongitudinalControl : bool;
  safetyConfigs : list SafetyConfig;
  cp_alternativeExperience : Z;
  radarless_model : bool;              (* self.radarless_model *)
  REPLAY : bool;
  SIMULATION : bool;
  TESTING_CLOSET : bool
}.

(** ** The fields of [self] the cycle reads and writes *)

Record Controls : Set := {
  initialized : bool;
  state : State.t;
  enabled : bool;
  active : bool;
  soft_disable_timer : Z;
  mismatch_counter : Z;
  cruise_mismatch_counter : Z;
  events : list EventName;             (* self.events.events *)
  static_events : list EventName;      (* self.events.static_events *)
  current_alert_types : list ET.t;
  startup_event : option EventName;
  CS_prev : CarState;
  fcw_random_event_triggered : bool
}.

Definition set_initialized (v : bool) (self : Controls) : Controls :=
  {| initialized := v; state := state self; enabled := enabled self;
     active := active self; soft_disable_timer := soft_disable_timer self;
     mismatch_counter := mismatch_counter self;
     cruise_mismatch_counter := cruise_mismatch_counter self;
     events := events self; static_events := static_events self;
     current_alert_types := current_alert_types self;
     startup_event := startup_event self; CS_prev := CS_prev self;
     fcw_random_event_triggered := fcw_random_event_triggered self |}.

Definition set_state (v : State.t) (self : Controls) : Controls :=
  {| initialized := initialized self; state := v; enabled := enabled self;
     active := active self; soft_disable_timer := soft_disable_timer self;
     mismatch_counter := mismatch_counter self;
     cruise_mismatch_counter := cruise_mismatch_counter self;
     events := events self; static_events := static_events self;
     current_alert_types := current_alert_types self;
     startup_event := startup_event self; CS_prev := CS_prev self;
     fcw_random_event_triggered := fcw_random_event_triggered self |}.

Definition set_enabled (v : bool) (self : Controls) : Controls :=
  {| initialized := initialized self; state := state self; enabled := v;
     active := active self; soft_disable_timer := soft_disable_timer self;
     mismatch_counter := mismatch_counter self;
     cruise_mismatch_counter := cruise_mismatch_counter self;
     events := events self; static_events := static_events self;
     current_alert_types := current_alert_types self;
     startup_event := startup_event self; CS_prev := CS_prev self;
     fcw_random_event_triggered := fcw_random_event_triggered self |}.

Definition set_active (v : bool) (self : Controls) : Controls :=
  {| initialized := initialized self; state := state self;
     enabled := enabled self; active := v;
     soft_disable_timer := soft_disable_timer self;
     mismatch_counter := mismatch_counter self;
     cruise_mismatch_counter := cruise_mismatch_counter self;
     events := events self; static_events := static_events self;
     current_alert_types := current_alert_types self;
     startup_event := startup_event self; CS_prev := CS_prev self;
     fcw_random_event_triggered := fcw_random_event_triggered self |}.

Definition set_soft_disable_timer (v : Z) (self : Controls) : Controls :=
  {| initialized := initialized self; state := state self;
     enabled := enabled self; active := active self; soft_disable_timer := v;
     mismatch_counter := mismatch_counter self;
     cruise_mismatch_counter := cruise_mismatch_counter self;
     events := events self; static_events := static_events self;
     current_alert_types := current_alert_types self;
     startup_event := startup_event self; CS_prev := CS_prev self;
     fcw_random_event_triggered := fcw_random_event_triggered self |}.

Definition set_mismatch_counter (v : Z) (self : Controls) : Controls :=
  {| initialized := initialized self; state := state self;
     enabled := enabled self; active := active self;
     soft_disable_timer := soft_disable_timer self; mismatch_counter := v;
     cruise_mismatch_counter := cruise_mismatch_counter self;
     events := events self; static_events := static_events self;
     current_alert_types := current_alert_types self;
     startup_event := startup_event self; CS_prev := CS_prev self;
     fcw_random_event_triggered := fcw_random_event_triggered self |}.

Definition set_cruise_mismatch_counter (v : Z) (self : Controls) : Controls :=
  {| initialized := initialized self; state := state self;
     enabled := enabled self; active := active self;
     soft_disable_timer := soft_disable_timer self;
     mismatch_counter := mismatch_counter self; cruise_mismatch_counter := v;
     events := events self; static_events := static_events self;
     current_alert_types := current_alert_types self;
     startup_event := startup_event self; CS_prev := CS_prev self;
     fcw_random_event_triggered := fcw_random_event_triggered self |}.

Definition set_events (v : list EventName) (self : Controls) : Controls :=
  {| initialized := initialized self; state := state self;
     enabled := enabled self; active := active self;
     soft_disable_timer := soft_disable_timer self;
     mismatch_counter := mismatch_counter self;
     cruise_mismatch_counter := cruise_mismatch_counter self;
     events := v; static_events := static_events self;
     current_alert_types := current_alert_types self;
     startup_event := startup_event self; CS_prev := CS_prev self;
     fcw_random_event_triggered := fcw_random_event_triggered self |}.

Definition set_current_alert_types (v : list ET.t) (self : Controls) : Controls :=
  {| initialized := initialized self; state := state self;
     enabled := enabled self; active := active self;
     soft_disable_timer := soft_disable_timer self;
     mismatch_counter := mismatch_counter self;
     cruise_mismatch_counter := cruise_mismatch_counter self;
     events := events self; static_events := static_events self;
     current_alert_types := v;
     startup_event := startup_event self; CS_prev := CS_prev self;
     fcw_random_event_triggered := fcw_random_event_triggered self |}.

Definition set_startup_event (v : option EventName) (self : Controls) : Controls :=
  {| initialized := initialized self; state := state self;
     enabled := enabled self; active := active self;
     soft_disable_timer := soft_disable_timer self;
     mismatch_counter := mismatch_counter self;
     cruise_mismatch_counter := cruise_mismatch_counter self;
     events := events self; static_events := static_events self;
     current_alert_types := current_alert_types self;
     startup_event := v; CS_prev := CS_prev self;
     fcw_random_event_triggered := fcw_random_event_triggered self |}.

Definition set_CS_prev (v : CarState) (self : Controls) : Controls :=
  {| initialized := initialized self; state := state self;
     enabled := enabled self; active := active self;
     soft_disable_timer := soft_disable_timer self;
     mismatch_counter := mismatch_counter self;
     cruise_mismatch_counter := cruise_mismatch_counter self;
     events := events self; static_events := static_events self;
     current_alert_types := current_alert_types self;
     startup_event := startup_event self; CS_prev := v;
     fcw_random_event_triggered := fcw_random_event_triggered self |}.

Definition set_fcw_random_event_triggered (v : bool) (self : Controls) : Controls :=
  {| initialized := initialized self; state := state self;
     enabled := enabled self; active := active self;
     soft_disable_timer := soft_disable_timer self;
     mismatch_counter := mismatch_counter self;
     cruise_mismatch_counter := cruise_mismatch_counter self;
     events := events self; static_events := static_events self;
     current_alert_types := current_alert_types self;
     startup_event := startup_event self; CS_prev := CS_prev self;
     fcw_random_event_triggered := v |}.

(** One entry of [sm['managerState'].processes]. *)
Record ProcessState : Set := {
  name : string;
  running : bool;
  shouldBeRunning : bool
}.

(** What [update_events] and [data_sample] read from [self.sm], [self.rk]
    and [self.card] in one cycle. Frame counts, percentages and speeds are
    floats or are scaled by the float [DT_CTRL] before they are compared;
    each such comparison is kept as the boolean it yields, named after
    what it tests, with the source expression beside it. *)
Record SubMaster : Set := {
  pandaStates : list PandaState;
  pandaStates_valid : bool;            (* sm.valid['pandaStates'] *)
  init_timed_out : bool;               (* sm.frame * DT_CTRL > 6. *)
  past_safety_grace : bool;            (* sm.frame*DT_CTRL > 10. *)
  thermalStatus : ThermalStatus.t;
  free_space_low : bool;               (* freeSpacePercent < 7 *)
  memory_usage_high : bool;            (* memoryUsagePercent > 90 *)
  pandaType_known : bool;              (* pandaType != PandaType.unknown *)
  fan_stalled : bool;                  (* fanSpeedRpm < 500 and
                                          fanSpeedPercentDesired > 50 *)
  fan_grace_over : bool;               (* (sm.frame - last_functional_fan_frame)
                                          * DT_CTRL > 15.0 *)
  calStatus : CalStatus.t;
  laneChangeState : LaneChangeState.t;
  laneChangeDirection : LaneChangeDirection.t;
  lane_width_left_ok : bool;           (* laneWidthLeft >= lane_detection_width *)
  lane_width_right_ok : bool;          (* laneWidthRight >= lane_detection_width *)
  processes : list ProcessState;
  managerState_received : bool;        (* sm.recv_frame['managerState'] *)
  rk_lagging : bool;                   (* self.rk.lagging *)
  cameras_alive : bool;                (* sm.all_alive(camera_packets) *)
  cameras_freq_ok : bool;              (* sm.all_freq_ok(camera_packets) *)
  radarErrors : bool;                  (* len(radarState.radarErrors) *)
  radar_checks : bool;                 (* sm.all_checks(['radarState']) *)
  all_checks : bool;                   (* sm.all_checks() *)
  all_alive : bool;                    (* sm.all_alive() *)
  all_freq_ok : bool;                  (* sm.all_freq_ok() *)
  can_rcv_timeout : bool;              (* self.card.can_rcv_timeout *)
  posenetOK : bool;
  deviceStable : bool;
  inputsOK : bool;
  gpsOK : bool;
  liveParameters_valid : bool;
  sensors_stale : bool;                (* any((sm.frame - sm.recv_frame[s])
                                          * DT_CTRL > 10. for s in sensor_packets) *)
  hardBrakePredicted : bool;
  longitudinalPlan_fcw : bool;
  dm_events : list EventName;          (* sm['driverMonitoringState'].events *)
  log_csids : list string;             (* the CSID of every androidLog message
                                          that carries an error marker *)
  far_from_start : bool;               (* self.distance_traveled > 1000 *)
  frame_drop_high : bool;              (* modelV2.frameDropPerc > 20 *)
  turnDirection : Desire.t
}.

(** The toggles of [self] that [update_events] reads; the parameter thread
    and [update_frogpilot_params] may change them between cycles. *)
Record Toggles : Set := {
  joystick_mode : bool;
  disengage_on_accelerator : bool;
  increase_thermal_limits : bool;
  loud_blindspot_alert : bool;
  random_events : bool;
  block_user : bool;
  v_cruise_initialized : bool          (* self.v_cruise_helper.v_cruise_initialized *)
}.

(** The guards of [update_frogpilot_events]. They test float accumulators
    (peak acceleration, a moving average, lead distance, speed limits) and
    files outside the model; each is the boolean its [if] tests. *)
Record FrogPilotChecks : Set := {
  accel30_peak : bool;                 (* 3.5 > max_acceleration >= 3.0 and acceleration < 1.5 *)
  accel35_peak : bool;                 (* 4.0 > max_acceleration >= 3.5 and acceleration < 1.5 *)
  accel40_peak : bool;                 (* max_acceleration >= 4.0 and acceleration < 1.5 *)
  green_light_alert : bool;
  green_light_seen : bool;             (* green_light_mac.get_moving_average() >= PROBABILITY *)
  holiday_pending : bool;              (* sm.frame >= 1000 and holiday_themes and
                                          CurrentHolidayTheme != 0 and not holiday_theme_alerted *)
  lead_departing_check : bool;         (* lead_departing_alert and sm.frame % 50 == 0 *)
  lead_departing : bool;
  crash_pending : bool;                (* isfile(error.txt) and not openpilot_crashed_triggered *)
  speed_limit_checks : bool;           (* speed_limit_alert or speed_limit_confirmation *)
  speed_limit_changed : bool;          (* (speed_limit_changed_lower or speed_limit_changed_higher)
                                          and speed_limit_alert *)
  torque_nn_loaded : bool;             (* sm.frame == 550 and lateralTuning.which() == 'torque'
                                          and CI.use_nnff *)
  v_cruise_is_69 : bool;               (* 70 > v_cruise >= 69 *)
  vCruise69_alert_played : bool
}.

(** Everything one call of [step] takes from outside. *)
Record Cycle : Set := {
  cy_CS : CarState;                    (* self.card.state_update(...) *)
  cy_sm : SubMaster;                   (* after self.sm.update(0) *)
  cy_toggles : Toggles;
  cy_frog : FrogPilotChecks;
  cy_alwaysOnLateral : bool;           (* self.FPCC.alwaysOnLateral *)
  cy_late_events : list EventName      (* added by state_control and publish_logs:
                                          the steer-saturation events and ldw *)
}.

Definition IGNORE_PROCESSES : list string :=
  ["loggerd"; "encoderd"; "statsd"]%string.

Definition CSID_MAP (csid : string) : option EventName :=
  if bool_decide (csid = "1"%string) then Some EventName.roadCameraError
  else if bool_decide (csid = "2"%string) then Some EventName.wideRoadCameraError
  else if bool_decide (csid = "0"%string) then Some EventName.driverCameraError
  else None.

Section WithEventTable.

(** Modelled from the spec: the [EVENTS] table of
    openpilot.selfdrive.controls.lib.events, which gives every event code
    its categories. The spec calls this mapping external configuration
    data; it is a parameter of the development. *)
Variable EVENTS : EventName -> list ET.t.

(** ** The [Events] container *)

(** Modelled from the spec: the [Events] class of
    openpilot.selfdrive.controls.lib.events. The spec describes a
    per-cycle, order-irrelevant collection of event codes that is rebuilt
    at the start of every cycle and is only asked for category membership.
    The codes are kept in a list, so that [len] counts them as the source
    does; the codes added with [static=True] in [__init__] stay in the
    collection when it is cleared. *)
Definition Events_clear (self : Controls) : Controls :=
  set_events (static_events self) self.

Definition Events_add (name : EventName) (self : Controls) : Controls :=
  set_events (events self ++ [name]) self.

Definition Events_add_from_msg (names : list EventName) (self : Controls)
  : Controls :=
  set_events (events self ++ names) self.

Definition Events_len (self : Controls) : Z :=
  Z.of_nat (length (events self)).

Definition has_type (event_type : ET.t) (name : EventName) : bool :=
  bool_decide (event_type ∈ EVENTS name).

Definition Events_contains (self : Controls) (event_type : ET.t) : bool :=
  existsb (has_type event_type) (events self).

(** ** [Controls.state_transition] *)

(** [self.current_alert_types.append(t)] *)
Definition alert_append (t : ET.t) (self : Controls) : Controls :=
  set_current_alert_types (current_alert_types self ++ [t]) self.

(** [self.events.contains(ET.OVERRIDE_LATERAL) or
     self.events.contains(ET.OVERRIDE_LONGITUDINAL)] *)
Definition contains_override (self : Controls) : bool :=
  Events_contains self ET.OVERRIDE_LATERAL
  || Events_contains self ET.OVERRIDE_LONGITUDINAL.

(** The branch taken when [self.state != State.disabled] and neither a
    user nor an immediate disable is present. *)
Definition transition_engaged (self : Controls) : Controls :=
  if bool_decide (state self = State.enabled) then
    if Events_contains self ET.SOFT_DISABLE then
      alert_append ET.SOFT_DISABLE
        (set_soft_disable_timer soft_disable_ticks
           (set_state State.softDisabling self))
    else if contains_override self then
      set_current_alert_types
        (current_alert_types self
           ++ [ET.OVERRIDE_LATERAL; ET.OVERRIDE_LONGITUDINAL])
        (set_state State.overriding self)
    else self
  else if bool_decide (state self = State.softDisabling) then
    if negb (Events_contains self ET.SOFT_DISABLE) then
      set_state State.enabled self
    else if 0 <? soft_disable_timer self then
      alert_append ET.SOFT_DISABLE self
    else if soft_disable_timer self <=? 0 then
      set_state State.disabled self
    else self
  else if bool_decide (state self = State.preEnabled) then
    if negb (Events_contains self ET.PRE_ENABLE) then
      set_state State.enabled self
    else alert_append ET.PRE_ENABLE self
  else if bool_decide (state self = State.overriding) then
    if Events_contains self ET.SOFT_DISABLE then
      alert_append ET.SOFT_DISABLE
        (set_soft_disable_timer soft_disable_ticks
           (set_state State.softDisabling self))
    else if negb (contains_override self) then
      set_state State.enabled self
    else
      set_current_alert_types
        (current_alert_types self
           ++ [ET.OVERRIDE_LATERAL; ET.OVERRIDE_LONGITUDINAL])
        self
  else self.

(** The branch taken when [self.state == State.disabled]. The call of
    [v_cruise_helper.initialize_v_cruise] on entry only writes to the
    cruise-speed helper, which is outside this model. *)
Definition transition_disabled (self : Controls) : Controls :=
  if Events_contains self ET.ENABLE then
    if Events_contains self ET.NO_ENTRY then
      alert_append ET.NO_ENTRY self
    else
      let self :=
        if Events_contains self ET.PRE_ENABLE then
          set_state State.preEnabled self
        else if contains_override self then
          set_state State.overriding self
        else set_state State.enabled self in
      alert_append ET.ENABLE self
  else self.

(** The dispatch on [self.state]: user and immediate disable have
    priority in every state but [disabled]. *)
Definition transition_dispatch (self : Controls) : Controls :=
  if bool_decide (state self ≠ State.disabled) then
    if Events_contains self ET.USER_DISABLE then
      alert_append ET.USER_DISABLE (set_state State.disabled self)
    else if Events_contains self ET.IMMEDIATE_DISABLE then
      alert_append ET.IMMEDIATE_DISABLE (set_state State.disabled self)
    else transition_engaged self
  else if bool_decide (state self = State.disabled) then
    transition_disabled self
  else self.

(** [state_transition(self, CS)]. [alwaysOnLateral] is
    [self.FPCC.alwaysOnLateral]; [v_cruise_helper.update_v_cruise] only
    writes to the cruise-speed helper. *)
Definition state_transition (alwaysOnLateral : bool) (self : Controls)
  : Controls :=
  (* decrement the soft disable timer at every step *)
  let self :=
    set_soft_disable_timer (Z.max 0 (soft_disable_timer self - 1)) self in
  let self := set_current_alert_types [ET.PERMANENT] self in
  let self := transition_dispatch self in
  let self :=
    set_enabled (bool_decide (state self ∈ ENABLED_STATES)) self in
  let self :=
    set_active (bool_decide (state self ∈ ACTIVE_STATES)) self in
  let self := if active self then alert_append ET.WARNING self else self in
  if alwaysOnLateral then alert_append ET.WARNING self else self.

(** The transition function applied [n] times to the same event set. *)
Fixpoint state_transition_iter (n : nat) (alwaysOnLateral : bool)
  (self : Controls) : Controls :=
  match n with
  | O => self
  | S n' =>
      state_transition_iter n' alwaysOnLateral
        (state_transition alwaysOnLateral self)
  end.

(** ** [Controls.set_initial_state] and [Controls.data_sample] *)

Variable CP : CarParams.

(** Under [REPLAY] the state is set to [enabled] when some panda allows
    controls; the cruise speed restored there belongs to the cruise-speed
    helper. *)
Definition set_initial_state (sm : SubMaster) (self : Controls) : Controls :=
  if REPLAY CP then
    if existsb controlsAllowed (pandaStates sm) then
      set_state State.enabled self
    else self
  else self.

(** [any(not ps.controlsAllowed for ps in self.sm['pandaStates']
         if ps.safetyModel not in IGNORED_SAFETY_MODES)] *)
Definition controls_not_allowed (sm : SubMaster) : bool :=
  existsb (fun ps => negb (controlsAllowed ps))
    (filter (fun ps => safetyModel ps ∉ IGNORED_SAFETY_MODES)
       (pandaStates sm)).

(** [data_sample(self)]: the initialisation gate and the panda mismatch
    counter. The camera-stream probing, [card.initialize] and the
    [ControlsReady] flag have no effect on the fields modelled. *)
Definition data_sample (CS : CarState) (sm : SubMaster) (self : Controls)
  : Controls :=
  let self :=
    if negb (initialized self) then
      let all_valid := canValid CS && all_checks sm in
      let timed_out := init_timed_out sm in
      if all_valid || timed_out || (SIMULATION CP && negb (REPLAY CP)) then
        set_initial_state sm (set_initialized true self)
      else self
    else self in
  let self :=
    if negb (enabled self) then set_mismatch_counter 0 self else self in
  if enabled self && controls_not_allowed sm then
    set_mismatch_counter (mismatch_counter self + 1) self
  else self.

(** ** [Controls.update_events] *)

(** [if b: self.events.add(name)] *)
Definition add_if (b : bool) (name : EventName) (self : Controls)
  : Controls :=
  if b then Events_add name self else self.

(** Resume blocking, pedals, driver monitoring and car events. *)
Definition events_driver (tg : Toggles) (sm : SubMaster) (CS : CarState)
  (self : Controls) : Controls :=
  let resume_pressed :=
    existsb (fun be => bool_decide
               (be_type be ∈ [ButtonType.accelCruise; ButtonType.resumeCruise]))
      (buttonEvents CS) in
  let self :=
    add_if (negb (pcmCruise CP) && negb (v_cruise_initialized tg)
            && resume_pressed)
      EventName.resumeBlocked self in
  let self :=
    add_if ((gasPressed CS && negb (gasPressed (CS_prev self))
             && disengage_on_accelerator tg)
            || (brakePressed CS
                && (negb (brakePressed (CS_prev self)) || negb (standstill CS)))
            || (regenBraking CS
                && (negb (regenBraking (CS_prev self)) || negb (standstill CS))))
      EventName.pedalPressed self in
  let self :=
    add_if (brakePressed CS && standstill CS)
      EventName.preEnableStandstill self in
  let self := add_if (gasPressed CS) EventName.gasPressedOverride self in
  let self :=
    if negb (notCar CP) then Events_add_from_msg (dm_events sm) self
    else self in
  if canValid CS then Events_add_from_msg (cs_events CS) self else self.

(** Temperature, disk space, memory and fan. [last_functional_fan_frame]
    is only read through [fan_grace_over]. *)
Definition events_device (tg : Toggles) (sm : SubMaster) (self : Controls)
  : Controls :=
  let self :=
    if ThermalStatus.level ThermalStatus.red
       <=? ThermalStatus.level (thermalStatus sm) then
      add_if (negb (increase_thermal_limits tg)
              || bool_decide (thermalStatus sm = ThermalStatus.danger))
        EventName.overheat self
    else self in
  let self :=
    add_if (free_space_low sm && negb (SIMULATION CP))
      EventName.outOfSpace self in
  let self :=
    add_if (memory_usage_high sm && negb (SIMULATION CP))
      EventName.lowMemory self in
  if pandaType_known sm then
    if fan_stalled sm then
      add_if (fan_grace_over sm) EventName.fanMalfunction self
    else self
  else self.

(** Calibration status; the offroad alert of the first recalibration is
    outside the model. *)
Definition events_calibration (sm : SubMaster) (self : Controls) : Controls :=
  let cal_status := calStatus sm in
  if bool_decide (cal_status ≠ CalStatus.calibrated) then
    if bool_decide (cal_status = CalStatus.uncalibrated) then
      Events_add EventName.calibrationIncomplete self
    else if bool_decide (cal_status = CalStatus.recalibrating) then
      Events_add EventName.calibrationRecalibrating self
    else Events_add EventName.calibrationInvalid self
  else self.

Definition events_lane_change (tg : Toggles) (sm : SubMaster) (CS : CarState)
  (self : Controls) : Controls :=
  if bool_decide (laneChangeState sm = LaneChangeState.preLaneChange) then
    let direction := laneChangeDirection sm in
    if (leftBlindspot CS && bool_decide (direction = LaneChangeDirection.left))
       || (rightBlindspot CS
           && bool_decide (direction = LaneChangeDirection.right)) then
      if loud_blindspot_alert tg then
        Events_add EventName.laneChangeBlockedLoud self
      else Events_add EventName.laneChangeBlocked self
    else if bool_decide (direction = LaneChangeDirection.left) then
      if lane_width_left_ok sm then
        Events_add EventName.preLaneChangeLeft self
      else Events_add EventName.noLaneAvailable self
    else
      if lane_width_right_ok sm then
        Events_add EventName.preLaneChangeRight self
      else Events_add EventName.noLaneAvailable self
  else if bool_decide
            (laneChangeState sm ∈ [LaneChangeState.laneChangeStarting;
                                   LaneChangeState.laneChangeFinishing]) then
    Events_add EventName.laneChange self
  else self.

(** [safety_mismatch] of the panda at index [i]. *)
Definition safety_mismatch (i : nat) (pandaState : PandaState) : bool :=
  match safetyConfigs CP !! i with
  | Some cfg =>                        (* i < len(self.CP.safetyConfigs) *)
      bool_decide (safetyModel pandaState ≠ cfg_safetyModel cfg)
      || bool_decide (safetyParam pandaState ≠ cfg_safetyParam cfg)
      || bool_decide
           (alternativeExperience pandaState ≠ cp_alternativeExperience CP)
  | None =>
      bool_decide (safetyModel pandaState ∉ IGNORED_SAFETY_MODES)
  end.

(** [for i, pandaState in enumerate(self.sm['pandaStates'])], from index
    [i] on. *)
Fixpoint events_pandas (sm : SubMaster) (i : nat)
  (states : list PandaState) (self : Controls) : Controls :=
  match states with
  | [] => self
  | pandaState :: rest =>
      let self :=
        add_if ((safety_mismatch i pandaState && past_safety_grace sm)
                || safetyRxChecksInvalid pandaState
                || (200 <=? mismatch_counter self))
          EventName.controlsMismatch self in
      let self :=
        add_if (bool_decide (FaultType.relayMalfunction ∈ faults pandaState))
          EventName.relayMalfunction self in
      events_pandas sm (S i) rest self
  end.

(** [not_running - IGNORE_PROCESSES] is not empty. *)
Definition process_missing (sm : SubMaster) : bool :=
  existsb (fun p => negb (running p) && shouldBeRunning p
                    && bool_decide (name p ∉ IGNORE_PROCESSES))
    (processes sm).

(** Hardware and system malfunctions, then the catch-all communication
    issue. The log calls are outside the model. *)
Definition events_system (sm : SubMaster) (CS : CarState) (self : Controls)
  : Controls :=
  let num_events := Events_len self in
  let self :=
    if managerState_received sm && process_missing sm then
      Events_add EventName.processNotRunning self
    else if negb (SIMULATION CP) && negb (rk_lagging sm) then
      if negb (cameras_alive sm) then
        Events_add EventName.cameraMalfunction self
      else if negb (cameras_freq_ok sm) then
        Events_add EventName.cameraFrameRate self
      else self
    else self in
  let self :=
    add_if (negb (REPLAY CP) && rk_lagging sm)
      EventName.controlsdLagging self in
  let self :=
    if negb (radarless_model CP) then
      add_if (radarErrors sm || (negb (rk_lagging sm) && negb (radar_checks sm)))
        EventName.radarFault self
    else self in
  let self := add_if (negb (pandaStates_valid sm)) EventName.usbError self in
  let self :=
    if canTimeout CS then Events_add EventName.canBusMissing self
    else if negb (canValid CS) then Events_add EventName.canError self
    else self in
  (* generic catch-all *)
  let has_disable_events :=
    Events_contains self ET.NO_ENTRY
    && (Events_contains self ET.SOFT_DISABLE
        || Events_contains self ET.IMMEDIATE_DISABLE) in
  let no_system_errors :=
    negb has_disable_events || (Events_len self =? num_events) in
  if (negb (all_checks sm) || can_rcv_timeout sm) && no_system_errors then
    if negb (all_alive sm) then Events_add EventName.commIssue self
    else if negb (all_freq_ok sm) then
      Events_add EventName.commIssueAvgFreq self
    else Events_add EventName.commIssue self
  else self.

Definition events_localization (tg : Toggles) (sm : SubMaster)
  (self : Controls) : Controls :=
  let self :=
    if negb (notCar CP && joystick_mode tg) then
      let self := add_if (negb (posenetOK sm)) EventName.posenetInvalid self in
      let self := add_if (negb (deviceStable sm)) EventName.deviceFalling self in
      let self :=
        add_if (negb (inputsOK sm)) EventName.locationdTemporaryError self in
      add_if (negb (liveParameters_valid sm) && negb (TESTING_CLOSET CP)
              && (negb (SIMULATION CP) || REPLAY CP))
        EventName.paramsdTemporaryError self
    else self in
  add_if (sensors_stale sm) EventName.sensorDataInvalid self.

(** Mismatch between openpilot and the car's PCM. *)
Definition events_cruise_mismatch (CS : CarState) (self : Controls)
  : Controls :=
  if negb (REPLAY CP) then
    let cruise_mismatch :=
      cruiseState_enabled CS && (negb (enabled self) || negb (pcmCruise CP)) in
    let self :=
      set_cruise_mismatch_counter
        (if cruise_mismatch then cruise_mismatch_counter self + 1 else 0)
        self in
    add_if (cruise_mismatch_ticks <? cruise_mismatch_counter self)
      EventName.cruiseMismatch self
  else self.

Definition events_fcw (tg : Toggles) (sm : SubMaster) (CS : CarState)
  (self : Controls) : Controls :=
  let stock_long_is_braking :=
    enabled self && negb (openpilotLongitudinalControl CP)
    && aEgo_below_stock_braking CS in
  let model_fcw :=
    hardBrakePredicted sm && negb (brakePressed CS)
    && negb stock_long_is_braking in
  let planner_fcw := longitudinalPlan_fcw sm && enabled self in
  if planner_fcw || model_fcw then
    set_fcw_random_event_triggered true (Events_add EventName.fcw self)
  else if fcw_random_event_triggered self && random_events tg then
    set_fcw_random_event_triggered false
      (Events_add EventName.yourFrogTriedToKillMe self)
  else self.

(** [for m in messaging.drain_sock(self.log_sock, ...)], over the CSIDs of
    the messages that carry an error marker. *)
Fixpoint events_android_log (csids : list string) (self : Controls)
  : Controls :=
  match csids with
  | [] => self
  | csid :: rest =>
      let self :=
        match CSID_MAP csid with
        | Some evt => Events_add evt self
        | None => self
        end in
      events_android_log rest self
  end.

Definition events_gps_model (sm : SubMaster) (self : Controls) : Controls :=
  if negb (SIMULATION CP) || REPLAY CP then
    let self :=
      add_if (negb (gpsOK sm) && inputsOK sm && far_from_start sm)
        EventName.noGps self in
    add_if (frame_drop_high sm) EventName.modeldLagging self
  else self.

(** [update_frogpilot_events(self, CS)]; the accumulators it updates are
    read only through [FrogPilotChecks]. *)
Definition update_frogpilot_events (tg : Toggles) (fp : FrogPilotChecks)
  (sm : SubMaster) (CS : CarState) (self : Controls) : Controls :=
  if block_user tg then Events_add EventName.blockUser self
  else
    let self :=
      if random_events tg then
        if accel30_peak fp then Events_add EventName.accel30 self
        else if accel35_peak fp then Events_add EventName.accel35 self
        else if accel40_peak fp then Events_add EventName.accel40 self
        else self
      else self in
    let self :=
      if green_light_alert fp then
        add_if (green_light_seen fp) EventName.greenLight self
      else self in
    let self := add_if (holiday_pending fp) EventName.holidayActive self in
    let self :=
      if lead_departing_check fp then
        add_if (lead_departing fp) EventName.leadDeparting self
      else self in
    let self :=
      if negb (standstill CS) then
        if bool_decide (turnDirection sm = Desire.turnLeft) then
          Events_add EventName.turningLeft self
        else if bool_decide (turnDirection sm = Desire.turnRight) then
          Events_add EventName.turningRight self
        else self
      else self in
    let self :=
      if crash_pending fp then
        if random_events tg then
          Events_add EventName.openpilotCrashedRandomEvents self
        else Events_add EventName.openpilotCrashed self
      else self in
    let self :=
      if speed_limit_checks fp then
        add_if (speed_limit_changed fp) EventName.speedLimitChanged self
      else self in
    let self := add_if (torque_nn_loaded fp) EventName.torqueNNLoad self in
    if random_events tg then
      if v_cruise_is_69 fp then
        add_if (negb (vCruise69_alert_played fp)) EventName.vCruise69 self
      else self
    else self.

(** The checks of [update_events] that follow the two early returns. *)
Definition update_events_checks (tg : Toggles) (fp : FrogPilotChecks)
  (sm : SubMaster) (CS : CarState) (self : Controls) : Controls :=
  let self := events_driver tg sm CS self in
  let self := events_device tg sm self in
  let self := events_calibration sm self in
  let self := events_lane_change tg sm CS self in
  let self := events_pandas sm 0 (pandaStates sm) self in
  let self := events_system sm CS self in
  let self := events_localization tg sm self in
  let self := events_cruise_mismatch CS self in
  let self := events_fcw tg sm CS self in
  let self := events_android_log (log_csids sm) self in
  let self := events_gps_model sm self in
  update_frogpilot_events tg fp sm CS self.

(** [update_events(self, CS)] *)
Definition update_events (tg : Toggles) (fp : FrogPilotChecks)
  (sm : SubMaster) (CS : CarState) (self : Controls) : Controls :=
  let self := Events_clear self in
  let self :=
    if joystick_mode tg then
      set_startup_event None (Events_add EventName.joystickDebug self)
    else self in
  let self :=
    match startup_event self with
    | Some e => set_startup_event None (Events_add e self)
    | None => self
    end in
  if negb (initialized self) then
    Events_add EventName.controlsInitializing self
  else if passive CP then self
  else update_events_checks tg fp sm CS self.

(** ** [Controls.step] and [Controls.__init__] *)

(** [step(self)]: sample, aggregate, transition when initialised and not
    passive, then the events [state_control] and [publish_logs] add, then
    [self.CS_prev = CS]. *)
Definition step (cy : Cycle) (self : Controls) : Controls :=
  let CS := cy_CS cy in
  let self := data_sample CS (cy_sm cy) self in
  let self := update_events (cy_toggles cy) (cy_frog cy) (cy_sm cy) CS self in
  let self :=
    if negb (passive CP) && initialized self then
      state_transition (cy_alwaysOnLateral cy) self
    else self in
  let self := Events_add_from_msg (cy_late_events cy) self in
  set_CS_prev CS self.

(** The static events [__init__] registers. *)
Definition init_static_events (sounds_available car_recognized : bool)
  : list EventName :=
  (if negb sounds_available then [EventName.soundsUnavailable] else [])
  ++ (if negb car_recognized then [EventName.carUnrecognized]
      else if passive CP then [EventName.dashcamMode]
      else []).

(** [Controls.__init__]; [startup] is what [get_startup_event] returns. *)
Definition Controls_init (sounds_available car_recognized : bool)
  (startup : option EventName) : Controls :=
  let static := init_static_events sounds_available car_recognized in
  {| initialized := false; state := State.disabled; enabled := false;
     active := false; soft_disable_timer := 0; mismatch_counter := 0;
     cruise_mismatch_counter := 0; events := static;
     static_events := static; current_alert_types := [ET.PERMANENT];
     startup_event := startup; CS_prev := CarState_new_message;
     fcw_random_event_triggered := false |}.

(** The loop of [controlsd_thread] over a finite prefix of cycles. *)
Fixpoint run (cycles : list Cycle) (self : Controls) : Controls :=
  match cycles with
  | [] => self
  | cy :: rest => run rest (step cy self)
  end.

End WithEventTable.

(** ** Concrete inputs

    A small category table, in the shape of the real one, and builders for
    states and messages; the properties below are run on them. *)

Definition EVENTS_sample (name : EventName) : list ET.t :=
  if bool_decide (name = "buttonEnable"%string) then [ET.ENABLE]
  else if bool_decide (name = "buttonCancel"%string) then [ET.USER_DISABLE]
  else if bool_decide (name = EventName.pedalPressed) then
    [ET.USER_DISABLE; ET.NO_ENTRY]
  else if bool_decide (name = EventName.controlsMismatch) then
    [ET.IMMEDIATE_DISABLE; ET.NO_ENTRY]
  else if bool_decide (name = EventName.overheat) then
    [ET.PERMANENT; ET.SOFT_DISABLE; ET.NO_ENTRY]
  else if bool_decide (name = EventName.preEnableStandstill) then
    [ET.PRE_ENABLE]
  else if bool_decide (name = EventName.gasPressedOverride) then
    [ET.OVERRIDE_LONGITUDINAL]
  else if bool_decide (name = "steerOverride"%string) then
    [ET.OVERRIDE_LATERAL]
  else if bool_decide (name = EventName.fcw) then [ET.PERMANENT]
  else [].

(** A [Controls] in state [s] with the given timer, counter and events. *)
Definition Controls_sample (s : State.t) (timer counter : Z)
  (evs : list EventName) : Controls :=
  {| initialized := true; state := s;
     enabled := bool_decide (s ∈ ENABLED_STATES);
     active := bool_decide (s ∈ ACTIVE_STATES);
     soft_disable_timer := timer; mismatch_counter := counter;
     cruise_mismatch_counter := 0; events := evs; static_events := [];
     current_alert_types := [ET.PERMANENT]; startup_event := None;
     CS_prev := CarState_new_message;
     fcw_random_event_triggered := false |}.

Definition CarParams_sample : CarParams :=
  {| passive := false; pcmCruise := true; notCar := false;
     openpilotLongitudinalControl := true;
     safetyConfigs :=
       [{| cfg_safetyModel := SafetyModel.other 2; cfg_safetyParam := 0 |}];
     cp_alternativeExperience := 0; radarless_model := false;
     REPLAY := false; SIMULATION := false; TESTING_CLOSET := false |}.

(** A panda in the configured safety mode. *)
Definition PandaState_sample (allowed : bool) : PandaState :=
  {| safetyModel := SafetyModel.other 2; safetyParam := 0;
     alternativeExperience := 0; controlsAllowed := allowed;
     safetyRxChecksInvalid := false; faults := [] |}.

(** A healthy snapshot with the given pandas. *)
Definition SubMaster_sample (pandas : list PandaState) : SubMaster :=
  {| pandaStates := pandas; pandaStates_valid := true;
     init_timed_out := true; past_safety_grace := true;
     thermalStatus := ThermalStatus.green; free_space_low := false;
     memory_usage_high := false; pandaType_known := true;
     fan_stalled := false; fan_grace_over := false;
     calStatus := CalStatus.calibrated;
     laneChangeState := LaneChangeState.off;
     laneChangeDirection := LaneChangeDirection.none;
     lane_width_left_ok := true; lane_width_right_ok := true;
     processes := []; managerState_received := true; rk_lagging := false;
     cameras_alive := true; cameras_freq_ok := true; radarErrors := false;
     radar_checks := true; all_checks := true; all_alive := true;
     all_freq_ok := true; can_rcv_timeout := false; posenetOK := true;
     deviceStable := true; inputsOK := true; gpsOK := true;
     liveParameters_valid := true; sensors_stale := false;
     hardBrakePredicted := false; longitudinalPlan_fcw := false;
     dm_events := []; log_csids := []; far_from_start := false;
     frame_drop_high := false; turnDirection := Desire.none |}.

Definition CarState_sample : CarState :=
  {| buttonEvents := []; gasPressed := false; brakePressed := false;
     regenBraking := false; standstill := false; canValid := true;
     canTimeout := false; cs_events := []; leftBlindspot := false;
     rightBlindspot := false; cruiseState_enabled := true;
     aEgo_below_stock_braking := false |}.

Definition Toggles_sample : Toggles :=
  {| joystick_mode := false; disengage_on_accelerator := true;
     increase_thermal_limits := false; loud_blindspot_alert := false;
     random_events := false; block_user := false;
     v_cruise_initialized := true |}.

Definition FrogPilotChecks_sample : FrogPilotChecks :=
  {| accel30_peak := false; accel35_peak := false; accel40_peak := false;
     green_light_alert := false; green_light_seen := false;
     holiday_pending := false; lead_departing_check := false;
     lead_departing := false; crash_pending := false;
     speed_limit_checks := false; speed_limit_changed := false;
     torque_nn_loaded := false; v_cruise_is_69 := false;
     vCruise69_alert_played := false |}.

(** A cycle with the given car events and pandas. *)
Definition Cycle_sample (car_events : list EventName)
  (pandas : list PandaState) : Cycle :=
  {| cy_CS :=
       {| buttonEvents := []; gasPressed := false; brakePressed := false;
          regenBraking := false; standstill := false; canValid := true;
          canTimeout := false; cs_events := car_events;
          leftBlindspot := false; rightBlindspot := false;
          cruiseState_enabled := true; aEgo_below_stock_braking := false |};
     cy_sm := SubMaster_sample pandas; cy_toggles := Toggles_sample;
     cy_frog := FrogPilotChecks_sample; cy_alwaysOnLateral := false;
     cy_late_events := [] |}.

(** The state [softDisabling] with one tick left and the soft-disable
    condition still present. *)
Definition Controls_last_tick : Controls :=
  Controls_sample State.softDisabling 1 0 [EventName.overheat].

(** Engaged for 199 cycles against a panda that does not allow controls:
    one cycle to initialise, one to engage, 199 more. *)
Definition cycles_mismatch_199 : list Cycle :=
  Cycle_sample [] []
  :: Cycle_sample ["buttonEnable"%string] [PandaState_sample false]
  :: replicate 199 (Cycle_sample [] [PandaState_sample false]).

Definition Controls_boot : Controls :=
  Controls_init CarParams_sample true true (Some "startup"%string).

(** ** The actuator sanitizer at the end of [Controls.state_control] *)

(** What [getattr(actuators, p)] returns: a float of the command, or a
    value of another field type of the schema. *)
Inductive Attr : Set :=
  | Float (f : spec_float)
  | Int (n : Z)
  | Bool (b : bool)
  | Other (repr : string).

(** [isinstance(attr, SupportsFloat)] *)
Definition SupportsFloat (attr : Attr) : bool :=
  match attr with
  | Float _ | Int _ | Bool _ => true
  | Other _ => false
  end.

(** [math.isfinite(attr)]; the integers of a capnp message have at most
    64 bits and convert to a finite float. The loop calls it only on a
    value that supports the conversion: on any other it has already
    continued, and the last case is never consulted. *)
Definition isfinite (attr : Attr) : bool :=
  match attr with
  | Float (S754_zero _) | Float (S754_finite _ _ _) => true
  | Float (S754_infinity _) | Float S754_nan => false
  | Int _ | Bool _ => true
  | Other _ => true
  end.

(** The float [0.0]. *)
Definition zero : Attr := Float (S754_zero false).

(** A [cloudlog.error] entry: the field named in the message and the
    [actuators.to_dict()] printed with it. *)
Record LogEntry : Type := {
  log_field : string;
  log_payload : gmap string Attr
}.

(** One turn of [for p in ACTUATOR_FIELDS]. [ACTUATOR_FIELDS] holds the
    field names of the schema, so [getattr] finds each of them; a name
    that is not a field leaves the command as it is. *)
Definition sanitize_field (st : gmap string Attr * list LogEntry)
  (p : string) : gmap string Attr * list LogEntry :=
  let '(actuators, log) := st in
  match actuators !! p with
  | Some attr =>
      if negb (SupportsFloat attr) then st        (* continue *)
      else if negb (isfinite attr) then
        (<[p := zero]> actuators,
         log ++ [{| log_field := p; log_payload := actuators |}])
      else st
  | None => st
  end.

(** The loop "Ensure no NaNs/Infs". [ACTUATOR_FIELDS] is
    [tuple(car.CarControl.Actuators.schema.fields.keys())], a parameter. *)
Definition sanitize_actuators (ACTUATOR_FIELDS : list string)
  (actuators : gmap string Attr) : gmap string Attr * list LogEntry :=
  foldl sanitize_field (actuators, []) ACTUATOR_FIELDS.

(** The command [{accel: NaN, steer: 0.4}], with the control state beside
    the floats. *)
Definition actuators_sample : gmap string Attr :=
  <["accel"%string := Float S754_nan]>
    (<["steer"%string := Float (S754_finite false 7205759403792794 (-54))]>
       (<["longControlState"%string := Other "off"%string]> ∅)).

Definition ACTUATOR_FIELDS_sample : list string :=
  ["steer"; "accel"; "longControlState"]%string.

(** ** Vocabulary of the properties *)

(** The fields the event aggregation never writes. *)
Definition keeps (self self' : Controls) : Prop :=
  initialized self' = initialized self
  /\ state self' = state self
  /\ enabled self' = enabled self
  /\ active self' = active self
  /\ soft_disable_timer self' = soft_disable_timer self
  /\ mismatch_counter self' = mismatch_counter self
  /\ static_events self' = static_events self
  /\ CS_prev self' = CS_prev self.

(** [self'] is [self] with events appended, each of them satisfying [P]. *)
Definition adds (P : EventName -> Prop) (self self' : Controls) : Prop :=
  keeps self self'
  /\ exists l, events self' = events self ++ l /\ Forall P l.

(** An event other than [controlsMismatch], or one handed in from outside
    in the list [ext]. *)
Definition foreign (ext : list EventName) (e : EventName) : Prop :=
  e = EventName.controlsMismatch -> e ∈ ext.

(** ** More of [state_control] and [publish_logs] *)

Section CommandFlags.

Variable EVENTS : EventName -> list ET.t.
Variable CP : CarParams.

(** [CC.longActive] of [state_control]. *)
Definition CC_longActive (self : Controls) : bool :=
  enabled self
  && negb (Events_contains EVENTS self ET.OVERRIDE_LONGITUDINAL)
  && openpilotLongitudinalControl CP.

(** [CC.cruiseControl.override] of [publish_logs], from the [CC.longActive]
    that [state_control] stored. *)
Definition cruiseControl_override (longActive : bool) (self : Controls)
  : bool :=
  enabled self && negb longActive && openpilotLongitudinalControl CP.

(** [CC.cruiseControl.cancel] of [publish_logs]; [joystick_cancel] is
    [self.joystick_mode and self.sm.recv_frame['testJoystick'] > 0 and
     self.sm['testJoystick'].buttons[0]]. *)
Definition cruiseControl_cancel (joystick_cancel : bool) (CS : CarState)
  (self : Controls) : bool :=
  let cancel :=
    cruiseState_enabled CS && (negb (enabled self) || negb (pcmCruise CP)) in
  if joystick_cancel then true else cancel.

(** [clear_event_types] of [publish_logs]; the set is kept as the list of
    its members. *)
Definition clear_event_types (self : Controls) : list ET.t :=
  (if bool_decide (ET.WARNING ∉ current_alert_types self)
   then [ET.WARNING] else [])
  ++ (if enabled self then [ET.NO_ENTRY] else []).

End CommandFlags.

(** ** The personality button at the end of [state_control] *)

(** [self.personality] and [self.onroad_distance_pressed]. *)
Record Personality : Set := {
  personality : Z;
  onroad_distance_pressed : bool
}.

(** The reads of [self.params_memory] in one cycle: [DistanceLongPressed],
    and [OnroadDistanceButtonPressed] where the decrement is guarded and
    where it is stored. *)
Record DistanceParams : Set := {
  DistanceLongPressed : bool;
  OnroadDistanceButtonPressed : bool;          (* read in the guard *)
  OnroadDistanceButtonPressed_stored : bool    (* read for the assignment *)
}.

(** [any(not be.pressed and be.type == ButtonType.gapAdjustCruise
         for be in CS.buttonEvents)] *)
Definition gap_adjust_released (CS : CarState) : bool :=
  existsb (fun be => negb (be_pressed be)
                     && bool_decide (be_type be = ButtonType.gapAdjustCruise))
    (buttonEvents CS).

(** "decrement personality on distance button press"; Python's [%] with a
    positive modulus is [Z.modulo]. *)
Definition update_personality (CP : CarParams) (CS : CarState)
  (pm : DistanceParams) (self : Personality) : Personality :=
  if openpilotLongitudinalControl CP then
    let self :=
      if gap_adjust_released CS || onroad_distance_pressed self then
        if negb (DistanceLongPressed pm || OnroadDistanceButtonPressed pm) then
          {| personality := (personality self - 1) mod 3;
             onroad_distance_pressed := onroad_distance_pressed self |}
        else self
      else self in
    {| personality := personality self;
       onroad_distance_pressed := OnroadDistanceButtonPressed_stored pm |}
  else self.

(** The button over a sequence of cycles of [step]. Between two cycles
    [params_thread] reloads [self.personality] from the parameter the
    decrement stores; the sequence is one in which the reload reads back
    the value stored, so that it changes nothing. *)
Fixpoint run_personality (CP : CarParams)
  (cycles : list (CarState * DistanceParams)) (self : Personality)
  : Personality :=
  match cycles with
  | [] => self
  | (CS, pm) :: rest =>
      run_personality CP rest (update_personality CP CS pm self)
  end.

(** A cycle in which the onroad distance button reads [pressed] in both
    places and no car button is released. *)
Definition onroad_cycle (pressed : bool) : CarState * DistanceParams :=
  (CarState_new_message,
   {| DistanceLongPressed := false;
      OnroadDistanceButtonPressed := pressed;
      OnroadDistanceButtonPressed_stored := pressed |}).

(** ** More vocabulary: the names each part of [update_events] adds *)

Definition names_driver : list EventName :=
  [EventName.resumeBlocked; EventName.pedalPressed;
   EventName.preEnableStandstill; EventName.gasPressedOverride].

Definition names_device : list EventName :=
  [EventName.overheat; EventName.outOfSpace; EventName.lowMemory;
   EventName.fanMalfunction].

Definition names_calibration : list EventName :=
  [EventName.calibrationIncomplete; EventName.calibrationRecalibrating;
   EventName.calibrationInvalid].

Definition names_lane_change : list EventName :=
  [EventName.laneChangeBlockedLoud; EventName.laneChangeBlocked;
   EventName.preLaneChangeLeft; EventName.noLaneAvailable;
   EventName.preLaneChangeRight; EventName.laneChange].

Definition names_pandas : list EventName :=
  [EventName.controlsMismatch; EventName.relayMalfunction].

Definition names_system : list EventName :=
  [EventName.processNotRunning; EventName.cameraMalfunction;
   EventName.cameraFrameRate; EventName.controlsdLagging;
   EventName.radarFault; EventName.usbError; EventName.canBusMissing;
   EventName.canError; EventName.commIssue; EventName.commIssueAvgFreq].

Definition names_localization : list EventName :=
  [EventName.posenetInvalid; EventName.deviceFalling;
   EventName.locationdTemporaryError; EventName.paramsdTemporaryError;
   EventName.sensorDataInvalid].

Definition names_cruise_mismatch : list EventName :=
  [EventName.cruiseMismatch].

Definition names_fcw : list EventName :=
  [EventName.fcw; EventName.yourFrogTriedToKillMe].

Definition names_android_log : list EventName :=
  [EventName.roadCameraError; EventName.wideRoadCameraError;
   EventName.driverCameraError].

Definition names_gps_model : list EventName :=
  [EventName.noGps; EventName.modeldLagging].

Definition names_frogpilot : list EventName :=
  [EventName.blockUser; EventName.accel30; EventName.accel35;
   EventName.accel40; EventName.greenLight; EventName.holidayActive;
   EventName.leadDeparting; EventName.turningLeft; EventName.turningRight;
   EventName.openpilotCrashedRandomEvents; EventName.openpilotCrashed;
   EventName.speedLimitChanged; EventName.torqueNNLoad;
   EventName.vCruise69].

(** [self'] is [self] with events appended, each satisfying [P], and with
    the startup event and the alert types as they were. *)
Definition writes (P : EventName -> Prop) (self self' : Controls) : Prop :=
  adds P self self'
  /\ startup_event self' = startup_event self
  /\ current_alert_types self' = current_alert_types self.

(** The events of a cycle that [update_events] does not decide on: the
    static ones, the startup event unless joystick mode drops it, and what
    the driver-monitoring and car messages carry when they are merged. *)
Definition handed_in (CP : CarParams) (tg : Toggles) (sm : SubMaster)
  (CS : CarState) (self : Controls) : list EventName :=
  static_events self
  ++ (if joystick_mode tg then [] else option_list (startup_event self))
  ++ (if negb (notCar CP) then dm_events sm else [])
  ++ (if canValid CS then cs_events CS else []).

(** ** More concrete inputs *)

(** The car state with the brake pressed while moving, and the one of a
    CAN timeout. *)
Definition CarState_braking : CarState :=
  {| buttonEvents := []; gasPressed := false; brakePressed := true;
     regenBraking := false; standstill := false; canValid := true;
     canTimeout := false; cs_events := []; leftBlindspot := false;
     rightBlindspot := false; cruiseState_enabled := true;
     aEgo_below_stock_braking := false |}.

Definition CarState_can_timeout : CarState :=
  {| buttonEvents := []; gasPressed := false; brakePressed := false;
     regenBraking := false; standstill := false; canValid := false;
     canTimeout := true; cs_events := []; leftBlindspot := false;
     rightBlindspot := false; cruiseState_enabled := true;
     aEgo_below_stock_braking := false |}.

(** The gap-adjust button released, with no distance parameter set. *)
Definition gap_released_cycle : CarState * DistanceParams :=
  ({| buttonEvents :=
        [{| be_type := ButtonType.gapAdjustCruise; be_pressed := false |}];
      gasPressed := false; brakePressed := false; regenBraking := false;
      standstill := false; canValid := true; canTimeout := false;
      cs_events := []; leftBlindspot := false; rightBlindspot := false;
      cruiseState_enabled := true; aEgo_below_stock_braking := false |},
   {| DistanceLongPressed := false; OnroadDistanceButtonPressed := false;
      OnroadDistanceButtonPressed_stored := false |}).

(** A snapshot without pandas in the given thermal, calibration and lane
    change condition, with the subsystem checks passing or not. *)
Definition SubMaster_condition (thermal : ThermalStatus.t)
  (cal : CalStatus.t) (lane : LaneChangeState.t)
  (direction : LaneChangeDirection.t) (checks : bool) : SubMaster :=
  {| pandaStates := []; pandaStates_valid := true;
     init_timed_out := true; past_safety_grace := true;
     thermalStatus := thermal; free_space_low := false;
     memory_usage_high := false; pandaType_known := true;
     fan_stalled := false; fan_grace_over := false;
     calStatus := cal; laneChangeState := lane;
     laneChangeDirection := direction;
     lane_width_left_ok := true; lane_width_right_ok := true;
     processes := []; managerState_received := true; rk_lagging := false;
     cameras_alive := true; cameras_freq_ok := true; radarErrors := false;
     radar_checks := true; all_checks := checks; all_alive := true;
     all_freq_ok := true; can_rcv_timeout := false; posenetOK := true;
     deviceStable := true; inputsOK := true; gpsOK := true;
     liveParameters_valid := true; sensors_stale := false;
     hardBrakePredicted := false; longitudinalPlan_fcw := false;
     dm_events := []; log_csids := []; far_from_start := false;
     frame_drop_high := false; turnDirection := Desire.none |}.

(** The car parameters of dashcam mode. *)
Definition CarParams_passive : CarParams :=
  {| passive := true; pcmCruise := true; notCar := false;
     openpilotLongitudinalControl := false;
     safetyConfigs :=
       [{| cfg_safetyModel := SafetyModel.other 2; cfg_safetyParam := 0 |}];
     cp_alternativeExperience := 0; radarless_model := false;
     REPLAY := false; SIMULATION := false; TESTING_CLOSET := false |}.

(** * Properties *)

(** ** The engagement state machine *)

Section StateMachine.

Variable EVENTS : EventName -> list ET.t.

Local Abbreviation contains := (Events_contains EVENTS).
Local Abbreviation transition := (state_transition EVENTS).

(** Reading a field through the setters of the state machine. *)
Ltac read_fields :=
  cbn [state soft_disable_timer events enabled active current_alert_types
       set_state set_soft_disable_timer set_current_alert_types
       set_enabled set_active] in *.

(** [self] at the point where [state_transition] dispatches on the state:
    the timer decremented, the alert types reset. *)
Local Abbreviation at_dispatch self :=
  (set_current_alert_types [ET.PERMANENT]
     (set_soft_disable_timer (Z.max 0 (soft_disable_timer self - 1)) self)).

(** What follows the dispatch only writes the flags and the alert types. *)
Lemma transition_after_dispatch (aol : bool) (self : Controls) :
  state (transition aol self)
    = state (transition_dispatch EVENTS (at_dispatch self))
  /\ soft_disable_timer (transition aol self)
     = soft_disable_timer (transition_dispatch EVENTS (at_dispatch self))
  /\ events (transition aol self)
     = events (transition_dispatch EVENTS (at_dispatch self)).
Proof.
  unfold state_transition, alert_append. cbv zeta.
  destruct aol; cbn [active set_active];
    match goal with |- context [if ?b then _ else _] => destruct b end;
    repeat split; reflexivity.
Qed.

(** Splits on every test of the dispatch; a test on the state that
    contradicts what is known closes its branch. *)
Ltac split_tests :=
  repeat match goal with
    | |- context [bool_decide ?P] =>
        let n := fresh "n" in
        destruct (bool_decide_reflect P) as [? | n];
        try congruence; try (exfalso; apply n; congruence)
    | |- context [if ?b then _ else _] =>
        let E := fresh "E" in destruct b eqn:E
    end;
  read_fields.

Ltac unfold_dispatch :=
  unfold transition_dispatch, transition_engaged, transition_disabled,
    contains_override, alert_append, Events_contains in *;
  read_fields.

Lemma dispatch_events (self : Controls) :
  events (transition_dispatch EVENTS self) = events self.
Proof. unfold_dispatch. split_tests; reflexivity. Qed.

Lemma transition_events (aol : bool) (self : Controls) :
  events (transition aol self) = events self.
Proof.
  destruct (transition_after_dispatch aol self) as (_ & _ & ->).
  now rewrite dispatch_events.
Qed.

Lemma transition_contains (aol : bool) (self : Controls) (t : ET.t) :
  contains (transition aol self) t = contains self t.
Proof. unfold Events_contains. now rewrite transition_events. Qed.

Lemma dispatch_timer_nonneg (self : Controls) :
  0 <= soft_disable_timer self ->
  0 <= soft_disable_timer (transition_dispatch EVENTS self).
Proof.
  intros H. unfold_dispatch.
  split_tests; trivial;
    unfold soft_disable_ticks, SOFT_DISABLE_TIME, TICK_RATE; lia.
Qed.

(** Whatever the timer was, it is not negative after a transition. *)
Lemma transition_timer_nonneg (aol : bool) (self : Controls) :
  0 <= soft_disable_timer (transition aol self).
Proof.
  destruct (transition_after_dispatch aol self) as (_ & -> & _).
  apply dispatch_timer_nonneg. read_fields. lia.
Qed.

(** C1. In every state but [disabled], an event of category
    [USER_DISABLE] or [IMMEDIATE_DISABLE] in the cycle's event set makes
    the state after [state_transition] [disabled], whatever the state
    (pre-enabled, enabled, soft-disabling, overriding) and whatever else
    the event set holds. *)
Theorem disable_preempts (aol : bool) (self : Controls) :
  state self <> State.disabled ->
  contains self ET.USER_DISABLE = true
  \/ contains self ET.IMMEDIATE_DISABLE = true ->
  state (transition aol self) = State.disabled.
Proof.
  intros Hs Hev.
  destruct (transition_after_dispatch aol self) as (-> & _ & _).
  unfold_dispatch. rewrite (bool_decide_eq_true_2 _ Hs).
  destruct Hev as [-> | Hid]; [reflexivity |].
  rewrite Hid. split_tests; reflexivity.
Qed.

(** With the soft-disable condition present and no disable event, the
    state machine in [softDisabling] tests the timer after it has been
    decremented. *)
Lemma soft_disabling_step (aol : bool) (self : Controls) :
  state self = State.softDisabling ->
  contains self ET.SOFT_DISABLE = true ->
  contains self ET.USER_DISABLE = false ->
  contains self ET.IMMEDIATE_DISABLE = false ->
  soft_disable_timer (transition aol self)
    = Z.max 0 (soft_disable_timer self - 1)
  /\ state (transition aol self)
     = if 0 <? Z.max 0 (soft_disable_timer self - 1)
       then State.softDisabling else State.disabled.
Proof.
  intros Hs Hsd Hud Hid.
  destruct (transition_after_dispatch aol self) as (-> & -> & _).
  unfold_dispatch. rewrite Hs, Hsd, Hud, Hid. cbn [negb].
  destruct (0 <? Z.max 0 (soft_disable_timer self - 1)) eqn:Hpos.
  - split_tests; auto.
  - assert (Hle : (Z.max 0 (soft_disable_timer self - 1) <=? 0) = true)
      by (apply Z.leb_le; apply Z.ltb_ge in Hpos; lia).
    rewrite Hle. split_tests; auto.
Qed.

(** C2, amended. In [softDisabling], with an event of category
    [SOFT_DISABLE] and none of [USER_DISABLE] or [IMMEDIATE_DISABLE], the
    timer is decremented before it is tested. With the timer at 1 the
    state is [disabled], timer 0, after that very cycle. With the timer at
    2 the state is still [softDisabling], timer 1, after the cycle, and
    [disabled], timer 0, after the following cycle in which the
    condition is still present. *)
Theorem soft_disable_last_tick (aol1 aol2 : bool) (self : Controls)
  (evs : list EventName) :
  state self = State.softDisabling ->
  contains self ET.SOFT_DISABLE = true ->
  contains self ET.USER_DISABLE = false ->
  contains self ET.IMMEDIATE_DISABLE = false ->
  contains (set_events evs (transition aol1 self)) ET.SOFT_DISABLE = true ->
  contains (set_events evs (transition aol1 self)) ET.USER_DISABLE = false ->
  contains (set_events evs (transition aol1 self)) ET.IMMEDIATE_DISABLE
    = false ->
  (soft_disable_timer self = 1 ->
   state (transition aol1 self) = State.disabled
   /\ soft_disable_timer (transition aol1 self) = 0)
  /\ (soft_disable_timer self = 2 ->
      state (transition aol1 self) = State.softDisabling
      /\ soft_disable_timer (transition aol1 self) = 1
      /\ state (transition aol2 (set_events evs (transition aol1 self)))
         = State.disabled
      /\ soft_disable_timer
           (transition aol2 (set_events evs (transition aol1 self)))
         = 0).
Proof.
  intros Hs Hsd Hud Hid.
  set (next := set_events evs (transition aol1 self)).
  intros Hsd' Hud' Hid'.
  destruct (soft_disabling_step aol1 self Hs Hsd Hud Hid) as [Ht Hst].
  split; intros Htimer; rewrite Htimer in Ht, Hst; cbn in Ht, Hst.
  - auto.
  - assert (Hs' : state next = State.softDisabling) by exact Hst.
    destruct (soft_disabling_step aol2 next Hs' Hsd' Hud' Hid')
      as [Ht' Hst'].
    assert (Hn : soft_disable_timer next = 1) by exact Ht.
    rewrite Hn in Ht', Hst'. auto.
Qed.

(** C3. A cycle that starts in [enabled] or [overriding] with an event of
    category [SOFT_DISABLE] and none of [USER_DISABLE] or
    [IMMEDIATE_DISABLE] ends in [softDisabling] with the timer at
    [int(SOFT_DISABLE_TIME / DT_CTRL)], 300 cycles at 100 Hz, whatever the
    timer was; and every cycle that enters [softDisabling] from another
    state is such a cycle and leaves the timer at 300. *)
Theorem soft_disabling_rearms (aol : bool) (self : Controls) :
  (state self = State.enabled \/ state self = State.overriding ->
   contains self ET.SOFT_DISABLE = true ->
   contains self ET.USER_DISABLE = false ->
   contains self ET.IMMEDIATE_DISABLE = false ->
   state (transition aol self) = State.softDisabling
   /\ soft_disable_timer (transition aol self) = soft_disable_ticks
   /\ soft_disable_ticks = 300)
  /\ (state self <> State.softDisabling ->
      state (transition aol self) = State.softDisabling ->
      soft_disable_timer (transition aol self) = 300
      /\ (state self = State.enabled \/ state self = State.overriding)
      /\ contains self ET.SOFT_DISABLE = true).
Proof.
  destruct (transition_after_dispatch aol self) as (-> & -> & _).
  split.
  - intros Hs Hsd Hud Hid. unfold_dispatch. rewrite Hsd, Hud, Hid.
    destruct Hs as [-> | ->]; split_tests; repeat split; reflexivity.
  - intros Hs. unfold_dispatch.
    destruct (state self) eqn:Hst; try congruence;
      split_tests; intros; try congruence; repeat split; auto.
Qed.

(** C4. From [disabled], the state after the cycle differs from
    [disabled] exactly when the events hold one of category [ENABLE] and
    none of category [NO_ENTRY]; the target is then [preEnabled] if an
    event of category [PRE_ENABLE] is present, else [overriding] if one of
    [OVERRIDE_LATERAL] or [OVERRIDE_LONGITUDINAL] is, else [enabled]. *)
Theorem disabled_entry (aol : bool) (self : Controls) :
  state self = State.disabled ->
  (state (transition aol self) <> State.disabled
   <-> contains self ET.ENABLE = true /\ contains self ET.NO_ENTRY = false)
  /\ (contains self ET.ENABLE = true ->
      contains self ET.NO_ENTRY = false ->
      state (transition aol self)
      = if contains self ET.PRE_ENABLE then State.preEnabled
        else if contains self ET.OVERRIDE_LATERAL
                || contains self ET.OVERRIDE_LONGITUDINAL
             then State.overriding
             else State.enabled).
Proof.
  intros Hs.
  destruct (transition_after_dispatch aol self) as (-> & _ & _).
  unfold_dispatch. rewrite Hs.
  split; [split |].
  - split_tests; intros H; auto; congruence.
  - intros [-> ->]. split_tests; congruence.
  - intros -> ->. split_tests; congruence.
Qed.

(** One cycle in [enabled] with no disabling and no override event. *)
Lemma enabled_step (aol : bool) (self : Controls) :
  state self = State.enabled ->
  contains self ET.USER_DISABLE = false ->
  contains self ET.IMMEDIATE_DISABLE = false ->
  contains self ET.SOFT_DISABLE = false ->
  contains self ET.OVERRIDE_LATERAL = false ->
  contains self ET.OVERRIDE_LONGITUDINAL = false ->
  state (transition aol self) = State.enabled.
Proof.
  intros Hs Hud Hid Hsd Hol Hog.
  destruct (transition_after_dispatch aol self) as (-> & _ & _).
  unfold_dispatch. rewrite Hs, Hud, Hid, Hsd, Hol, Hog. cbn [orb].
  split_tests; assumption.
Qed.

(** C8. From [enabled], with an event set that holds no event of category
    [USER_DISABLE], [IMMEDIATE_DISABLE], [SOFT_DISABLE],
    [OVERRIDE_LATERAL] or [OVERRIDE_LONGITUDINAL], any number of
    transitions on that event set leaves the state [enabled]. *)
Theorem enabled_is_stable (n : nat) (aol : bool) (self : Controls) :
  state self = State.enabled ->
  contains self ET.USER_DISABLE = false ->
  contains self ET.IMMEDIATE_DISABLE = false ->
  contains self ET.SOFT_DISABLE = false ->
  contains self ET.OVERRIDE_LATERAL = false ->
  contains self ET.OVERRIDE_LONGITUDINAL = false ->
  state (state_transition_iter EVENTS n aol self) = State.enabled.
Proof.
  revert self. induction n as [| n IH]; intros self Hs Hud Hid Hsd Hol Hog.
  - exact Hs.
  - cbn [state_transition_iter].
    apply IH; rewrite ?transition_contains; trivial.
    now apply enabled_step.
Qed.

End StateMachine.

(** ** The actuator sanitizer *)

Section Sanitizer.

(** A value the sanitizer replaces: it converts to a float and
    [math.isfinite] rejects it. *)
Local Abbreviation non_finite attr :=
  (SupportsFloat attr && negb (isfinite attr)).

Lemma elem_of_cons_ne (p q : string) (fields : list string) :
  p <> q -> bool_decide (p ∈ q :: fields) = bool_decide (p ∈ fields).
Proof.
  intros Hne. apply bool_decide_ext. rewrite elem_of_cons. tauto.
Qed.

(** One turn of the loop either replaces an offending field and logs it,
    or changes nothing. *)
Lemma sanitize_field_cases (a : gmap string Attr) (log : list LogEntry)
  (q : string) :
  (exists aq, a !! q = Some aq /\ non_finite aq = true
     /\ sanitize_field (a, log) q
        = (<[q := zero]> a,
           log ++ [{| log_field := q; log_payload := a |}]))
  \/ ((forall aq, a !! q = Some aq -> non_finite aq = false)
      /\ sanitize_field (a, log) q = (a, log)).
Proof.
  unfold sanitize_field. destruct (a !! q) as [aq |] eqn:Hq.
  - destruct (SupportsFloat aq) eqn:Hsf; cbn [negb].
    + destruct (isfinite aq) eqn:Hfin; cbn [negb].
      * right. split; [| reflexivity]. intros ? [= <-]. now rewrite Hsf, Hfin.
      * left. exists aq. now rewrite Hsf, Hfin.
    + right. split; [| reflexivity]. intros ? [= <-]. now rewrite Hsf.
  - right. split; [| reflexivity]. intros ? [=].
Qed.

(** The loop invariant of the sanitizer, for any starting log: a field
    that is visited and offends is set to zero and logged, every other
    field keeps its value. *)
Lemma sanitize_fold (fields : list string) (a : gmap string Attr)
  (log : list LogEntry) :
  let r := foldl sanitize_field (a, log) fields in
  (forall p attr, a !! p = Some attr ->
     r.1 !! p = Some (if bool_decide (p ∈ fields) && non_finite attr
                      then zero else attr))
  /\ (forall p, p ∈ log_field <$> r.2 <->
        p ∈ log_field <$> log
        \/ (p ∈ fields
            /\ exists attr, a !! p = Some attr /\ non_finite attr = true)).
Proof.
  revert a log. induction fields as [| q fields IH]; intros a log; cbn zeta.
  - cbn [foldl fst snd]. split.
    + intros p attr H.
      now rewrite bool_decide_eq_false_2 by apply not_elem_of_nil.
    + intros p. split; [tauto |].
      intros [H | (H & _)]; [done | now apply elem_of_nil in H].
  - cbn [foldl].
    destruct (sanitize_field_cases a log q)
      as [(aq & Hq & Hnf & ->) | (Hfin & ->)].
    + specialize (IH (<[q := zero]> a)
                     (log ++ [{| log_field := q; log_payload := a |}])).
      cbn zeta in IH. destruct IH as [IHv IHl]. split.
      * intros p attr Hp. destruct (decide (p = q)) as [-> | Hne].
        -- assert (attr = aq) as -> by congruence.
           rewrite (IHv q zero) by apply lookup_insert_eq.
           rewrite (bool_decide_eq_true_2 (q ∈ q :: fields))
             by (apply elem_of_cons; auto).
           rewrite Hnf. cbn. now destruct (bool_decide _).
        -- rewrite (IHv p attr) by (rewrite lookup_insert_ne; done).
           now rewrite elem_of_cons_ne.
      * intros p. rewrite IHl, fmap_app, elem_of_app. cbn [fmap list_fmap log_field].
        rewrite list_elem_of_singleton, elem_of_cons. split.
        -- intros [[H | ->] | (Hin & attr & Hp & Hattr)].
           ++ now left.
           ++ right. split; [now left | eauto].
           ++ destruct (decide (p = q)) as [-> | Hne].
              ** right. split; [now left | eauto].
              ** rewrite lookup_insert_ne in Hp by done.
                 right. split; [now right | eauto].
        -- intros [H | ([-> | Hin] & attr & Hp & Hattr)].
           ++ left; now left.
           ++ left; now right.
           ++ destruct (decide (p = q)) as [-> | Hne].
              ** left; now right.
              ** right. split; [done |]. exists attr.
                 rewrite lookup_insert_ne by done. done.
    + specialize (IH a log). cbn zeta in IH. destruct IH as [IHv IHl]. split.
      * intros p attr Hp. rewrite (IHv p attr Hp). f_equal.
        destruct (non_finite attr) eqn:Hattr; [| now rewrite !andb_false_r].
        assert (p <> q) by (intros ->; rewrite (Hfin _ Hp) in Hattr; done).
        now rewrite elem_of_cons_ne.
      * intros p. rewrite IHl, elem_of_cons. split.
        -- intros [H | (Hin & attr & Hp & Hattr)]; [now left |].
           right. split; [now right | eauto].
        -- intros [H | ([-> | Hin] & attr & Hp & Hattr)]; [now left | |].
           ++ rewrite (Hfin _ Hp) in Hattr. done.
           ++ right. eauto.
Qed.

(** C5. For any actuator command, the sanitizer sets every field that
    holds a NaN or an infinity to [0.0] and logs an entry naming it, logs
    nothing else, and leaves every other field as it was; when the command
    has no field outside [ACTUATOR_FIELDS], no field of the result is NaN
    or infinite. *)
Theorem sanitize_actuators_spec (ACTUATOR_FIELDS : list string)
  (actuators : gmap string Attr) :
  (forall p attr,
     p ∈ ACTUATOR_FIELDS -> actuators !! p = Some attr ->
     non_finite attr = true ->
     (sanitize_actuators ACTUATOR_FIELDS actuators).1 !! p = Some zero
     /\ p ∈ log_field <$> (sanitize_actuators ACTUATOR_FIELDS actuators).2)
  /\ (forall p attr,
        actuators !! p = Some attr -> non_finite attr = false ->
        (sanitize_actuators ACTUATOR_FIELDS actuators).1 !! p = Some attr)
  /\ (forall p,
        p ∈ log_field <$> (sanitize_actuators ACTUATOR_FIELDS actuators).2 ->
        p ∈ ACTUATOR_FIELDS
        /\ exists attr, actuators !! p = Some attr /\ non_finite attr = true)
  /\ ((forall p, is_Some (actuators !! p) -> p ∈ ACTUATOR_FIELDS) ->
      forall p attr,
        (sanitize_actuators ACTUATOR_FIELDS actuators).1 !! p = Some attr ->
        non_finite attr = false).
Proof.
  unfold sanitize_actuators.
  destruct (sanitize_fold ACTUATOR_FIELDS actuators []) as [Hv Hl].
  cbn zeta in Hv, Hl. split; [| split; [| split]].
  - intros p attr Hin Hp Hattr. split.
    + rewrite (Hv p attr Hp).
      rewrite bool_decide_eq_true_2 by done. now rewrite Hattr.
    + apply Hl. right. eauto.
  - intros p attr Hp Hattr. rewrite (Hv p attr Hp), Hattr.
    now rewrite andb_false_r.
  - intros p Hlog.
    apply Hl in Hlog as [Hlog | Hlog]; [now apply elem_of_nil in Hlog | done].
  - intros Hdom p attr Hp.
    destruct (actuators !! p) as [old |] eqn:Hold.
    + rewrite (Hv p old Hold) in Hp.
      rewrite bool_decide_eq_true_2 in Hp by (apply Hdom; eauto).
      cbn [andb] in Hp.
      destruct (SupportsFloat old && negb (isfinite old)) eqn:Hnf;
        injection Hp as <-; [reflexivity | exact Hnf].
    + exfalso. revert Hp. clear -Hold.
      generalize (@nil LogEntry). revert actuators Hold.
      induction ACTUATOR_FIELDS as [| q fields IH]; intros a Hold log;
        cbn [foldl].
      * cbn. congruence.
      * destruct (sanitize_field_cases a log q)
          as [(aq & Hq & Hnf & ->) | (Hfin & ->)].
        -- apply IH. rewrite lookup_insert_ne; [done | congruence].
        -- now apply IH.
Qed.

End Sanitizer.

(** ** The event aggregation *)

Section Aggregation.

Variable EVENTS : EventName -> list ET.t.
Variable CP : CarParams.

Lemma keeps_refl (self : Controls) : keeps self self.
Proof. repeat split. Qed.

Lemma keeps_trans (a b c : Controls) : keeps a b -> keeps b c -> keeps a c.
Proof.
  unfold keeps. intros (?&?&?&?&?&?&?&?) (?&?&?&?&?&?&?&?).
  repeat split; congruence.
Qed.

Lemma adds_refl (P : EventName -> Prop) (self : Controls) : adds P self self.
Proof.
  split; [apply keeps_refl |]. exists []. now rewrite app_nil_r.
Qed.

Lemma adds_trans (P : EventName -> Prop) (a b c : Controls) :
  adds P a b -> adds P b c -> adds P a c.
Proof.
  intros [Hk1 (l1 & E1 & F1)] [Hk2 (l2 & E2 & F2)].
  split; [eapply keeps_trans; eassumption |].
  exists (l1 ++ l2). rewrite E2, E1, app_assoc. split; [done |].
  now apply Forall_app.
Qed.

Lemma adds_weaken (P Q : EventName -> Prop) (a b : Controls) :
  (forall e, P e -> Q e) -> adds P a b -> adds Q a b.
Proof.
  intros HPQ [Hk (l & E & F)]. split; [done |]. exists l. split; [done |].
  eapply Forall_impl; eassumption.
Qed.

Lemma adds_elem (P : EventName -> Prop) (a b : Controls) (e : EventName) :
  adds P a b -> e ∈ events a -> e ∈ events b.
Proof. intros [_ (l & -> & _)] H. apply elem_of_app. now left. Qed.

Lemma adds_new (P : EventName -> Prop) (a b : Controls) (e : EventName) :
  adds P a b -> e ∈ events b -> e ∈ events a \/ P e.
Proof.
  intros [_ (l & -> & F)] [H | H]%elem_of_app; [now left | right].
  rewrite Forall_forall in F. auto.
Qed.

(** *** The writes of [update_events], one by one *)

Lemma adds_Events_add P (self x : Controls) (n : EventName) :
  adds P self x -> P n -> adds P self (Events_add n x).
Proof.
  intros H Hn. eapply adds_trans; [exact H |].
  split; [repeat split |]. exists [n]. split; [done |]. now constructor.
Qed.

Lemma adds_Events_add_from_msg P (self x : Controls) (l : list EventName) :
  adds P self x -> Forall P l -> adds P self (Events_add_from_msg l x).
Proof.
  intros H Hl. eapply adds_trans; [exact H |].
  split; [repeat split |]. now exists l.
Qed.

Lemma adds_add_if P (self x : Controls) (b : bool) (n : EventName) :
  adds P self x -> P n -> adds P self (add_if b n x).
Proof. intros H Hn. destruct b; cbn; [now apply adds_Events_add | done]. Qed.

Lemma adds_set_startup_event P (self x : Controls) v :
  adds P self x -> adds P self (set_startup_event v x).
Proof.
  intros H. eapply adds_trans; [exact H |].
  split; [repeat split |]. exists []. now rewrite app_nil_r.
Qed.

Lemma adds_set_cruise_mismatch_counter P (self x : Controls) v :
  adds P self x -> adds P self (set_cruise_mismatch_counter v x).
Proof.
  intros H. eapply adds_trans; [exact H |].
  split; [repeat split |]. exists []. now rewrite app_nil_r.
Qed.

Lemma adds_set_fcw_random_event_triggered P (self x : Controls) v :
  adds P self x -> adds P self (set_fcw_random_event_triggered v x).
Proof.
  intros H. eapply adds_trans; [exact H |].
  split; [repeat split |]. exists []. now rewrite app_nil_r.
Qed.

Lemma adds_let P (self a : Controls) (f : Controls -> Controls) :
  adds P self a -> (forall x, adds P x (f x)) -> adds P self (f a).
Proof. intros H Hf. eapply adds_trans; [exact H | apply Hf]. Qed.

(** An event the source names, other than [controlsMismatch]. *)
Ltac named_event :=
  match goal with
  | |- foreign _ _ =>
      let H := fresh in intros H; vm_compute in H; discriminate H
  | |- True => exact I
  | _ => eassumption
  end.

(** Follows the structure of a piece of [update_events]: sequencing,
    tests, and the writes above. *)
Ltac adds_structure :=
  repeat first
    [ apply adds_refl
    | lazymatch goal with
      | |- adds ?P ?s (let x := ?a in @?f x) =>
          lazymatch type of a with
          | Controls =>
              change (adds P s (f a)); cbv beta;
              apply (adds_let P s a f); [| intros ?]
          | _ =>
              let y := fresh "v" in
              change (adds P s (f a)); cbv beta;
              generalize a; intros y
          end
      | |- adds _ _ (if ?b then _ else _) => destruct b
      | |- adds _ _ (match ?o with Some _ => _ | None => _ end) => destruct o
      | |- adds _ _ (Events_add _ _) =>
          apply adds_Events_add; [| named_event]
      | |- adds _ _ (add_if _ _ _) => apply adds_add_if; [| named_event]
      | |- adds _ _ (Events_add_from_msg _ _) =>
          apply adds_Events_add_from_msg; [| try eassumption]
      | |- adds _ _ (set_startup_event _ _) => apply adds_set_startup_event
      | |- adds _ _ (set_cruise_mismatch_counter _ _) =>
          apply adds_set_cruise_mismatch_counter
      | |- adds _ _ (set_fcw_random_event_triggered _ _) =>
          apply adds_set_fcw_random_event_triggered
      end ].

Section Pieces.

Variables (tg : Toggles) (fp : FrogPilotChecks) (sm : SubMaster)
  (CS : CarState).

(** The events the driver-monitoring and car messages hand in. *)
Local Abbreviation ext := (dm_events sm ++ cs_events CS).

Lemma foreign_ext (l : list EventName) :
  l ⊆ ext -> Forall (foreign ext) l.
Proof. intros Hl. apply Forall_forall. intros e He _. now apply Hl. Qed.

Lemma events_driver_adds (self : Controls) :
  adds (foreign ext) self (events_driver CP tg sm CS self).
Proof.
  unfold events_driver. adds_structure.
  all: apply foreign_ext; intros e He; apply elem_of_app; auto.
Qed.

Lemma events_device_adds (self : Controls) :
  adds (foreign ext) self (events_device CP tg sm self).
Proof. unfold events_device. adds_structure. Qed.

Lemma events_calibration_adds (self : Controls) :
  adds (foreign ext) self (events_calibration sm self).
Proof. unfold events_calibration. adds_structure. Qed.

Lemma events_lane_change_adds (self : Controls) :
  adds (foreign ext) self (events_lane_change tg sm CS self).
Proof. unfold events_lane_change. adds_structure. Qed.

Lemma events_system_adds (self : Controls) :
  adds (foreign ext) self (events_system EVENTS CP sm CS self).
Proof. unfold events_system. adds_structure. Qed.

Lemma events_localization_adds (self : Controls) :
  adds (foreign ext) self (events_localization CP tg sm self).
Proof. unfold events_localization. adds_structure. Qed.

Lemma events_cruise_mismatch_adds (self : Controls) :
  adds (foreign ext) self (events_cruise_mismatch CP CS self).
Proof. unfold events_cruise_mismatch. adds_structure. Qed.

Lemma events_fcw_adds (self : Controls) :
  adds (foreign ext) self (events_fcw CP tg sm CS self).
Proof. unfold events_fcw. adds_structure. Qed.

Lemma events_android_log_adds (csids : list string) (self : Controls) :
  adds (foreign ext) self (events_android_log csids self).
Proof.
  revert self. induction csids as [| csid rest IH]; intros self;
    cbn [events_android_log]; [apply adds_refl |].
  cbv zeta. eapply adds_trans; [| apply IH].
  unfold CSID_MAP.
  repeat match goal with
    | |- context [bool_decide ?Q] => destruct (bool_decide Q)
    end; adds_structure.
Qed.

Lemma events_gps_model_adds (self : Controls) :
  adds (foreign ext) self (events_gps_model CP sm self).
Proof. unfold events_gps_model. adds_structure. Qed.

Lemma update_frogpilot_events_adds (self : Controls) :
  adds (foreign ext) self (update_frogpilot_events tg fp sm CS self).
Proof. unfold update_frogpilot_events. adds_structure. Qed.

(** The loop over the pandas only appends events. *)
Lemma events_pandas_adds (i : nat) (states : list PandaState)
  (self : Controls) :
  adds (fun _ => True) self (events_pandas CP sm i states self).
Proof.
  revert i self. induction states as [| ps rest IH]; intros i self;
    cbn [events_pandas]; [apply adds_refl |].
  cbv zeta. eapply adds_trans; [| apply IH]. adds_structure.
Qed.

(** With the counter at 200 or more, the first panda of the loop already
    raises [controlsMismatch]. *)
Lemma events_pandas_threshold (i : nat) (states : list PandaState)
  (self : Controls) :
  states <> [] ->
  200 <= mismatch_counter self ->
  EventName.controlsMismatch ∈ events (events_pandas CP sm i states self).
Proof.
  intros Hne Hc. destruct states as [| ps rest]; [done |].
  cbn [events_pandas]. cbv zeta.
  eapply adds_elem; [apply events_pandas_adds |].
  eapply (adds_elem (fun _ => True)).
  { apply adds_add_if; [apply adds_refl | exact I]. }
  assert (Hle : (200 <=? mismatch_counter self) = true) by now apply Z.leb_le.
  rewrite Hle, !orb_true_r. cbn [add_if Events_add events set_events].
  apply elem_of_app. right. now left.
Qed.

(** The checks before and after the loop over the pandas. *)
Lemma update_events_checks_split (self : Controls) :
  exists before,
    adds (foreign ext) self before
    /\ adds (foreign ext)
         (events_pandas CP sm 0 (pandaStates sm) before)
         (update_events_checks EVENTS CP tg fp sm CS self).
Proof.
  unfold update_events_checks. cbv zeta. eexists. split.
  - eapply adds_trans; [apply events_driver_adds |].
    eapply adds_trans; [apply events_device_adds |].
    eapply adds_trans; [apply events_calibration_adds |].
    apply events_lane_change_adds.
  - eapply adds_trans; [apply events_system_adds |].
    eapply adds_trans; [apply events_localization_adds |].
    eapply adds_trans; [apply events_cruise_mismatch_adds |].
    eapply adds_trans; [apply events_fcw_adds |].
    eapply adds_trans; [apply events_android_log_adds |].
    eapply adds_trans; [apply events_gps_model_adds |].
    apply update_frogpilot_events_adds.
Qed.

Lemma update_events_checks_adds (self : Controls) :
  adds (fun _ => True) self (update_events_checks EVENTS CP tg fp sm CS self).
Proof.
  destruct (update_events_checks_split self) as (before & H1 & H2).
  eapply adds_trans; [eapply adds_weaken; [| exact H1]; done |].
  eapply adds_trans; [apply events_pandas_adds |].
  eapply adds_weaken; [| exact H2]; done.
Qed.

Lemma update_events_checks_no_pandas (self : Controls) :
  pandaStates sm = [] ->
  adds (foreign ext) self (update_events_checks EVENTS CP tg fp sm CS self).
Proof.
  intros Hnil.
  destruct (update_events_checks_split self) as (before & H1 & H2).
  rewrite Hnil in H2. cbn [events_pandas] in H2.
  eapply adds_trans; eassumption.
Qed.

Lemma update_events_checks_threshold (self : Controls) :
  pandaStates sm <> [] ->
  200 <= mismatch_counter self ->
  EventName.controlsMismatch
    ∈ events (update_events_checks EVENTS CP tg fp sm CS self).
Proof.
  intros Hne Hc.
  destruct (update_events_checks_split self) as (before & H1 & H2).
  eapply adds_elem; [exact H2 |].
  apply events_pandas_threshold; [done |].
  destruct H1 as [(_ & _ & _ & _ & _ & -> & _) _]. exact Hc.
Qed.

(** The part of [update_events] before the two early returns. *)
Lemma update_events_prefix (self : Controls) :
  exists x,
    adds (foreign (option_list (startup_event self))) (Events_clear self) x
    /\ update_events EVENTS CP tg fp sm CS self
       = if negb (initialized x) then
           Events_add EventName.controlsInitializing x
         else if passive CP then x
         else update_events_checks EVENTS CP tg fp sm CS x.
Proof.
  unfold update_events. cbv zeta. eexists. split; [| reflexivity].
  destruct (joystick_mode tg).
  - cbn [startup_event set_startup_event]. adds_structure.
  - destruct (startup_event (Events_clear self)) as [e |] eqn:He;
      [| apply adds_refl].
    apply adds_set_startup_event, adds_Events_add; [apply adds_refl |].
    intros _. cbn in He. rewrite He. cbn. now left.
Qed.

(** With no panda, every [controlsMismatch] in the aggregated events was
    handed in: as a static event, as the startup event, or in the
    driver-monitoring or car message. *)
Lemma update_events_no_pandas (self : Controls) :
  pandaStates sm = [] ->
  EventName.controlsMismatch
    ∈ events (update_events EVENTS CP tg fp sm CS self) ->
  EventName.controlsMismatch ∈ static_events self
  \/ EventName.controlsMismatch
       ∈ option_list (startup_event self) ++ ext.
Proof.
  intros Hnil.
  destruct (update_events_prefix self) as (x & Hx & ->).
  intros Hin.
  assert (Hx' : adds (foreign (option_list (startup_event self) ++ ext))
                  (Events_clear self) x).
  { eapply adds_weaken; [| exact Hx]. intros e He Heq.
    apply elem_of_app. left. now apply He. }
  assert (Hall : adds (foreign (option_list (startup_event self) ++ ext))
                   (Events_clear self)
                   (if negb (initialized x) then
                      Events_add EventName.controlsInitializing x
                    else if passive CP then x
                    else update_events_checks EVENTS CP tg fp sm CS x)).
  { destruct (negb (initialized x)); [adds_structure; exact Hx' |].
    destruct (passive CP); [exact Hx' |].
    eapply adds_trans; [exact Hx' |].
    eapply adds_weaken; [| now apply update_events_checks_no_pandas].
    intros e He Heq. apply elem_of_app. right. now apply He. }
  destruct (adds_new _ _ _ _ Hall Hin) as [Hs | Hf]; [now left | right].
  now apply Hf.
Qed.

(** C10. With an empty list of panda states, [update_events] adds no
    [controlsMismatch], however large the mismatch counter is: when none
    is handed in (static events, startup event, driver-monitoring and car
    messages), the aggregated event set holds none. *)
Theorem no_pandas_no_mismatch (self : Controls) (counter : Z) :
  pandaStates sm = [] ->
  EventName.controlsMismatch ∉ static_events self ->
  startup_event self <> Some EventName.controlsMismatch ->
  EventName.controlsMismatch ∉ dm_events sm ->
  EventName.controlsMismatch ∉ cs_events CS ->
  EventName.controlsMismatch
    ∉ events (update_events EVENTS CP tg fp sm CS
                (set_mismatch_counter counter self)).
Proof.
  intros Hnil Hstatic Hstartup Hdm Hcs Hin.
  apply update_events_no_pandas in Hin as [Hin | Hin]; [| | exact Hnil].
  - exact (Hstatic Hin).
  - cbn [startup_event set_mismatch_counter] in Hin.
    apply elem_of_app in Hin as [Hin | Hin].
    + destruct (startup_event self) as [e |]; cbn in Hin.
      * apply list_elem_of_singleton in Hin. now subst.
      * now apply elem_of_nil in Hin.
    + apply elem_of_app in Hin as [Hin | Hin]; [exact (Hdm Hin) |].
      exact (Hcs Hin).
Qed.

Lemma update_events_threshold (self : Controls) :
  initialized self = true ->
  passive CP = false ->
  pandaStates sm <> [] ->
  200 <= mismatch_counter self ->
  EventName.controlsMismatch
    ∈ events (update_events EVENTS CP tg fp sm CS self).
Proof.
  intros Hinit Hpassive Hne Hc.
  destruct (update_events_prefix self) as (x & [Hk _] & ->).
  destruct Hk as (Hi & _ & _ & _ & _ & Hm & _).
  cbn in Hi, Hm. rewrite Hi, Hinit, Hpassive. cbn [negb].
  apply update_events_checks_threshold; [done | now rewrite Hm].
Qed.

Lemma update_events_keeps (self : Controls) :
  keeps self (update_events EVENTS CP tg fp sm CS self).
Proof.
  destruct (update_events_prefix self) as (x & [Hk _] & ->).
  eapply keeps_trans; [| eapply keeps_trans; [exact Hk |]].
  - repeat split.
  - destruct (negb (initialized x)); [repeat split |].
    destruct (passive CP); [apply keeps_refl |].
    apply update_events_checks_adds.
Qed.

End Pieces.
End Aggregation.

(** ** The loop *)

Section Loop.

Variable EVENTS : EventName -> list ET.t.
Variable CP : CarParams.

(** Some panda outside the ignored safety modes does not allow controls. *)
Lemma controls_not_allowed_spec (sm : SubMaster) :
  controls_not_allowed sm = true
  <-> exists ps, (ps ∈ pandaStates sm)
        /\ (safetyModel ps ∉ IGNORED_SAFETY_MODES)
        /\ controlsAllowed ps = false.
Proof.
  unfold controls_not_allowed. rewrite existsb_exists. split.
  - intros (ps & Hin & Hps). exists ps.
    apply list_elem_of_In, list_elem_of_filter in Hin as [Hm Hin].
    repeat split; [done | done |]. now apply negb_true_iff.
  - intros (ps & Hin & Hm & Hps). exists ps. split.
    + apply list_elem_of_In, list_elem_of_filter. now split.
    + now rewrite Hps.
Qed.

(** What [data_sample] does to the fields of the state machine. *)
Lemma data_sample_fields (CS : CarState) (sm : SubMaster) (self : Controls) :
  let self' := data_sample CP CS sm self in
  enabled self' = enabled self
  /\ soft_disable_timer self' = soft_disable_timer self
  /\ (initialized self = true ->
      initialized self' = true /\ state self' = state self)
  /\ mismatch_counter self'
     = if enabled self then
         if controls_not_allowed sm then mismatch_counter self + 1
         else mismatch_counter self
       else 0.
Proof.
  cbv zeta. unfold data_sample, set_initial_state. cbv zeta.
  destruct (initialized self) eqn:Hi; cbn [negb].
  - destruct (enabled self) eqn:He; cbn [negb enabled set_mismatch_counter];
      rewrite ?He; cbn [andb];
      destruct (controls_not_allowed sm); cbn; rewrite ?Hi, ?He; auto.
  - repeat match goal with
      | |- context [if ?b then _ else _] =>
          lazymatch b with
          | context [if _ then _ else _] => fail
          | _ => let E := fresh "E" in destruct b eqn:E
          end;
          cbn [negb andb enabled soft_disable_timer mismatch_counter
               initialized state set_mismatch_counter set_initialized
               set_state] in *
      end;
      repeat split; intros; congruence.
Qed.

(** C7. In a cycle that starts with the system not engaged,
    [data_sample] leaves the mismatch counter at 0 whatever it was; in a
    cycle that starts engaged with some panda whose safety model is
    neither [silent] nor [noOutput] reporting controls not allowed, it
    leaves the counter one higher. *)
Theorem mismatch_counter_update (CS : CarState) (sm : SubMaster)
  (self : Controls) :
  (enabled self = false ->
   mismatch_counter (data_sample CP CS sm self) = 0)
  /\ (enabled self = true ->
      (exists ps, (ps ∈ pandaStates sm)
         /\ (safetyModel ps ∉ IGNORED_SAFETY_MODES)
         /\ controlsAllowed ps = false) ->
      mismatch_counter (data_sample CP CS sm self) = mismatch_counter self + 1).
Proof.
  destruct (data_sample_fields CS sm self) as (_ & _ & _ & ->).
  split.
  - now intros ->.
  - intros -> Hps. apply controls_not_allowed_spec in Hps. now rewrite Hps.
Qed.

(** What holds of [self] between two cycles. *)
Local Abbreviation between_cycles self :=
  (0 <= soft_disable_timer self
   /\ (enabled self = true -> initialized self = true /\ passive CP = false)).

Lemma step_events (cy : Cycle) (self : Controls) :
  events (step EVENTS CP cy self)
  = events (update_events EVENTS CP (cy_toggles cy) (cy_frog cy) (cy_sm cy)
              (cy_CS cy) (data_sample CP (cy_CS cy) (cy_sm cy) self))
    ++ cy_late_events cy.
Proof.
  unfold step. cbv zeta.
  cbn [events set_CS_prev Events_add_from_msg set_events]. f_equal.
  destruct (negb (passive CP) && initialized _); [| reflexivity].
  apply transition_events.
Qed.

Lemma step_between_cycles (cy : Cycle) (self : Controls) :
  between_cycles self -> between_cycles (step EVENTS CP cy self).
Proof.
  intros [Htimer Hinv]. unfold step. cbv zeta.
  set (sampled := data_sample CP (cy_CS cy) (cy_sm cy) self).
  set (updated := update_events EVENTS CP _ _ _ _ sampled).
  destruct (data_sample_fields (cy_CS cy) (cy_sm cy) self)
    as (He & Ht & Hi & _). fold sampled in He, Ht, Hi.
  pose proof (update_events_keeps EVENTS CP (cy_toggles cy) (cy_frog cy)
                (cy_sm cy) (cy_CS cy) sampled)
    as (Hi' & _ & He' & _ & Ht' & _). fold updated in Hi', He', Ht'.
  cbn [soft_disable_timer enabled initialized set_CS_prev
       Events_add_from_msg set_events].
  destruct (negb (passive CP) && initialized updated) eqn:Hrun.
  - apply andb_true_iff in Hrun as [Hp Hu]. apply negb_true_iff in Hp.
    split; [apply transition_timer_nonneg |]. intros _. split; [| exact Hp].
    revert Hu. unfold state_transition, alert_append. cbv zeta.
    repeat match goal with
      | |- context [if ?b then _ else _] => destruct b
      end; unfold transition_dispatch, transition_engaged,
             transition_disabled, alert_append;
      repeat match goal with
        | |- context [if ?b then _ else _] => destruct b
        end; cbn; auto.
  - split; [lia |]. rewrite He', He, Hi'. intros Hen.
    destruct (Hinv Hen) as [Hinit Hp]. split; [| exact Hp].
    now apply Hi.
Qed.

Lemma run_between_cycles (cycles : list Cycle) (self : Controls) :
  between_cycles self -> between_cycles (run EVENTS CP cycles self).
Proof.
  revert self. induction cycles as [| cy rest IH]; intros self H;
    cbn [run]; [exact H |].
  apply IH, step_between_cycles, H.
Qed.

Lemma init_between_cycles (sounds_available car_recognized : bool)
  (startup : option EventName) :
  between_cycles (Controls_init CP sounds_available car_recognized startup).
Proof. cbn. split; [lia | discriminate]. Qed.

(** C9. The soft-disable timer starts at 0, a re-arm sets it to a
    positive value, and after any sequence of cycles it is not negative. *)
Theorem soft_disable_timer_nonneg (sounds_available car_recognized : bool)
  (startup : option EventName) (cycles : list Cycle) :
  soft_disable_timer (Controls_init CP sounds_available car_recognized startup)
    = 0
  /\ 0 < soft_disable_ticks
  /\ 0 <= soft_disable_timer
            (run EVENTS CP cycles
               (Controls_init CP sounds_available car_recognized startup)).
Proof.
  split; [reflexivity |]. split; [reflexivity |].
  apply run_between_cycles, init_between_cycles.
Qed.

(** C6. In a cycle that starts engaged and in which [data_sample] takes
    the mismatch counter from below 200 to 200, [controlsMismatch] is in
    the event set [update_events] builds, and still is when the cycle
    ends. *)
Theorem mismatch_threshold_raises_event
  (sounds_available car_recognized : bool) (startup : option EventName)
  (cycles : list Cycle) (cy : Cycle) :
  let self :=
    run EVENTS CP cycles
      (Controls_init CP sounds_available car_recognized startup) in
  let sampled := data_sample CP (cy_CS cy) (cy_sm cy) self in
  enabled self = true ->
  mismatch_counter self < 200 ->
  200 <= mismatch_counter sampled ->
  EventName.controlsMismatch
    ∈ events (update_events EVENTS CP (cy_toggles cy) (cy_frog cy)
                (cy_sm cy) (cy_CS cy) sampled)
  /\ EventName.controlsMismatch ∈ events (step EVENTS CP cy self).
Proof.
  intros self sampled Hen Hlt Hge.
  assert (Hin : EventName.controlsMismatch
                  ∈ events (update_events EVENTS CP (cy_toggles cy)
                              (cy_frog cy) (cy_sm cy) (cy_CS cy) sampled)).
  { destruct (run_between_cycles cycles _
                (init_between_cycles sounds_available car_recognized startup))
      as [_ Hinv]. destruct (Hinv Hen) as [Hinit Hp].
    destruct (data_sample_fields (cy_CS cy) (cy_sm cy) self)
      as (_ & _ & Hi & Hc). fold sampled in Hi, Hc. fold self in Hi, Hc.
    apply update_events_threshold; [now apply Hi | exact Hp | | exact Hge].
    rewrite Hen in Hc.
    destruct (controls_not_allowed (cy_sm cy)) eqn:Hna; [| lia].
    apply controls_not_allowed_spec in Hna as (ps & Hps & _).
    intros Hnil. rewrite Hnil in Hps. now apply elem_of_nil in Hps. }
  split; [exact Hin |].
  rewrite step_events. apply elem_of_app. now left.
Qed.

End Loop.

(** ** The properties on concrete inputs *)

(** The scenarios of the state machine, run on the sample table. *)
Example scenario_soft_disable_and_recover :
  let c1 :=
    state_transition EVENTS_sample false
      (Controls_sample State.enabled 0 0 [EventName.overheat]) in
  let c2 := state_transition EVENTS_sample false (set_events [] c1) in
  (state c1, soft_disable_timer c1) = (State.softDisabling, 300)
  /\ state c2 = State.enabled.
Proof. split; reflexivity. Qed.

Example scenario_pre_enable :
  let c1 :=
    state_transition EVENTS_sample false
      (Controls_sample State.disabled 0 0
         ["buttonEnable"%string; EventName.preEnableStandstill]) in
  let c2 := state_transition EVENTS_sample false (set_events [] c1) in
  state c1 = State.preEnabled /\ state c2 = State.enabled.
Proof. split; reflexivity. Qed.

Example scenario_sanitizer :
  let r := sanitize_actuators ACTUATOR_FIELDS_sample actuators_sample in
  r.1 !! "accel"%string = Some zero
  /\ r.1 !! "steer"%string
     = Some (Float (S754_finite false 7205759403792794 (-54)))
  /\ log_field <$> r.2 = ["accel"%string].
Proof. repeat split; vm_compute; reflexivity. Qed.

(** Overriding, with a pedal press and an overheat at once. *)
Lemma disable_preempts_witness :
  state (Controls_sample State.overriding 7 0
           [EventName.pedalPressed; EventName.overheat])
    <> State.disabled
  /\ state (state_transition EVENTS_sample true
              (Controls_sample State.overriding 7 0
                 [EventName.pedalPressed; EventName.overheat]))
     = State.disabled.
Proof.
  split; [discriminate |].
  apply disable_preempts; [discriminate | left; reflexivity].
Defined.

(** C2 as stated fails: with the timer at 1 the state is [disabled] after
    the cycle, not [softDisabling]. *)
Lemma soft_disable_timer_one_counterexample :
  state Controls_last_tick = State.softDisabling
  /\ soft_disable_timer Controls_last_tick = 1
  /\ Events_contains EVENTS_sample Controls_last_tick ET.SOFT_DISABLE = true
  /\ Events_contains EVENTS_sample Controls_last_tick ET.USER_DISABLE = false
  /\ Events_contains EVENTS_sample Controls_last_tick ET.IMMEDIATE_DISABLE
     = false
  /\ state (state_transition EVENTS_sample false Controls_last_tick)
     = State.disabled
  /\ ~ (state (state_transition EVENTS_sample false Controls_last_tick)
        = State.softDisabling
        /\ soft_disable_timer
             (state_transition EVENTS_sample false Controls_last_tick)
           = 0).
Proof.
  repeat split; try reflexivity. intros [H _]. discriminate H.
Qed.

(** Two ticks left: one more cycle in [softDisabling], then [disabled]. *)
Lemma soft_disable_last_tick_witness :
  state (state_transition EVENTS_sample false
           (Controls_sample State.softDisabling 2 0 [EventName.overheat]))
    = State.softDisabling
  /\ soft_disable_timer
       (state_transition EVENTS_sample false
          (Controls_sample State.softDisabling 2 0 [EventName.overheat]))
     = 1
  /\ state (state_transition EVENTS_sample false
              (set_events [EventName.overheat]
                 (state_transition EVENTS_sample false
                    (Controls_sample State.softDisabling 2 0
                       [EventName.overheat]))))
     = State.disabled
  /\ soft_disable_timer
       (state_transition EVENTS_sample false
          (set_events [EventName.overheat]
             (state_transition EVENTS_sample false
                (Controls_sample State.softDisabling 2 0
                   [EventName.overheat]))))
     = 0.
Proof.
  refine (proj2 (soft_disable_last_tick EVENTS_sample false false
                   (Controls_sample State.softDisabling 2 0
                      [EventName.overheat])
                   [EventName.overheat] _ _ _ _ _ _ _) _);
    reflexivity.
Defined.

(** Enabled with a stale timer of 7, then an overheat. *)
Lemma soft_disabling_rearms_witness :
  state (state_transition EVENTS_sample false
           (Controls_sample State.enabled 7 0 [EventName.overheat]))
    = State.softDisabling
  /\ soft_disable_timer
       (state_transition EVENTS_sample false
          (Controls_sample State.enabled 7 0 [EventName.overheat]))
     = soft_disable_ticks
  /\ soft_disable_ticks = 300.
Proof.
  apply (proj1 (soft_disabling_rearms EVENTS_sample false
                  (Controls_sample State.enabled 7 0 [EventName.overheat])));
    [left; reflexivity | reflexivity | reflexivity | reflexivity].
Defined.

(** Disabled, with the enable button and the brake held at standstill. *)
Lemma disabled_entry_witness :
  state (state_transition EVENTS_sample false
           (Controls_sample State.disabled 0 0
              ["buttonEnable"%string; EventName.preEnableStandstill]))
    = State.preEnabled.
Proof.
  apply (proj2 (disabled_entry EVENTS_sample false
                  (Controls_sample State.disabled 0 0
                     ["buttonEnable"%string; EventName.preEnableStandstill])
                  eq_refl));
    reflexivity.
Defined.

(** The NaN acceleration of the sample command. *)
Lemma sanitize_actuators_witness :
  (sanitize_actuators ACTUATOR_FIELDS_sample actuators_sample).1
    !! "accel"%string = Some zero
  /\ "accel"%string
       ∈ log_field
           <$> (sanitize_actuators ACTUATOR_FIELDS_sample actuators_sample).2.
Proof.
  apply (proj1 (sanitize_actuators_spec ACTUATOR_FIELDS_sample
                  actuators_sample)
           "accel"%string (Float S754_nan)).
  - apply elem_of_cons. right. apply elem_of_cons. now left.
  - reflexivity.
  - reflexivity.
Defined.

(** The 200th engaged cycle against a panda that does not allow
    controls. *)
Lemma mismatch_threshold_witness :
  EventName.controlsMismatch
    ∈ events (step EVENTS_sample CarParams_sample
                (Cycle_sample [] [PandaState_sample false])
                (run EVENTS_sample CarParams_sample cycles_mismatch_199
                   Controls_boot)).
Proof.
  apply (mismatch_threshold_raises_event EVENTS_sample CarParams_sample
           true true (Some "startup"%string) cycles_mismatch_199
           (Cycle_sample [] [PandaState_sample false])).
  - vm_compute. reflexivity.
  - vm_compute. reflexivity.
  - vm_compute. discriminate.
Defined.

(** A counter of 57, not engaged and engaged. *)
Lemma mismatch_counter_update_witness :
  mismatch_counter
    (data_sample CarParams_sample CarState_sample
       (SubMaster_sample [PandaState_sample false])
       (Controls_sample State.disabled 0 57 []))
    = 0
  /\ mismatch_counter
       (data_sample CarParams_sample CarState_sample
          (SubMaster_sample [PandaState_sample false])
          (Controls_sample State.enabled 0 57 []))
     = 57 + 1.
Proof.
  split.
  - apply (proj1 (mismatch_counter_update CarParams_sample CarState_sample
                    (SubMaster_sample [PandaState_sample false])
                    (Controls_sample State.disabled 0 57 []))).
    reflexivity.
  - apply (proj2 (mismatch_counter_update CarParams_sample CarState_sample
                    (SubMaster_sample [PandaState_sample false])
                    (Controls_sample State.enabled 0 57 []))).
    + reflexivity.
    + exists (PandaState_sample false). split; [now left |]. split.
      * unfold IGNORED_SAFETY_MODES. rewrite !not_elem_of_cons.
        repeat split; [discriminate | discriminate | apply not_elem_of_nil].
      * reflexivity.
Defined.

(** Enabled with a forward-collision warning, five cycles. *)
Lemma enabled_is_stable_witness :
  state (state_transition_iter EVENTS_sample 5 false
           (Controls_sample State.enabled 0 0 [EventName.fcw]))
    = State.enabled.
Proof. apply enabled_is_stable; reflexivity. Defined.

(** No panda, a counter of 500, nothing handed in. *)
Lemma no_pandas_no_mismatch_witness :
  EventName.controlsMismatch
    ∉ events (update_events EVENTS_sample CarParams_sample Toggles_sample
                FrogPilotChecks_sample (SubMaster_sample []) CarState_sample
                (set_mismatch_counter 500
                   (Controls_sample State.enabled 0 0 []))).
Proof.
  apply no_pandas_no_mismatch;
    [reflexivity | apply not_elem_of_nil | discriminate
    | apply not_elem_of_nil | apply not_elem_of_nil].
Defined.

(** * Further properties *)

(** ** More on the engagement state machine *)

Section Engagement.

Variable EVENTS : EventName -> list ET.t.

Local Abbreviation has := (Events_contains EVENTS).
Local Abbreviation next := (state_transition EVENTS).

(** Unfolds a whole transition down to the tests on the state, the events
    and the timer. *)
Ltac open_transition :=
  unfold state_transition, transition_dispatch, transition_engaged,
    transition_disabled, contains_override, alert_append, Events_contains
    in *;
  cbv zeta.

Ltac fields :=
  cbn [state soft_disable_timer events enabled active current_alert_types
       set_state set_soft_disable_timer set_current_alert_types
       set_enabled set_active] in *.

(** Splits on the tests, the ones on the state by its value. *)
Ltac tests :=
  repeat match goal with
    | |- context [bool_decide ?P] =>
        let n := fresh "n" in
        destruct (bool_decide_reflect P) as [? | n];
        try congruence; try (exfalso; apply n; congruence)
    | |- context [if ?b then _ else _] =>
        let E := fresh "E" in destruct b eqn:E
    end;
  fields.

(** [state_transition] ends by computing the flags from the state. *)
Lemma transition_flags_eq (aol : bool) (self : Controls) :
  enabled (next aol self)
    = bool_decide (state (next aol self) ∈ ENABLED_STATES)
  /\ active (next aol self)
     = bool_decide (state (next aol self) ∈ ACTIVE_STATES).
Proof.
  unfold state_transition, alert_append. cbv zeta.
  destruct aol; cbn [active set_active];
    match goal with |- context [if ?b then _ else _] => destruct b eqn:E end;
    (split; [reflexivity | symmetry; exact E]).
Qed.

(** X1. The flags after a transition are those of the state reached:
    [enabled] in every state but [disabled], [active] in [enabled],
    [softDisabling] and [overriding]; so [active] implies [enabled]. *)
Theorem transition_flags (aol : bool) (self : Controls) :
  (enabled (next aol self) = true <-> state (next aol self) <> State.disabled)
  /\ (active (next aol self) = true
      <-> state (next aol self) = State.enabled
          \/ state (next aol self) = State.softDisabling
          \/ state (next aol self) = State.overriding)
  /\ (active (next aol self) = true -> enabled (next aol self) = true).
Proof.
  destruct (transition_flags_eq aol self) as [-> ->].
  rewrite !bool_decide_eq_true.
  unfold ENABLED_STATES, ACTIVE_STATES.
  destruct (state (next aol self));
    rewrite ?elem_of_cons, ?elem_of_nil; repeat split; intros;
    try congruence; try tauto; intuition congruence.
Qed.

(** X2. A transition ends in [disabled] from another state only on a user or
    immediate disable, or when the soft-disable condition outlasts the
    timer. *)
Theorem hard_disable_causes (aol : bool) (self : Controls) :
  state self <> State.disabled ->
  state (next aol self) = State.disabled ->
  has self ET.USER_DISABLE = true
  \/ has self ET.IMMEDIATE_DISABLE = true
  \/ (state self = State.softDisabling
      /\ has self ET.SOFT_DISABLE = true
      /\ soft_disable_timer self <= 1).
Proof.
  intros Hs.
  destruct (transition_after_dispatch EVENTS aol self) as (-> & _ & _).
  open_transition. fields.
  destruct (state self) eqn:Hst; try congruence; tests; intros;
    try congruence; auto.
  right. right. repeat split; trivial.
  - now apply negb_false_iff.
  - apply Z.ltb_ge in E2. lia.
Qed.

(** X3. The edges of the state machine: [softDisabling] is entered only from
    [enabled] or [overriding], [preEnabled] only from [disabled], and
    [overriding] only from [disabled] or [enabled]. *)
Theorem transition_graph (aol : bool) (self : Controls) :
  (state (next aol self) = State.softDisabling ->
   state self = State.enabled \/ state self = State.overriding
   \/ state self = State.softDisabling)
  /\ (state (next aol self) = State.preEnabled ->
      state self = State.disabled \/ state self = State.preEnabled)
  /\ (state (next aol self) = State.overriding ->
      state self = State.disabled \/ state self = State.enabled
      \/ state self = State.overriding).
Proof.
  destruct (transition_after_dispatch EVENTS aol self) as (-> & _ & _).
  open_transition. fields.
  destruct (state self) eqn:Hst; tests; repeat split; intros;
    try congruence; auto.
Qed.

(** X4. Unless the transition enters [softDisabling] from another state, it
    leaves the timer one lower, and never below 0. *)
Theorem timer_counts_down (aol : bool) (self : Controls) :
  state self = State.softDisabling
  \/ state (next aol self) <> State.softDisabling ->
  soft_disable_timer (next aol self) = Z.max 0 (soft_disable_timer self - 1).
Proof.
  destruct (transition_after_dispatch EVENTS aol self) as (-> & -> & _).
  open_transition. fields.
  destruct (state self) eqn:Hst; tests; intros [H | H];
    try congruence; try reflexivity.
Qed.

(** X5. In [softDisabling], once the soft-disable condition is gone and no
    disable event is present, the state is [enabled] again, whatever the
    timer shows, and the timer is not reset. *)
Theorem soft_disabling_recovers (aol : bool) (self : Controls) :
  state self = State.softDisabling ->
  has self ET.SOFT_DISABLE = false ->
  has self ET.USER_DISABLE = false ->
  has self ET.IMMEDIATE_DISABLE = false ->
  state (next aol self) = State.enabled
  /\ soft_disable_timer (next aol self)
     = Z.max 0 (soft_disable_timer self - 1).
Proof.
  intros Hs Hsd Hud Hid.
  destruct (transition_after_dispatch EVENTS aol self) as (-> & -> & _).
  open_transition. fields. rewrite Hs, Hsd, Hud, Hid. cbn [negb].
  tests; auto.
Qed.

(** One cycle in [preEnabled] without a disable event: the state follows
    the pre-enable condition alone. *)
Lemma pre_enabled_step (aol : bool) (self : Controls) :
  state self = State.preEnabled ->
  has self ET.USER_DISABLE = false ->
  has self ET.IMMEDIATE_DISABLE = false ->
  state (next aol self)
  = if has self ET.PRE_ENABLE then State.preEnabled else State.enabled.
Proof.
  intros Hs Hud Hid.
  destruct (transition_after_dispatch EVENTS aol self) as (-> & _ & _).
  open_transition. fields. rewrite Hs, Hud, Hid.
  destruct (existsb (has_type EVENTS ET.PRE_ENABLE) (events self));
    cbn [negb]; tests; auto.
Qed.

(** X6. [preEnabled] holds for as long as the pre-enable condition does:
    soft-disable and override events do not move it. *)
Theorem pre_enabled_waits (n : nat) (aol : bool) (self : Controls) :
  state self = State.preEnabled ->
  has self ET.PRE_ENABLE = true ->
  has self ET.USER_DISABLE = false ->
  has self ET.IMMEDIATE_DISABLE = false ->
  state (state_transition_iter EVENTS n aol self) = State.preEnabled.
Proof.
  revert self. induction n as [| n IH]; intros self Hs Hpre Hud Hid.
  - exact Hs.
  - cbn [state_transition_iter].
    apply IH; rewrite ?transition_contains; trivial.
    rewrite (pre_enabled_step aol self Hs Hud Hid). now rewrite Hpre.
Qed.


(** The last transition of [n + 1] is applied to the result of [n]. *)
Lemma state_transition_iter_last (n : nat) (aol : bool) (self : Controls) :
  state_transition_iter EVENTS (S n) aol self
  = next aol (state_transition_iter EVENTS n aol self).
Proof.
  revert self. induction n as [| n IH]; intros self; [reflexivity |].
  change (state_transition_iter EVENTS (S (S n)) aol self)
    with (state_transition_iter EVENTS (S n) aol (next aol self)).
  now rewrite IH.
Qed.

Lemma iter_contains (n : nat) (aol : bool) (self : Controls) (t : ET.t) :
  has (state_transition_iter EVENTS n aol self) t = has self t.
Proof.
  revert self. induction n as [| n IH]; intros self; [reflexivity |].
  cbn [state_transition_iter]. now rewrite IH, transition_contains.
Qed.

(** While the soft-disable condition lasts, [softDisabling] counts the
    timer down, one tick per cycle. *)
Lemma soft_disabling_countdown (k : nat) (aol : bool) (self : Controls) :
  state self = State.softDisabling ->
  has self ET.SOFT_DISABLE = true ->
  has self ET.USER_DISABLE = false ->
  has self ET.IMMEDIATE_DISABLE = false ->
  Z.of_nat k < soft_disable_timer self ->
  state (state_transition_iter EVENTS k aol self) = State.softDisabling
  /\ soft_disable_timer (state_transition_iter EVENTS k aol self)
     = soft_disable_timer self - Z.of_nat k.
Proof.
  revert self. induction k as [| k IH]; intros self Hs Hsd Hud Hid Hk.
  - cbn [state_transition_iter]. split; [exact Hs | lia].
  - cbn [state_transition_iter].
    destruct (soft_disabling_step EVENTS aol self Hs Hsd Hud Hid)
      as [Ht Hst].
    assert (Hpos : (0 <? Z.max 0 (soft_disable_timer self - 1)) = true)
      by (apply Z.ltb_lt; lia).
    rewrite Hpos in Hst.
    destruct (IH (next aol self)) as [IHs IHt];
      rewrite ?transition_contains; trivial; [lia |].
    split; [exact IHs | lia].
Qed.

(** From [enabled], a soft-disable condition without a disable event
    starts the countdown. *)
Lemma enabled_soft_disables (aol : bool) (self : Controls) :
  state self = State.enabled ->
  has self ET.SOFT_DISABLE = true ->
  has self ET.USER_DISABLE = false ->
  has self ET.IMMEDIATE_DISABLE = false ->
  state (next aol self) = State.softDisabling
  /\ soft_disable_timer (next aol self) = 300.
Proof.
  intros Hs Hsd Hud Hid.
  destruct (transition_after_dispatch EVENTS aol self) as (-> & -> & _).
  open_transition. fields. rewrite Hs, Hsd, Hud, Hid.
  tests; split; reflexivity.
Qed.

(** X7. The grace period. From [enabled], with a soft-disable condition that
    persists and no disable event, the state is [softDisabling] after each
    of the first 300 transitions, the timer showing what is left, and
    [disabled] after the 301st. *)
Theorem soft_disable_grace (k : nat) (aol : bool) (self : Controls) :
  state self = State.enabled ->
  has self ET.SOFT_DISABLE = true ->
  has self ET.USER_DISABLE = false ->
  has self ET.IMMEDIATE_DISABLE = false ->
  ((k < 300)%nat ->
   state (state_transition_iter EVENTS (S k) aol self) = State.softDisabling
   /\ soft_disable_timer (state_transition_iter EVENTS (S k) aol self)
      = 300 - Z.of_nat k)
  /\ state (state_transition_iter EVENTS 301 aol self) = State.disabled.
Proof.
  intros Hs Hsd Hud Hid.
  destruct (enabled_soft_disables aol self Hs Hsd Hud Hid) as [Hs1 Ht1].
  assert (Hcount : forall j : nat, (j < 300)%nat ->
            state (state_transition_iter EVENTS (S j) aol self)
              = State.softDisabling
            /\ soft_disable_timer (state_transition_iter EVENTS (S j) aol self)
               = 300 - Z.of_nat j).
  { intros j Hj. cbn [state_transition_iter].
    destruct (soft_disabling_countdown j aol (next aol self)) as [Hsj Htj];
      rewrite ?transition_contains; trivial; [lia |].
    split; [exact Hsj | lia]. }
  split; [apply Hcount |].
  rewrite (state_transition_iter_last 300).
  destruct (Hcount 299%nat) as [Hs300 Ht300]; [lia |].
  pose proof (iter_contains 300 aol self) as Hc.
  revert Hs300 Ht300 Hc.
  generalize (state_transition_iter EVENTS 300 aol self).
  intros s Hs300 Ht300 Hc.
  destruct (soft_disabling_step EVENTS aol s) as [_ Hst];
    rewrite ?Hc; try assumption.
  rewrite Hst, Ht300. reflexivity.
Qed.

(** The alert types after a transition: those of the dispatch, then
    [WARNING] once for an active state and once for always-on lateral. *)
Lemma transition_alerts (aol : bool) (self : Controls) :
  current_alert_types (next aol self)
  = current_alert_types
      (transition_dispatch EVENTS
         (set_current_alert_types [ET.PERMANENT]
            (set_soft_disable_timer (Z.max 0 (soft_disable_timer self - 1))
               self)))
    ++ (if active (next aol self) then [ET.WARNING] else [])
    ++ (if aol then [ET.WARNING] else []).
Proof.
  unfold state_transition, alert_append. cbv zeta.
  cbn [active set_active state set_enabled].
  destruct aol;
    match goal with |- context [if ?b then _ else _] => destruct b end;
    cbn [current_alert_types set_current_alert_types set_active set_enabled
         active];
    rewrite <- ?app_assoc, ?app_nil_r; reflexivity.
Qed.

(** Decides a membership in a list that is written out. *)
Ltac member :=
  repeat match goal with
    | |- context [@elem_of ET.t (list ET.t) _ ?x ?l] =>
        let v := eval vm_compute in (bool_decide (x ∈ l)) in
        rewrite <- (bool_decide_eq_true (x ∈ l));
        change (bool_decide (x ∈ l)) with v
    end.

Ltac dispatch_cases :=
  open_transition; fields;
  match goal with
  | s : Controls |- _ => let Hst := fresh "Hst" in destruct (state s) eqn:Hst
  end;
  tests;
  try match goal with
    | H1 : (0 <? ?t) = false, H2 : (?t <=? 0) = false |- _ =>
        apply Z.ltb_ge in H1; apply Z.leb_gt in H2; lia
    end;
  member;
  repeat split; intros; try congruence; try tauto;
  try (intuition congruence).

Lemma dispatch_alerts_permanent (self : Controls) :
  ET.PERMANENT
    ∈ current_alert_types
        (transition_dispatch EVENTS
           (set_current_alert_types [ET.PERMANENT] self)).
Proof. dispatch_cases. Qed.

Lemma dispatch_alerts_warning (self : Controls) :
  ET.WARNING
    ∉ current_alert_types
        (transition_dispatch EVENTS
           (set_current_alert_types [ET.PERMANENT] self)).
Proof. intros H. revert H. dispatch_cases. Qed.

Lemma dispatch_alerts_enable (self : Controls) :
  ET.ENABLE
    ∈ current_alert_types
        (transition_dispatch EVENTS
           (set_current_alert_types [ET.PERMANENT] self))
  <-> state self = State.disabled
      /\ state (transition_dispatch EVENTS
                  (set_current_alert_types [ET.PERMANENT] self))
         <> State.disabled.
Proof. dispatch_cases. Qed.

Lemma dispatch_alerts_soft_disable (self : Controls) :
  ET.SOFT_DISABLE
    ∈ current_alert_types
        (transition_dispatch EVENTS
           (set_current_alert_types [ET.PERMANENT] self))
  <-> state (transition_dispatch EVENTS
               (set_current_alert_types [ET.PERMANENT] self))
      = State.softDisabling.
Proof. dispatch_cases. Qed.

Lemma dispatch_alerts_user_disable (self : Controls) :
  ET.USER_DISABLE
    ∈ current_alert_types
        (transition_dispatch EVENTS
           (set_current_alert_types [ET.PERMANENT] self))
  <-> state self <> State.disabled /\ has self ET.USER_DISABLE = true.
Proof. dispatch_cases. Qed.

Lemma dispatch_alerts_no_entry (self : Controls) :
  ET.NO_ENTRY
    ∈ current_alert_types
        (transition_dispatch EVENTS
           (set_current_alert_types [ET.PERMANENT] self))
  <-> state self = State.disabled
      /\ has self ET.ENABLE = true /\ has self ET.NO_ENTRY = true.
Proof. dispatch_cases. Qed.


(** [WARNING] is among the alert types exactly when the state reached is
    active or always-on lateral is on. *)
Lemma transition_alerts_warning (aol : bool) (self : Controls) :
  ET.WARNING ∈ current_alert_types (next aol self)
  <-> active (next aol self) = true \/ aol = true.
Proof.
  rewrite transition_alerts, elem_of_app. split.
  - intros [H | H]; [now apply dispatch_alerts_warning in H |].
    destruct (active (next aol self)); [now left |].
    destruct aol; [now right |]. now apply elem_of_nil in H.
  - intros [H | H]; right; rewrite H.
    + now left.
    + apply elem_of_app. right. now left.
Qed.

(** X8. What the alert types say about the transition that set them:
    [PERMANENT] is always there; [WARNING] is there exactly when the state
    reached is active or always-on lateral is on; [ENABLE] exactly when
    the transition left [disabled]; [SOFT_DISABLE] exactly when the state
    reached is [softDisabling]; [USER_DISABLE] exactly when a user disable
    met a state other than [disabled]; [NO_ENTRY] exactly when an enable
    request in [disabled] was refused. *)
Theorem alert_types_reflect_transition (aol : bool) (self : Controls) :
  ET.PERMANENT ∈ current_alert_types (next aol self)
  /\ (ET.WARNING ∈ current_alert_types (next aol self)
      <-> active (next aol self) = true \/ aol = true)
  /\ (ET.ENABLE ∈ current_alert_types (next aol self)
      <-> state self = State.disabled
          /\ state (next aol self) <> State.disabled)
  /\ (ET.SOFT_DISABLE ∈ current_alert_types (next aol self)
      <-> state (next aol self) = State.softDisabling)
  /\ (ET.USER_DISABLE ∈ current_alert_types (next aol self)
      <-> state self <> State.disabled /\ has self ET.USER_DISABLE = true)
  /\ (ET.NO_ENTRY ∈ current_alert_types (next aol self)
      <-> state self = State.disabled
          /\ has self ET.ENABLE = true /\ has self ET.NO_ENTRY = true).
Proof.
  assert (Hw : forall t : ET.t, t <> ET.WARNING ->
            t ∈ (if active (next aol self) then [ET.WARNING] else [])
                ++ (if aol then [ET.WARNING] else [])
            <-> False).
  { intros t Ht. destruct (active (next aol self)), aol;
      rewrite ?elem_of_app, ?elem_of_cons, ?elem_of_nil; tauto. }
  split; [| split; [apply transition_alerts_warning |]].
  - rewrite transition_alerts. apply elem_of_app. left.
    apply dispatch_alerts_permanent.
  - rewrite transition_alerts.
    destruct (transition_after_dispatch EVENTS aol self) as (-> & _ & _).
    set (decremented :=
           set_soft_disable_timer (Z.max 0 (soft_disable_timer self - 1))
             self).
    split; [| split; [| split]].
    + rewrite elem_of_app, (dispatch_alerts_enable decremented),
        (Hw ET.ENABLE) by discriminate.
      subst decremented. unfold Events_contains. fields. tauto.
    + rewrite elem_of_app, (dispatch_alerts_soft_disable decremented),
        (Hw ET.SOFT_DISABLE) by discriminate.
      tauto.
    + rewrite elem_of_app, (dispatch_alerts_user_disable decremented),
        (Hw ET.USER_DISABLE) by discriminate.
      subst decremented. unfold Events_contains. fields. tauto.
    + rewrite elem_of_app, (dispatch_alerts_no_entry decremented),
        (Hw ET.NO_ENTRY) by discriminate.
      subst decremented. unfold Events_contains. fields. tauto.
Qed.


Variable CP : CarParams.

(** X9. What [publish_logs] clears after a transition: warnings exactly when
    the state reached is not active and always-on lateral is off, entry
    refusals exactly when the state reached is not [disabled]; nothing
    else. *)
Theorem clear_event_types_after_transition (aol : bool) (self : Controls) :
  (ET.WARNING ∈ clear_event_types (next aol self)
   <-> active (next aol self) = false /\ aol = false)
  /\ (ET.NO_ENTRY ∈ clear_event_types (next aol self)
      <-> state (next aol self) <> State.disabled)
  /\ (forall t, t ∈ clear_event_types (next aol self) ->
        t = ET.WARNING \/ t = ET.NO_ENTRY).
Proof.
  unfold clear_event_types.
  pose proof (transition_alerts_warning aol self) as Hw.
  destruct (transition_flags_eq aol self) as [He _].
  assert (Hen : enabled (next aol self) = true
                <-> state (next aol self) <> State.disabled).
  { rewrite He, bool_decide_eq_true. unfold ENABLED_STATES, ACTIVE_STATES.
    destruct (state (next aol self));
      rewrite ?elem_of_cons, ?elem_of_nil; split; intros;
      try congruence; try tauto; intuition congruence. }
  clear He.
  split; [| split].
  - rewrite elem_of_app.
    destruct (bool_decide_reflect
                (ET.WARNING ∉ current_alert_types (next aol self)))
      as [Hn | Hn].
    + split.
      * intros _. rewrite Hw in Hn.
        destruct (active (next aol self)), aol; tauto.
      * intros _. left. now left.
    + split.
      * intros [H | H]; [now apply elem_of_nil in H |].
        destruct (enabled (next aol self));
          [apply list_elem_of_singleton in H; discriminate
          | now apply elem_of_nil in H].
      * intros [Ha Hb]. exfalso. apply Hn. rewrite Hw, Ha, Hb.
        intros [? | ?]; discriminate.
  - rewrite elem_of_app, <- Hen.
    destruct (bool_decide (ET.WARNING ∉ current_alert_types (next aol self))),
      (enabled (next aol self));
      rewrite ?list_elem_of_singleton, ?elem_of_nil;
      (split; [intros [H | H]; try discriminate H; try contradiction;
               reflexivity
              | intros H; try discriminate H; right; reflexivity]).
  - intros t. rewrite elem_of_app.
    destruct (bool_decide (ET.WARNING ∉ current_alert_types (next aol self))),
      (enabled (next aol self));
      rewrite ?list_elem_of_singleton, ?elem_of_nil; tauto.
Qed.

(** X10. Longitudinal control and the cruise override are never commanded
    together: the override is signalled exactly when the system is
    engaged with openpilot longitudinal control and an event of category
    [OVERRIDE_LONGITUDINAL] is present, and that is when [longActive] is
    withheld. *)
Theorem long_active_or_override (self : Controls) :
  (cruiseControl_override CP (CC_longActive EVENTS CP self) self = true
   <-> enabled self = true
       /\ openpilotLongitudinalControl CP = true
       /\ has self ET.OVERRIDE_LONGITUDINAL = true)
  /\ (CC_longActive EVENTS CP self = true ->
      cruiseControl_override CP (CC_longActive EVENTS CP self) self = false)
  /\ (enabled self = true -> openpilotLongitudinalControl CP = true ->
      CC_longActive EVENTS CP self
      = negb (cruiseControl_override CP (CC_longActive EVENTS CP self) self)).
Proof.
  unfold cruiseControl_override, CC_longActive.
  destruct (enabled self), (openpilotLongitudinalControl CP),
    (has self ET.OVERRIDE_LONGITUDINAL); cbn; repeat split; intros;
    try discriminate; try tauto; intuition discriminate.
Qed.

End Engagement.


(** ** The personality button *)

Section PersonalityButton.

Variable CP : CarParams.

(** A cycle whose tests let the decrement through. *)
Local Abbreviation decrements CS pm self :=
  ((gap_adjust_released CS || onroad_distance_pressed self)
   && negb (DistanceLongPressed pm || OnroadDistanceButtonPressed pm)).

(** One cycle of the button, by cases. *)
Lemma update_personality_cases (CS : CarState) (pm : DistanceParams)
  (self : Personality) :
  openpilotLongitudinalControl CP = true ->
  personality (update_personality CP CS pm self)
  = (if decrements CS pm self then (personality self - 1) mod 3
     else personality self)
  /\ onroad_distance_pressed (update_personality CP CS pm self)
     = OnroadDistanceButtonPressed_stored pm.
Proof.
  intros Hlong. unfold update_personality. rewrite Hlong. cbv zeta.
  destruct (gap_adjust_released CS || onroad_distance_pressed self);
    cbn [andb];
    destruct (negb (DistanceLongPressed pm || OnroadDistanceButtonPressed pm));
    split; reflexivity.
Qed.

(** X11. Whatever the personality parameter held, a decrement leaves a
    personality of 0, 1 or 2, and a personality in that range stays in it;
    without openpilot longitudinal control the button does nothing. *)
Theorem personality_range (CS : CarState) (pm : DistanceParams)
  (self : Personality) :
  (openpilotLongitudinalControl CP = true ->
   decrements CS pm self = true ->
   0 <= personality (update_personality CP CS pm self) < 3)
  /\ (0 <= personality self < 3 ->
      0 <= personality (update_personality CP CS pm self) < 3)
  /\ (openpilotLongitudinalControl CP = false ->
      update_personality CP CS pm self = self).
Proof.
  split; [| split].
  - intros Hlong Hdec.
    destruct (update_personality_cases CS pm self Hlong) as [-> _].
    rewrite Hdec. apply Z.mod_pos_bound. lia.
  - intros Hrange. destruct (openpilotLongitudinalControl CP) eqn:Hlong.
    + destruct (update_personality_cases CS pm self Hlong) as [-> _].
      destruct (decrements CS pm self); [| exact Hrange].
      apply Z.mod_pos_bound. lia.
    + unfold update_personality. now rewrite Hlong.
  - intros Hlong. unfold update_personality. now rewrite Hlong.
Qed.

(** X12. Three decrements in a row bring the personality back to its value
    modulo 3, so to itself when it is 0, 1 or 2. *)
Theorem personality_three_presses (c1 c2 c3 : CarState * DistanceParams)
  (self : Personality) :
  openpilotLongitudinalControl CP = true ->
  gap_adjust_released c1.1 = true -> gap_adjust_released c2.1 = true ->
  gap_adjust_released c3.1 = true ->
  DistanceLongPressed c1.2 || OnroadDistanceButtonPressed c1.2 = false ->
  DistanceLongPressed c2.2 || OnroadDistanceButtonPressed c2.2 = false ->
  DistanceLongPressed c3.2 || OnroadDistanceButtonPressed c3.2 = false ->
  personality (run_personality CP [c1; c2; c3] self)
  = personality self mod 3
  /\ (0 <= personality self < 3 ->
      personality (run_personality CP [c1; c2; c3] self) = personality self).
Proof.
  destruct c1 as [CS1 pm1], c2 as [CS2 pm2], c3 as [CS3 pm3]. cbn [fst snd].
  intros Hlong H1 H2 H3 Hp1 Hp2 Hp3. cbn [run_personality].
  set (s1 := update_personality CP CS1 pm1 self).
  set (s2 := update_personality CP CS2 pm2 s1).
  destruct (update_personality_cases CS3 pm3 s2 Hlong) as [-> _].
  destruct (update_personality_cases CS2 pm2 s1 Hlong) as [E2 _].
  destruct (update_personality_cases CS1 pm1 self Hlong) as [E1 _].
  fold s1 in E1. fold s2 in E2.
  rewrite H1, Hp1 in E1. rewrite H2, Hp2 in E2. rewrite H3, Hp3.
  cbn [orb andb negb] in *. rewrite E2, E1.
  assert (Hmod : ((((personality self - 1) mod 3 - 1) mod 3 - 1) mod 3
                  = personality self mod 3)).
  { assert (Htwo : ((personality self - 1) mod 3 - 1) mod 3
                    = (personality self - 2) mod 3)
      by (rewrite Zminus_mod_idemp_l; f_equal; lia).
    rewrite Htwo, Zminus_mod_idemp_l.
    replace (personality self - 2 - 1) with (personality self + (-1) * 3)
      by lia.
    apply Z_mod_plus_full. }
  split; [exact Hmod |].
  intros Hrange. rewrite Hmod. now apply Z.mod_small.
Qed.

(** X13. Holding the onroad distance button for any number of cycles and
    releasing it decrements the personality once, on the release. *)
Theorem onroad_button_release (n : nat) (self : Personality) :
  openpilotLongitudinalControl CP = true ->
  onroad_distance_pressed self = false ->
  personality (run_personality CP (replicate (S n) (onroad_cycle true)) self)
  = personality self
  /\ personality
       (run_personality CP
          (replicate (S n) (onroad_cycle true) ++ [onroad_cycle false]) self)
     = (personality self - 1) mod 3
  /\ personality
       (run_personality CP
          (replicate (S n) (onroad_cycle true)
             ++ [onroad_cycle false; onroad_cycle false]) self)
     = (personality self - 1) mod 3.
Proof.
  intros Hlong Hoff.
  assert (Hheld : forall (m : nat) (s : Personality),
            personality (run_personality CP (replicate m (onroad_cycle true)) s)
              = personality s
            /\ (m <> 0%nat ->
                onroad_distance_pressed
                  (run_personality CP (replicate m (onroad_cycle true)) s)
                = true)).
  { unfold onroad_cycle.
    induction m as [| m IH]; intros s; [now split |].
    cbn [replicate run_personality].
    destruct (update_personality_cases CarState_new_message
                {| DistanceLongPressed := false;
                   OnroadDistanceButtonPressed := true;
                   OnroadDistanceButtonPressed_stored := true |} s Hlong)
      as [Ep Eo].
    cbn in Ep, Eo. rewrite andb_false_r in Ep.
    destruct (IH (update_personality CP CarState_new_message
                    {| DistanceLongPressed := false;
                       OnroadDistanceButtonPressed := true;
                       OnroadDistanceButtonPressed_stored := true |} s))
      as [IHp IHo].
    split.
    - now rewrite IHp.
    - intros _. destruct m as [| m]; [exact Eo |]. now apply IHo. }
  assert (Happ : forall l1 l2 s,
            run_personality CP (l1 ++ l2) s
            = run_personality CP l2 (run_personality CP l1 s)).
  { induction l1 as [| [CS pm] l1 IH]; intros l2 s; [reflexivity |].
    cbn [app run_personality]. apply IH. }
  destruct (Hheld (S n) self) as [Hp Ho]. specialize (Ho ltac:(discriminate)).
  split; [exact Hp |].
  rewrite !Happ.
  set (held := run_personality CP (replicate (S n) (onroad_cycle true)) self)
    in *.
  clearbody held.
  cbn [run_personality onroad_cycle].
  set (released := update_personality CP CarState_new_message _ held).
  destruct (update_personality_cases CarState_new_message
              {| DistanceLongPressed := false;
                 OnroadDistanceButtonPressed := false;
                 OnroadDistanceButtonPressed_stored := false |} held Hlong)
    as [Ep Eo].
  fold released in Ep, Eo. clearbody released.
  rewrite Ho in Ep. cbn in Ep, Eo.
  rewrite Hp in Ep.
  split; [exact Ep |].
  destruct (update_personality_cases CarState_new_message
              {| DistanceLongPressed := false;
                 OnroadDistanceButtonPressed := false;
                 OnroadDistanceButtonPressed_stored := false |} released Hlong)
    as [Ep' _].
  rewrite Eo in Ep'. cbn in Ep'. now rewrite Ep'.
Qed.

End PersonalityButton.


(** ** More on the event aggregation *)

Section Writes.

Variable EVENTS : EventName -> list ET.t.
Variable CP : CarParams.

Lemma writes_refl (P : EventName -> Prop) (self : Controls) :
  writes P self self.
Proof. split; [apply adds_refl | split; reflexivity]. Qed.

Lemma writes_trans (P : EventName -> Prop) (a b c : Controls) :
  writes P a b -> writes P b c -> writes P a c.
Proof.
  intros (H1 & S1 & A1) (H2 & S2 & A2).
  split; [eapply adds_trans; eassumption | split; congruence].
Qed.

Lemma writes_weaken (P Q : EventName -> Prop) (a b : Controls) :
  (forall e, P e -> Q e) -> writes P a b -> writes Q a b.
Proof.
  intros HPQ (H & S & A). split; [| now split].
  eapply adds_weaken; eassumption.
Qed.

Lemma writes_keeps (P : EventName -> Prop) (a b : Controls) :
  writes P a b -> keeps a b.
Proof. now intros ([H _] & _). Qed.

(** What was there stays. *)
Lemma writes_elem (P : EventName -> Prop) (a b : Controls) (e : EventName) :
  writes P a b -> e ∈ events a -> e ∈ events b.
Proof. intros (H & _). now apply (adds_elem P). Qed.

(** What is there was there, or satisfies [P]. *)
Lemma writes_new (P : EventName -> Prop) (a b : Controls) (e : EventName) :
  writes P a b -> e ∈ events b -> e ∈ events a \/ P e.
Proof. intros (H & _). now apply adds_new. Qed.

(** A part that adds no [n] leaves the presence of [n] as it was. *)
Lemma writes_other (n : EventName) (a b : Controls) :
  writes (fun e => e <> n) a b -> (n ∈ events b <-> n ∈ events a).
Proof.
  intros H. split.
  - intros Hin. destruct (writes_new _ _ _ _ H Hin) as [? | Hne]; [done |].
    now destruct Hne.
  - now apply (writes_elem _ _ _ _ H).
Qed.

Lemma writes_Events_add P (self x : Controls) (n : EventName) :
  writes P self x -> P n -> writes P self (Events_add n x).
Proof.
  intros H Hn. eapply writes_trans; [exact H |].
  split; [| split; reflexivity].
  apply adds_Events_add; [apply adds_refl | exact Hn].
Qed.

Lemma writes_Events_add_from_msg P (self x : Controls) (l : list EventName) :
  writes P self x -> Forall P l -> writes P self (Events_add_from_msg l x).
Proof.
  intros H Hl. eapply writes_trans; [exact H |].
  split; [| split; reflexivity].
  apply adds_Events_add_from_msg; [apply adds_refl | exact Hl].
Qed.

Lemma writes_add_if P (self x : Controls) (b : bool) (n : EventName) :
  writes P self x -> (b = true -> P n) -> writes P self (add_if b n x).
Proof.
  intros H Hn. destruct b; cbn; [| exact H].
  apply writes_Events_add; auto.
Qed.

Lemma writes_set_cruise_mismatch_counter P (self x : Controls) v :
  writes P self x -> writes P self (set_cruise_mismatch_counter v x).
Proof.
  intros H. eapply writes_trans; [exact H |].
  split; [| split; reflexivity].
  apply adds_set_cruise_mismatch_counter, adds_refl.
Qed.

Lemma writes_set_fcw_random_event_triggered P (self x : Controls) v :
  writes P self x -> writes P self (set_fcw_random_event_triggered v x).
Proof.
  intros H. eapply writes_trans; [exact H |].
  split; [| split; reflexivity].
  apply adds_set_fcw_random_event_triggered, adds_refl.
Qed.

Lemma writes_let P (self a : Controls) (f : Controls -> Controls) :
  writes P self a -> (forall x, writes P x (f x)) -> writes P self (f a).
Proof. intros H Hf. eapply writes_trans; [exact H | apply Hf]. Qed.

(** The obligation for an event that is added: it is given, or it is
    another name than the one the predicate is about, or the test that
    guards it is what the predicate asks for. *)
Ltac added_event :=
  first
    [ eassumption
    | exact I
    | let H := fresh in intros H; vm_compute in H; discriminate H
    | intros; first [eassumption | reflexivity]
    | intros; split; first [eassumption | reflexivity] ].

(** Follows the structure of a part of [update_events]: sequencing, tests
    (remembered), and the writes above. *)
Ltac writes_structure :=
  repeat first
    [ apply writes_refl
    | lazymatch goal with
      | |- writes ?P ?s (let x := ?a in @?f x) =>
          lazymatch type of a with
          | Controls =>
              change (writes P s (f a)); cbv beta;
              apply (writes_let P s a f); [| intros ?]
          | _ =>
              let y := fresh "v" in
              change (writes P s (f a)); cbv beta;
              generalize a; intros y
          end
      | |- writes _ _ (if ?b then _ else _) =>
          let E := fresh "E" in destruct b eqn:E
      | |- writes _ _ (match ?o with Some _ => _ | None => _ end) =>
          destruct o
      | |- writes _ _ (Events_add _ _) =>
          apply writes_Events_add; [| added_event]
      | |- writes _ _ (add_if _ _ _) =>
          apply writes_add_if; [| intros ?; added_event]
      | |- writes _ _ (Events_add_from_msg _ _) =>
          apply writes_Events_add_from_msg; [| try eassumption]
      | |- writes _ _ (set_cruise_mismatch_counter _ _) =>
          apply writes_set_cruise_mismatch_counter
      | |- writes _ _ (set_fcw_random_event_triggered _ _) =>
          apply writes_set_fcw_random_event_triggered
      end ].

(** Takes [Forall P [n1; ...; nk]] apart. *)
Ltac names_given H :=
  repeat match type of H with
    | Forall _ (_ :: _) =>
        let Hn := fresh "Hn" in
        apply Forall_cons in H as [Hn H]
    end.

Section Parts.

Variables (tg : Toggles) (fp : FrogPilotChecks) (sm : SubMaster)
  (CS : CarState).
Variable P : EventName -> Prop.

Lemma events_driver_writes (self : Controls) :
  Forall P names_driver ->
  (notCar CP = false -> Forall P (dm_events sm)) ->
  (canValid CS = true -> Forall P (cs_events CS)) ->
  writes P self (events_driver CP tg sm CS self).
Proof.
  intros HP Hdm Hcs. unfold names_driver in HP. names_given HP.
  unfold events_driver. writes_structure.
  all: first
         [ apply Hcs; first [reflexivity | assumption]
         | apply Hdm; apply negb_true_iff; assumption ].
Qed.

Lemma events_device_writes (self : Controls) :
  Forall P names_device -> writes P self (events_device CP tg sm self).
Proof.
  intros HP. unfold names_device in HP. names_given HP.
  unfold events_device. writes_structure.
Qed.

Lemma events_calibration_writes (self : Controls) :
  Forall P names_calibration -> writes P self (events_calibration sm self).
Proof.
  intros HP. unfold names_calibration in HP. names_given HP.
  unfold events_calibration. writes_structure.
Qed.

Lemma events_lane_change_writes (self : Controls) :
  Forall P names_lane_change ->
  writes P self (events_lane_change tg sm CS self).
Proof.
  intros HP. unfold names_lane_change in HP. names_given HP.
  unfold events_lane_change. writes_structure.
Qed.

Lemma events_pandas_writes (i : nat) (states : list PandaState)
  (self : Controls) :
  Forall P names_pandas -> writes P self (events_pandas CP sm i states self).
Proof.
  intros HP. unfold names_pandas in HP. names_given HP.
  revert i self. induction states as [| ps rest IH]; intros i self;
    cbn [events_pandas]; [apply writes_refl |].
  cbv zeta. eapply writes_trans; [| apply IH]. writes_structure.
Qed.

Lemma events_system_writes (self : Controls) :
  Forall P names_system -> writes P self (events_system EVENTS CP sm CS self).
Proof.
  intros HP. unfold names_system in HP. names_given HP.
  unfold events_system. writes_structure.
Qed.

Lemma events_localization_writes (self : Controls) :
  Forall P names_localization ->
  writes P self (events_localization CP tg sm self).
Proof.
  intros HP. unfold names_localization in HP. names_given HP.
  unfold events_localization. writes_structure.
Qed.

Lemma events_cruise_mismatch_writes (self : Controls) :
  Forall P names_cruise_mismatch ->
  writes P self (events_cruise_mismatch CP CS self).
Proof.
  intros HP. unfold names_cruise_mismatch in HP. names_given HP.
  unfold events_cruise_mismatch. writes_structure.
Qed.

Lemma events_fcw_writes (self : Controls) :
  Forall P names_fcw -> writes P self (events_fcw CP tg sm CS self).
Proof.
  intros HP. unfold names_fcw in HP. names_given HP.
  unfold events_fcw. writes_structure.
Qed.

Lemma events_android_log_writes (csids : list string) (self : Controls) :
  Forall P names_android_log ->
  writes P self (events_android_log csids self).
Proof.
  intros HP. unfold names_android_log in HP. names_given HP.
  revert self. induction csids as [| csid rest IH]; intros self;
    cbn [events_android_log]; [apply writes_refl |].
  cbv zeta. eapply writes_trans; [| apply IH].
  unfold CSID_MAP.
  repeat match goal with
    | |- context [bool_decide ?Q] => destruct (bool_decide Q)
    end; writes_structure.
Qed.

Lemma events_gps_model_writes (self : Controls) :
  Forall P names_gps_model -> writes P self (events_gps_model CP sm self).
Proof.
  intros HP. unfold names_gps_model in HP. names_given HP.
  unfold events_gps_model. writes_structure.
Qed.

Lemma update_frogpilot_events_writes (self : Controls) :
  Forall P names_frogpilot ->
  writes P self (update_frogpilot_events tg fp sm CS self).
Proof.
  intros HP. unfold names_frogpilot in HP. names_given HP.
  unfold update_frogpilot_events. writes_structure.
Qed.


(** All the checks that follow the early returns. *)
Lemma update_events_checks_writes (self : Controls) :
  Forall P
    (names_driver ++ names_device ++ names_calibration ++ names_lane_change
     ++ names_pandas ++ names_system ++ names_localization
     ++ names_cruise_mismatch ++ names_fcw ++ names_android_log
     ++ names_gps_model ++ names_frogpilot) ->
  (notCar CP = false -> Forall P (dm_events sm)) ->
  (canValid CS = true -> Forall P (cs_events CS)) ->
  writes P self (update_events_checks EVENTS CP tg fp sm CS self).
Proof.
  intros HP Hdm Hcs.
  repeat match type of HP with
    | Forall _ (_ ++ _) =>
        let H := fresh "Hpart" in apply Forall_app in HP as [H HP]
    end.
  unfold update_events_checks. cbv zeta.
  eapply writes_trans; [| now apply update_frogpilot_events_writes].
  eapply writes_trans; [| now apply events_gps_model_writes].
  eapply writes_trans; [| now apply events_android_log_writes].
  eapply writes_trans; [| now apply events_fcw_writes].
  eapply writes_trans; [| now apply events_cruise_mismatch_writes].
  eapply writes_trans; [| now apply events_localization_writes].
  eapply writes_trans; [| now apply events_system_writes].
  eapply writes_trans; [| now apply events_pandas_writes].
  eapply writes_trans; [| now apply events_lane_change_writes].
  eapply writes_trans; [| now apply events_calibration_writes].
  eapply writes_trans; [| now apply events_device_writes].
  now apply events_driver_writes.
Qed.

End Parts.

Section Aggregate.

Variables (tg : Toggles) (fp : FrogPilotChecks) (sm : SubMaster)
  (CS : CarState).

Local Abbreviation aggregate := (update_events EVENTS CP tg fp sm CS).
Local Abbreviation checks := (update_events_checks EVENTS CP tg fp sm CS).

(** The events [update_events] starts a cycle with: the static ones, the
    joystick event or else the startup event. *)
Local Abbreviation opening self :=
  (static_events self
   ++ (if joystick_mode tg then [EventName.joystickDebug]
       else option_list (startup_event self))).

(** [update_events] up to its early returns. *)
Lemma update_events_opening (self : Controls) :
  exists x,
    aggregate self
    = (if negb (initialized x) then
         Events_add EventName.controlsInitializing x
       else if passive CP then x
       else checks x)
    /\ keeps self x
    /\ events x = opening self
    /\ startup_event x = None
    /\ current_alert_types x = current_alert_types self
    /\ cruise_mismatch_counter x = cruise_mismatch_counter self
    /\ fcw_random_event_triggered x = fcw_random_event_triggered self.
Proof.
  unfold update_events. cbv zeta. eexists. split; [reflexivity |].
  destruct (joystick_mode tg).
  - cbn. rewrite ?app_nil_r. repeat split.
  - cbn [startup_event Events_clear set_events].
    destruct (startup_event self) as [e |] eqn:Hs; cbn; rewrite ?app_nil_r;
      repeat split; assumption.
Qed.

(** X14. The early returns: before initialisation the cycle's events are the
    opening ones and [controlsInitializing]; in dashcam mode, once
    initialised, they are the opening ones alone. *)
Theorem update_events_early_returns (self : Controls) :
  (initialized self = false ->
   events (aggregate self) = opening self ++ [EventName.controlsInitializing])
  /\ (initialized self = true -> passive CP = true ->
      events (aggregate self) = opening self).
Proof.
  destruct (update_events_opening self)
    as (x & -> & Hk & Hev & _).
  destruct Hk as (Hi & _). rewrite Hi.
  split.
  - intros ->. cbn. now rewrite Hev.
  - intros -> ->. cbn. exact Hev.
Qed.

(** The startup event is consumed by the first aggregation, whatever path
    it takes; when joystick mode does not drop it, it is in that cycle's
    events. *)
Lemma update_events_startup (self : Controls) :
  startup_event (aggregate self) = None
  /\ (joystick_mode tg = false ->
      forall e, startup_event self = Some e -> e ∈ events (aggregate self)).
Proof.
  destruct (update_events_opening self)
    as (x & -> & Hk & Hev & Hs & _).
  assert (Hw : writes (fun _ => True) x
                 (if negb (initialized x) then
                    Events_add EventName.controlsInitializing x
                  else if passive CP then x
                  else checks x)).
  { destruct (negb (initialized x));
      [apply writes_Events_add; [apply writes_refl | exact I] |].
    destruct (passive CP); [apply writes_refl |].
    apply update_events_checks_writes; intros;
      apply Forall_forall; intros; exact I. }
  split.
  - destruct Hw as (_ & -> & _). exact Hs.
  - intros Hj e He. apply (writes_elem _ _ _ _ Hw).
    rewrite Hev, Hj, He. apply elem_of_app. right. now left.
Qed.


(** Once initialised and not in dashcam mode, the cycle's events are those
    of the checks, run on the opening events. *)
Lemma update_events_running (self : Controls) :
  initialized self = true -> passive CP = false ->
  exists x,
    aggregate self = checks x
    /\ keeps self x
    /\ events x = opening self
    /\ cruise_mismatch_counter x = cruise_mismatch_counter self.
Proof.
  intros Hinit Hpassive.
  destruct (update_events_opening self)
    as (x & -> & Hk & Hev & _ & _ & Hc & _).
  exists x. destruct Hk as (Hi & Hk). rewrite Hi, Hinit, Hpassive. cbn.
  repeat split; try assumption; apply Hk.
Qed.

(** An event that is not handed in and is not the joystick event is not
    among the opening events, nor in the messages that are merged. *)
Lemma not_handed_in (n : EventName) (self : Controls) :
  (n ∉ handed_in CP tg sm CS self) -> n <> EventName.joystickDebug ->
  (n ∉ opening self)
  /\ (notCar CP = false -> Forall (fun e => e <> n) (dm_events sm))
  /\ (canValid CS = true -> Forall (fun e => e <> n) (cs_events CS)).
Proof.
  unfold handed_in. intros (Hs & Ho)%not_elem_of_app Hj.
  apply not_elem_of_app in Ho as (Ho & Hdm).
  apply not_elem_of_app in Hdm as (Hdm & Hcs).
  split; [| split].
  - rewrite not_elem_of_app. split; [exact Hs |].
    destruct (joystick_mode tg); [| exact Ho].
    rewrite list_elem_of_singleton. exact Hj.
  - intros Hn. rewrite Hn in Hdm. cbn in Hdm.
    apply Forall_forall. intros e He ->. exact (Hdm He).
  - intros Hv. rewrite Hv in Hcs.
    apply Forall_forall. intros e He ->. exact (Hcs He).
Qed.

(** None of the listed names is [n]. *)
Ltac differ :=
  apply (bool_decide_unpack _); vm_compute; exact I.

(** A part of the checks that does not add the name in question. *)
Ltac other_part :=
  first
    [ apply events_driver_writes; [differ | assumption | assumption]
    | apply events_device_writes; differ
    | apply events_calibration_writes; differ
    | apply events_lane_change_writes; differ
    | apply events_pandas_writes; differ
    | apply events_system_writes; differ
    | apply events_localization_writes; differ
    | apply events_cruise_mismatch_writes; differ
    | apply events_fcw_writes; differ
    | apply events_android_log_writes; differ
    | apply events_gps_model_writes; differ
    | apply update_frogpilot_events_writes; differ ].

Ltac other_parts :=
  unfold update_events_checks; cbv zeta;
  repeat first [apply writes_refl | eapply writes_trans; [| other_part]].

(** The checks up to the loop over the pandas. *)
Local Abbreviation before_pandas x :=
  (events_lane_change tg sm CS
     (events_calibration sm
        (events_device CP tg sm (events_driver CP tg sm CS x)))).

(** The test of the loop that raises [controlsMismatch]. *)
Local Abbreviation mismatch_test k ps counter :=
  ((safety_mismatch CP k ps = true /\ past_safety_grace sm = true)
   \/ safetyRxChecksInvalid ps = true
   \/ 200 <= counter).

Lemma events_pandas_mismatch (i : nat) (states : list PandaState)
  (x : Controls) :
  EventName.controlsMismatch ∈ events (events_pandas CP sm i states x)
  <-> EventName.controlsMismatch ∈ events x
      \/ exists k ps, states !! k = Some ps
           /\ mismatch_test (i + k)%nat ps (mismatch_counter x).
Proof.
  revert i x. induction states as [| ps0 rest IH]; intros i x.
  - cbn [events_pandas]. split; [now left |].
    intros [H | (k & ps & Hk & _)]; [exact H | discriminate Hk].
  - cbn [events_pandas]. cbv zeta. rewrite IH. clear IH.
    set (test := (safety_mismatch CP i ps0 && past_safety_grace sm)
                 || safetyRxChecksInvalid ps0 || (200 <=? mismatch_counter x)).
    assert (Htest : test = true <-> mismatch_test i ps0 (mismatch_counter x)).
    { unfold test. rewrite !orb_true_iff, andb_true_iff, Z.leb_le. tauto. }
    assert (Hc : mismatch_counter
                   (add_if (bool_decide
                              (FaultType.relayMalfunction ∈ faults ps0))
                      EventName.relayMalfunction
                      (add_if test EventName.controlsMismatch x))
                 = mismatch_counter x).
    { destruct test, (bool_decide _); reflexivity. }
    assert (He : EventName.controlsMismatch
                   ∈ events
                       (add_if (bool_decide
                                  (FaultType.relayMalfunction ∈ faults ps0))
                          EventName.relayMalfunction
                          (add_if test EventName.controlsMismatch x))
                 <-> EventName.controlsMismatch ∈ events x \/ test = true).
    { destruct test, (bool_decide _); cbn;
        rewrite ?elem_of_app, ?list_elem_of_singleton;
        intuition (try discriminate; auto). }
    rewrite He, Hc, Htest. clear He Hc Htest test. split.
    + intros [[H | H] | (k & ps & Hk & H)].
      * now left.
      * right. exists 0%nat, ps0. split; [reflexivity |].
        now rewrite Nat.add_0_r.
      * right. exists (S k), ps. split; [exact Hk |].
        now rewrite Nat.add_succ_r.
    + intros [H | (k & ps & Hk & H)]; [now left; left |].
      destruct k as [| k].
      * injection Hk as <-. rewrite Nat.add_0_r in H. left. now right.
      * right. exists k, ps. split; [exact Hk |].
        now rewrite Nat.add_succ_r in H.
Qed.

Lemma events_pandas_relay (i : nat) (states : list PandaState)
  (x : Controls) :
  EventName.relayMalfunction ∈ events (events_pandas CP sm i states x)
  <-> EventName.relayMalfunction ∈ events x
      \/ exists ps, ps ∈ states
           /\ FaultType.relayMalfunction ∈ faults ps.
Proof.
  revert i x. induction states as [| ps0 rest IH]; intros i x.
  - cbn [events_pandas]. split; [now left |].
    intros [H | (ps & Hk & _)]; [exact H | now apply elem_of_nil in Hk].
  - cbn [events_pandas]. cbv zeta. rewrite IH. clear IH.
    match goal with
    | |- context [add_if ?t EventName.controlsMismatch x] => generalize t
    end.
    intros test.
    assert (He : EventName.relayMalfunction
                   ∈ events
                       (add_if (bool_decide
                                  (FaultType.relayMalfunction ∈ faults ps0))
                          EventName.relayMalfunction
                          (add_if test EventName.controlsMismatch x))
                 <-> EventName.relayMalfunction ∈ events x
                     \/ FaultType.relayMalfunction ∈ faults ps0).
    { destruct (bool_decide_reflect
                  (FaultType.relayMalfunction ∈ faults ps0)), test; cbn;
        rewrite ?elem_of_app, ?list_elem_of_singleton;
        intuition (try discriminate; auto). }
    rewrite He. clear He. split.
    + intros [[H | H] | (ps & Hk & H)].
      * now left.
      * right. exists ps0. split; [now left | exact H].
      * right. exists ps. split; [now right | exact H].
    + intros [H | (ps & [-> | Hk]%elem_of_cons & H)].
      * now left; left.
      * left. now right.
      * right. now exists ps.
Qed.

(** X15. The loop over the pandas decides on [controlsMismatch] and
    [relayMalfunction]. Once initialised and not in dashcam mode, and when
    the event is not handed in: [controlsMismatch] is in the cycle's events
    exactly when some panda fails its safety configuration after the grace
    time, or reports invalid safety checks, or is there while the mismatch
    counter is at 200 or more; [relayMalfunction] exactly when some panda
    reports that fault. *)
Theorem panda_events (self : Controls) :
  initialized self = true -> passive CP = false ->
  ((EventName.controlsMismatch ∉ handed_in CP tg sm CS self) ->
   (EventName.controlsMismatch ∈ events (aggregate self)
    <-> exists k ps, pandaStates sm !! k = Some ps
          /\ mismatch_test k ps (mismatch_counter self)))
  /\ ((EventName.relayMalfunction ∉ handed_in CP tg sm CS self) ->
      (EventName.relayMalfunction ∈ events (aggregate self)
       <-> exists ps, ps ∈ pandaStates sm
             /\ FaultType.relayMalfunction ∈ faults ps)).
Proof.
  intros Hinit Hpassive.
  destruct (update_events_running self Hinit Hpassive)
    as (x & -> & Hk & Hev & _).
  split; intros Hext.
  - destruct (not_handed_in _ self Hext ltac:(discriminate))
      as (Hopen & Hdm & Hcs).
    assert (Hafter : writes (fun e => e <> EventName.controlsMismatch)
                       (events_pandas CP sm 0 (pandaStates sm)
                          (before_pandas x))
                       (checks x)) by other_parts.
    assert (Hbefore : writes (fun e => e <> EventName.controlsMismatch)
                        x (before_pandas x)) by other_parts.
    rewrite (writes_other _ _ _ Hafter), events_pandas_mismatch,
      (writes_other _ _ _ Hbefore), Hev.
    destruct (writes_keeps _ _ _ Hbefore) as (_ & _ & _ & _ & _ & -> & _).
    destruct Hk as (_ & _ & _ & _ & _ & -> & _).
    cbn [Nat.add]. tauto.
  - destruct (not_handed_in _ self Hext ltac:(discriminate))
      as (Hopen & Hdm & Hcs).
    assert (Hafter : writes (fun e => e <> EventName.relayMalfunction)
                       (events_pandas CP sm 0 (pandaStates sm)
                          (before_pandas x))
                       (checks x)) by other_parts.
    assert (Hbefore : writes (fun e => e <> EventName.relayMalfunction)
                        x (before_pandas x)) by other_parts.
    rewrite (writes_other _ _ _ Hafter), events_pandas_relay,
      (writes_other _ _ _ Hbefore), Hev.
    tauto.
Qed.


Lemma elem_of_if_singleton (n m : EventName) (c : bool) :
  n ∈ (if c then [m] else []) <-> c = true /\ n = m.
Proof.
  destruct c; rewrite ?list_elem_of_singleton, ?elem_of_nil;
    intuition discriminate.
Qed.

Lemma elem_of_if_list (n : EventName) (c : bool) (l : list EventName) :
  n ∈ (if c then l else []) <-> c = true /\ n ∈ l.
Proof. destruct c; rewrite ?elem_of_nil; intuition discriminate. Qed.

(** Splits on the tests of a part, the inner ones first, so that a test
    which reads a field of [self] sees the field. *)
Ltac inner_tests :=
  repeat match goal with
    | |- context [if ?b then _ else _] =>
        lazymatch b with
        | context [if _ then _ else _] => fail
        | _ => destruct b
        end;
        cbn [CS_prev enabled mismatch_counter cruise_mismatch_counter events
             Events_add Events_add_from_msg set_events
             set_cruise_mismatch_counter]
    end.

(** The rising edge of the accelerator or of a brake, as [update_events]
    tests it against the previous car state. *)
Local Abbreviation pedal_edge prev :=
  ((gasPressed CS && negb (gasPressed prev) && disengage_on_accelerator tg)
   || (brakePressed CS && (negb (brakePressed prev) || negb (standstill CS)))
   || (regenBraking CS && (negb (regenBraking prev) || negb (standstill CS)))).

(** The events of the first part, in the order they are added. *)
Lemma events_driver_events (x : Controls) :
  events (events_driver CP tg sm CS x)
  = events x
    ++ (if negb (pcmCruise CP) && negb (v_cruise_initialized tg)
           && existsb (fun be => bool_decide
                         (be_type be ∈ [ButtonType.accelCruise;
                                        ButtonType.resumeCruise]))
                (buttonEvents CS)
        then [EventName.resumeBlocked] else [])
    ++ (if pedal_edge (CS_prev x) then [EventName.pedalPressed] else [])
    ++ (if brakePressed CS && standstill CS
        then [EventName.preEnableStandstill] else [])
    ++ (if gasPressed CS then [EventName.gasPressedOverride] else [])
    ++ (if negb (notCar CP) then dm_events sm else [])
    ++ (if canValid CS then cs_events CS else []).
Proof.
  unfold events_driver, add_if. cbv zeta. inner_tests;
    repeat rewrite <- app_assoc; cbn [app]; rewrite ?app_nil_r; reflexivity.
Qed.

(** Which of its own events the first part leaves in the event set. *)
Lemma events_driver_member (n : EventName) (x : Controls) :
  (n ∉ events x) ->
  (notCar CP = false -> Forall (fun e => e <> n) (dm_events sm)) ->
  (canValid CS = true -> Forall (fun e => e <> n) (cs_events CS)) ->
  n ∈ events (events_driver CP tg sm CS x)
  <-> (negb (pcmCruise CP) && negb (v_cruise_initialized tg)
       && existsb (fun be => bool_decide
                     (be_type be ∈ [ButtonType.accelCruise;
                                    ButtonType.resumeCruise]))
            (buttonEvents CS) = true
       /\ n = EventName.resumeBlocked)
      \/ (pedal_edge (CS_prev x) = true /\ n = EventName.pedalPressed)
      \/ (brakePressed CS && standstill CS = true
          /\ n = EventName.preEnableStandstill)
      \/ (gasPressed CS = true /\ n = EventName.gasPressedOverride).
Proof.
  intros Hx Hdm Hcs.
  rewrite events_driver_events, !elem_of_app, !elem_of_if_singleton,
    !elem_of_if_list.
  split.
  - intros [H | [H | [H | [H | [H | [[Hn H] | [Hv H]]]]]]]; auto.
    + now destruct Hx.
    + apply negb_true_iff in Hn. specialize (Hdm Hn).
      rewrite Forall_forall in Hdm. now destruct (Hdm _ H).
    + specialize (Hcs Hv). rewrite Forall_forall in Hcs.
      now destruct (Hcs _ H).
  - intros [H | [H | [H | H]]]; auto 10.
Qed.

(** Two names of the source that differ. *)
Ltac wrong_name H := vm_compute in H; discriminate H.

(** X16. The pedal events. Once initialised and not in dashcam mode, and when
    the event is not handed in: [pedalPressed] is in the cycle's events
    exactly on a rising edge of the accelerator (if it is set to
    disengage), or of the brake or the regenerative brake, or while one of
    the two brakes is held and the car is not at standstill;
    [preEnableStandstill] exactly when the brake is held at standstill;
    [gasPressedOverride] exactly when the accelerator is pressed. *)
Theorem pedal_events (self : Controls) :
  initialized self = true -> passive CP = false ->
  ((EventName.pedalPressed ∉ handed_in CP tg sm CS self) ->
   (EventName.pedalPressed ∈ events (aggregate self)
    <-> pedal_edge (CS_prev self) = true))
  /\ ((EventName.preEnableStandstill ∉ handed_in CP tg sm CS self) ->
      (EventName.preEnableStandstill ∈ events (aggregate self)
       <-> brakePressed CS = true /\ standstill CS = true))
  /\ ((EventName.gasPressedOverride ∉ handed_in CP tg sm CS self) ->
      (EventName.gasPressedOverride ∈ events (aggregate self)
       <-> gasPressed CS = true)).
Proof.
  intros Hinit Hpassive.
  destruct (update_events_running self Hinit Hpassive)
    as (x & -> & Hk & Hev & _).
  assert (Hprev : CS_prev x = CS_prev self) by apply Hk.
  split; [| split]; intros Hext;
    destruct (not_handed_in _ self Hext ltac:(discriminate))
      as (Hopen & Hdm & Hcs);
    rewrite <- Hev in Hopen;
    match goal with
    | |- ?n ∈ _ <-> _ =>
        assert (Hafter : writes (fun e => e <> n)
                           (events_driver CP tg sm CS x) (checks x))
          by other_parts;
        rewrite (writes_other _ _ _ Hafter),
          (events_driver_member _ x Hopen Hdm Hcs), Hprev
    end.
  - split.
    + intros [[_ H] | [[H _] | [[_ H] | [_ H]]]];
        [wrong_name H | exact H | wrong_name H | wrong_name H].
    + intros H. right. left. now split.
  - rewrite <- andb_true_iff. split.
    + intros [[_ H] | [[_ H] | [[H _] | [_ H]]]];
        [wrong_name H | wrong_name H | exact H | wrong_name H].
    + intros H. right. right. left. now split.
  - split.
    + intros [[_ H] | [[_ H] | [[_ H] | [H _]]]];
        [wrong_name H | wrong_name H | wrong_name H | exact H].
    + intros H. right. right. right. now split.
Qed.


(** The checks up to the calibration status. *)
Local Abbreviation before_calibration x :=
  (events_device CP tg sm (events_driver CP tg sm CS x)).

(** The event the calibration status stands for: none when calibrated. *)
Lemma events_calibration_member (n : EventName) (y : Controls) :
  n ∈ events (events_calibration sm y)
  <-> n ∈ events y
      \/ (calStatus sm = CalStatus.uncalibrated
          /\ n = EventName.calibrationIncomplete)
      \/ (calStatus sm = CalStatus.recalibrating
          /\ n = EventName.calibrationRecalibrating)
      \/ (calStatus sm = CalStatus.invalid
          /\ n = EventName.calibrationInvalid).
Proof.
  unfold events_calibration. cbv zeta.
  destruct (calStatus sm);
    repeat match goal with
      | |- context [bool_decide ?Q] =>
          let n := fresh "n" in
          destruct (bool_decide_reflect Q) as [? | n];
          try congruence; try (exfalso; apply n; congruence)
      end;
    cbn [events Events_add set_events];
    rewrite ?elem_of_app, ?list_elem_of_singleton;
    intuition (try discriminate; auto).
Qed.

(** X17. The calibration events. Once initialised and not in dashcam mode, and
    when the event is not handed in, each of the three calibration events
    is in the cycle's events exactly under its status; under [calibrated]
    none is. *)
Theorem calibration_events (self : Controls) :
  initialized self = true -> passive CP = false ->
  ((EventName.calibrationIncomplete ∉ handed_in CP tg sm CS self) ->
   (EventName.calibrationIncomplete ∈ events (aggregate self)
    <-> calStatus sm = CalStatus.uncalibrated))
  /\ ((EventName.calibrationRecalibrating ∉ handed_in CP tg sm CS self) ->
      (EventName.calibrationRecalibrating ∈ events (aggregate self)
       <-> calStatus sm = CalStatus.recalibrating))
  /\ ((EventName.calibrationInvalid ∉ handed_in CP tg sm CS self) ->
      (EventName.calibrationInvalid ∈ events (aggregate self)
       <-> calStatus sm = CalStatus.invalid)).
Proof.
  intros Hinit Hpassive.
  destruct (update_events_running self Hinit Hpassive)
    as (x & -> & Hk & Hev & _).
  split; [| split]; intros Hext;
    destruct (not_handed_in _ self Hext ltac:(discriminate))
      as (Hopen & Hdm & Hcs);
    rewrite <- Hev in Hopen;
    match goal with
    | |- ?n ∈ _ <-> _ =>
        assert (Hafter : writes (fun e => e <> n)
                           (events_calibration sm (before_calibration x))
                           (checks x))
          by other_parts;
        assert (Hbefore : writes (fun e => e <> n) x (before_calibration x))
          by other_parts;
        rewrite (writes_other _ _ _ Hafter), events_calibration_member,
          (writes_other _ _ _ Hbefore)
    end.
  - split.
    + intros [H | [[H _] | [[_ H] | [_ H]]]];
        [now destruct Hopen | exact H | wrong_name H | wrong_name H].
    + intros H. right. left. now split.
  - split.
    + intros [H | [[_ H] | [[H _] | [_ H]]]];
        [now destruct Hopen | wrong_name H | exact H | wrong_name H].
    + intros H. right. right. left. now split.
  - split.
    + intros [H | [[_ H] | [[_ H] | [H _]]]];
        [now destruct Hopen | wrong_name H | wrong_name H | exact H].
    + intros H. right. right. right. now split.
Qed.

(** The checks up to the hardware and system malfunctions. *)
Local Abbreviation before_system x :=
  (events_pandas CP sm 0 (pandaStates sm) (before_pandas x)).

(** An event of the system part that is already there stays to its end. *)
Ltac stays_to_the_end :=
  repeat match goal with
    | |- context [if ?b then _ else _] => destruct b
    end;
  cbn [events Events_add set_events];
  rewrite ?elem_of_app, ?list_elem_of_singleton; auto 10.

Lemma events_system_can_missing (y : Controls) :
  EventName.canBusMissing ∈ events (events_system EVENTS CP sm CS y)
  <-> EventName.canBusMissing ∈ events y \/ canTimeout CS = true.
Proof.
  split.
  - intros H.
    assert (Hw : writes (fun e => e = EventName.canBusMissing ->
                                  canTimeout CS = true)
                   y (events_system EVENTS CP sm CS y))
      by (unfold events_system; writes_structure).
    destruct (writes_new _ _ _ _ Hw H) as [? | Ht]; [now left |].
    right. now apply Ht.
  - intros [H | H].
    + eapply writes_elem; [| exact H].
      apply (events_system_writes sm CS (fun _ => True)).
      apply Forall_forall. intros; exact I.
    + unfold events_system, add_if. cbv zeta. rewrite H.
      match goal with
      | |- context [Events_add EventName.canBusMissing ?s] =>
          generalize s; intros s4
      end.
      stays_to_the_end.
Qed.

Lemma events_system_can_error (y : Controls) :
  EventName.canError ∈ events (events_system EVENTS CP sm CS y)
  <-> EventName.canError ∈ events y
      \/ (canTimeout CS = false /\ canValid CS = false).
Proof.
  split.
  - intros H.
    assert (Hw : writes (fun e => e = EventName.canError ->
                                  canTimeout CS = false
                                  /\ negb (canValid CS) = true)
                   y (events_system EVENTS CP sm CS y))
      by (unfold events_system; writes_structure).
    destruct (writes_new _ _ _ _ Hw H) as [? | Ht]; [now left |].
    right. destruct (Ht eq_refl) as [Ht1 Ht2].
    split; [exact Ht1 | now apply negb_true_iff].
  - intros [H | [Ht Hv]].
    + eapply writes_elem; [| exact H].
      apply (events_system_writes sm CS (fun _ => True)).
      apply Forall_forall. intros; exact I.
    + unfold events_system, add_if. cbv zeta. rewrite Ht, Hv. cbn [negb].
      match goal with
      | |- context [Events_add EventName.canError ?s] =>
          generalize s; intros s4
      end.
      stays_to_the_end.
Qed.

(** X18. The CAN events. Once initialised and not in dashcam mode, and when the
    event is not handed in: [canBusMissing] is in the cycle's events
    exactly on a CAN timeout, [canError] exactly when CAN is invalid
    without a timeout; so the two exclude each other. *)
Theorem can_events (self : Controls) :
  initialized self = true -> passive CP = false ->
  ((EventName.canBusMissing ∉ handed_in CP tg sm CS self) ->
   (EventName.canBusMissing ∈ events (aggregate self)
    <-> canTimeout CS = true))
  /\ ((EventName.canError ∉ handed_in CP tg sm CS self) ->
      (EventName.canError ∈ events (aggregate self)
       <-> canTimeout CS = false /\ canValid CS = false)).
Proof.
  intros Hinit Hpassive.
  destruct (update_events_running self Hinit Hpassive)
    as (x & -> & Hk & Hev & _).
  split; intros Hext;
    destruct (not_handed_in _ self Hext ltac:(discriminate))
      as (Hopen & Hdm & Hcs);
    rewrite <- Hev in Hopen;
    match goal with
    | |- ?n ∈ _ <-> _ =>
        assert (Hafter : writes (fun e => e <> n)
                           (events_system EVENTS CP sm CS (before_system x))
                           (checks x))
          by other_parts;
        assert (Hbefore : writes (fun e => e <> n) x (before_system x))
          by other_parts;
        rewrite (writes_other _ _ _ Hafter)
    end.
  - rewrite events_system_can_missing, (writes_other _ _ _ Hbefore). tauto.
  - rewrite events_system_can_error, (writes_other _ _ _ Hbefore). tauto.
Qed.


(** The catch-all of the system part is taken only when a check failed or
    the CAN receive timed out. *)
Ltac checks_failed :=
  match goal with
  | H : _ && _ = true |- _ => apply andb_true_iff in H as [H _]; exact H
  end.

Lemma events_system_comm_issue (y : Controls) :
  EventName.commIssue ∈ events (events_system EVENTS CP sm CS y) ->
  EventName.commIssue ∈ events y
  \/ (negb (all_checks sm) || can_rcv_timeout sm = true
      /\ (all_alive sm = false \/ all_freq_ok sm = true)).
Proof.
  intros H.
  assert (Hw : writes (fun e => e = EventName.commIssue ->
                         negb (all_checks sm) || can_rcv_timeout sm = true
                         /\ (all_alive sm = false \/ all_freq_ok sm = true))
                 y (events_system EVENTS CP sm CS y)).
  { unfold events_system. writes_structure.
    all: apply writes_Events_add; [writes_structure | intros _].
    all: split; [checks_failed |].
    - left. now apply negb_true_iff.
    - right. now apply negb_false_iff. }
  destruct (writes_new _ _ _ _ Hw H) as [? | Ht]; [now left |].
  right. now apply Ht.
Qed.

Lemma events_system_comm_issue_freq (y : Controls) :
  EventName.commIssueAvgFreq ∈ events (events_system EVENTS CP sm CS y) ->
  EventName.commIssueAvgFreq ∈ events y
  \/ (negb (all_checks sm) || can_rcv_timeout sm = true
      /\ all_alive sm = true /\ all_freq_ok sm = false).
Proof.
  intros H.
  assert (Hw : writes (fun e => e = EventName.commIssueAvgFreq ->
                         negb (all_checks sm) || can_rcv_timeout sm = true
                         /\ all_alive sm = true /\ all_freq_ok sm = false)
                 y (events_system EVENTS CP sm CS y)).
  { unfold events_system. writes_structure.
    all: apply writes_Events_add; [writes_structure | intros _].
    all: split; [checks_failed |].
    split; [now apply negb_false_iff | now apply negb_true_iff]. }
  destruct (writes_new _ _ _ _ Hw H) as [? | Ht]; [now left |].
  right. now apply Ht.
Qed.

(** X19. The communication issue. Once initialised and not in dashcam mode, and
    when the event is not handed in, [commIssue] and [commIssueAvgFreq] are
    in the cycle's events only when a subsystem check failed or the CAN
    receive timed out: the second when everything is alive and a frequency
    is off, the first in the other cases; so never both. *)
Theorem comm_issue_events (self : Controls) :
  initialized self = true -> passive CP = false ->
  ((EventName.commIssue ∉ handed_in CP tg sm CS self) ->
   EventName.commIssue ∈ events (aggregate self) ->
   (all_checks sm = false \/ can_rcv_timeout sm = true)
   /\ (all_alive sm = false \/ all_freq_ok sm = true))
  /\ ((EventName.commIssueAvgFreq ∉ handed_in CP tg sm CS self) ->
      EventName.commIssueAvgFreq ∈ events (aggregate self) ->
      (all_checks sm = false \/ can_rcv_timeout sm = true)
      /\ all_alive sm = true /\ all_freq_ok sm = false).
Proof.
  intros Hinit Hpassive.
  destruct (update_events_running self Hinit Hpassive)
    as (x & -> & Hk & Hev & _).
  split; intros Hext;
    destruct (not_handed_in _ self Hext ltac:(discriminate))
      as (Hopen & Hdm & Hcs);
    rewrite <- Hev in Hopen;
    match goal with
    | |- ?n ∈ _ -> _ =>
        assert (Hafter : writes (fun e => e <> n)
                           (events_system EVENTS CP sm CS (before_system x))
                           (checks x))
          by other_parts;
        assert (Hbefore : writes (fun e => e <> n) x (before_system x))
          by other_parts;
        rewrite (writes_other _ _ _ Hafter)
    end.
  - intros [H | [H1 H2]]%events_system_comm_issue.
    + now apply (writes_other _ _ _ Hbefore) in H.
    + split; [| exact H2].
      apply orb_true_iff in H1 as [H1 | H1];
        [left; now apply negb_true_iff | now right].
  - intros [H | [H1 H2]]%events_system_comm_issue_freq.
    + now apply (writes_other _ _ _ Hbefore) in H.
    + split; [| exact H2].
      apply orb_true_iff in H1 as [H1 | H1];
        [left; now apply negb_true_iff | now right].
Qed.


(** The cruise mismatch counter is touched by one part only. *)
Lemma counter_Events_add n (x : Controls) :
  cruise_mismatch_counter (Events_add n x) = cruise_mismatch_counter x.
Proof. reflexivity. Qed.

Lemma counter_add_if b n (x : Controls) :
  cruise_mismatch_counter (add_if b n x) = cruise_mismatch_counter x.
Proof. now destruct b. Qed.

Lemma counter_Events_add_from_msg l (x : Controls) :
  cruise_mismatch_counter (Events_add_from_msg l x)
  = cruise_mismatch_counter x.
Proof. reflexivity. Qed.

Lemma counter_set_fcw_random_event_triggered v (x : Controls) :
  cruise_mismatch_counter (set_fcw_random_event_triggered v x)
  = cruise_mismatch_counter x.
Proof. reflexivity. Qed.

Ltac counter_kept :=
  cbv zeta;
  repeat first
    [ reflexivity
    | rewrite counter_Events_add
    | rewrite counter_add_if
    | rewrite counter_Events_add_from_msg
    | rewrite counter_set_fcw_random_event_triggered
    | match goal with
      | |- cruise_mismatch_counter (if ?b then _ else _) = _ => destruct b
      | |- cruise_mismatch_counter
             (match ?o with Some _ => _ | None => _ end) = _ => destruct o
      end ].

Lemma events_driver_counter (y : Controls) :
  cruise_mismatch_counter (events_driver CP tg sm CS y)
  = cruise_mismatch_counter y.
Proof. unfold events_driver. counter_kept. Qed.

Lemma events_device_counter (y : Controls) :
  cruise_mismatch_counter (events_device CP tg sm y)
  = cruise_mismatch_counter y.
Proof. unfold events_device. counter_kept. Qed.

Lemma events_calibration_counter (y : Controls) :
  cruise_mismatch_counter (events_calibration sm y)
  = cruise_mismatch_counter y.
Proof. unfold events_calibration. counter_kept. Qed.

Lemma events_lane_change_counter (y : Controls) :
  cruise_mismatch_counter (events_lane_change tg sm CS y)
  = cruise_mismatch_counter y.
Proof. unfold events_lane_change. counter_kept. Qed.

Lemma events_pandas_counter (i : nat) (states : list PandaState)
  (y : Controls) :
  cruise_mismatch_counter (events_pandas CP sm i states y)
  = cruise_mismatch_counter y.
Proof.
  revert i y. induction states as [| ps rest IH]; intros i y;
    cbn [events_pandas]; [reflexivity |].
  cbv zeta. rewrite IH. counter_kept.
Qed.

Lemma events_system_counter (y : Controls) :
  cruise_mismatch_counter (events_system EVENTS CP sm CS y)
  = cruise_mismatch_counter y.
Proof. unfold events_system. counter_kept. Qed.

Lemma events_localization_counter (y : Controls) :
  cruise_mismatch_counter (events_localization CP tg sm y)
  = cruise_mismatch_counter y.
Proof. unfold events_localization. counter_kept. Qed.

Lemma events_fcw_counter (y : Controls) :
  cruise_mismatch_counter (events_fcw CP tg sm CS y)
  = cruise_mismatch_counter y.
Proof. unfold events_fcw. counter_kept. Qed.

Lemma events_android_log_counter (csids : list string) (y : Controls) :
  cruise_mismatch_counter (events_android_log csids y)
  = cruise_mismatch_counter y.
Proof.
  revert y. induction csids as [| c rest IH]; intros y;
    cbn [events_android_log]; [reflexivity |].
  cbv zeta. rewrite IH. counter_kept.
Qed.

Lemma events_gps_model_counter (y : Controls) :
  cruise_mismatch_counter (events_gps_model CP sm y)
  = cruise_mismatch_counter y.
Proof. unfold events_gps_model. counter_kept. Qed.

Lemma update_frogpilot_events_counter (y : Controls) :
  cruise_mismatch_counter (update_frogpilot_events tg fp sm CS y)
  = cruise_mismatch_counter y.
Proof. unfold update_frogpilot_events. counter_kept. Qed.

(** The checks up to the cruise mismatch. *)
Local Abbreviation before_cruise x :=
  (events_localization CP tg sm
     (events_system EVENTS CP sm CS (before_system x))).

(** The test of the cruise mismatch: the car's cruise control is on while
    openpilot is not enabled, or the car has no PCM cruise. *)
Local Abbreviation cruise_mismatch self :=
  (cruiseState_enabled CS && (negb (enabled self) || negb (pcmCruise CP))).

Lemma events_cruise_mismatch_counter (y : Controls) :
  cruise_mismatch_counter (events_cruise_mismatch CP CS y)
  = if REPLAY CP then cruise_mismatch_counter y
    else if cruise_mismatch y then cruise_mismatch_counter y + 1 else 0.
Proof.
  unfold events_cruise_mismatch. destruct (REPLAY CP); cbn [negb];
    [reflexivity |].
  cbv zeta. rewrite counter_add_if. reflexivity.
Qed.

Lemma events_cruise_mismatch_member (y : Controls) :
  EventName.cruiseMismatch ∈ events (events_cruise_mismatch CP CS y)
  <-> EventName.cruiseMismatch ∈ events y
      \/ (REPLAY CP = false
          /\ cruise_mismatch_ticks
             < cruise_mismatch_counter (events_cruise_mismatch CP CS y)).
Proof.
  rewrite events_cruise_mismatch_counter.
  unfold events_cruise_mismatch. destruct (REPLAY CP); cbn [negb].
  - split; [now left | intros [H | [H _]]; [exact H | discriminate H]].
  - cbv zeta. unfold add_if.
    cbn [cruise_mismatch_counter set_cruise_mismatch_counter].
    destruct (Z.ltb_spec cruise_mismatch_ticks
                (if cruise_mismatch y then cruise_mismatch_counter y + 1
                 else 0)) as [Hlt | Hge].
    + cbn [events Events_add set_events set_cruise_mismatch_counter].
      rewrite elem_of_app, list_elem_of_singleton. split.
      * intros _. right. now split.
      * intros _. now right.
    + cbn [events set_cruise_mismatch_counter]. split; [now left |].
      intros [H | [_ H]]; [exact H | lia].
Qed.

(** X20. The cruise mismatch. Once initialised and not in dashcam mode, and
    outside replay, the cruise mismatch counter goes up by one in a cycle
    in which the car's cruise control is on while openpilot is not enabled
    (or the car has no PCM cruise) and is reset to zero in any other; in
    replay it is left alone. When the event is not handed in,
    [cruiseMismatch] is in the cycle's events exactly when, outside replay,
    the new counter exceeds six seconds of cycles. *)
Theorem cruise_mismatch_events (self : Controls) :
  initialized self = true -> passive CP = false ->
  cruise_mismatch_counter (aggregate self)
  = (if REPLAY CP then cruise_mismatch_counter self
     else if cruise_mismatch self then cruise_mismatch_counter self + 1
          else 0)
  /\ ((EventName.cruiseMismatch ∉ handed_in CP tg sm CS self) ->
      (EventName.cruiseMismatch ∈ events (aggregate self)
       <-> REPLAY CP = false
           /\ cruise_mismatch_ticks
              < cruise_mismatch_counter (aggregate self))).
Proof.
  intros Hinit Hpassive.
  destruct (update_events_running self Hinit Hpassive)
    as (x & -> & Hk & Hev & Hc).
  assert (Hbefore : forall n,
             (notCar CP = false -> Forall (fun e => e <> n) (dm_events sm)) ->
             (canValid CS = true -> Forall (fun e => e <> n) (cs_events CS)) ->
             n = EventName.cruiseMismatch ->
             writes (fun e => e <> n) x (before_cruise x)).
  { intros n Hdm Hcs ->. other_parts. }
  assert (Hcount : cruise_mismatch_counter (checks x)
                   = cruise_mismatch_counter
                       (events_cruise_mismatch CP CS (before_cruise x))).
  { unfold update_events_checks. cbv zeta.
    now rewrite update_frogpilot_events_counter, events_gps_model_counter,
      events_android_log_counter, events_fcw_counter. }
  assert (Hy : cruise_mismatch_counter (before_cruise x)
               = cruise_mismatch_counter self
               /\ enabled (before_cruise x) = enabled self).
  { split.
    - rewrite events_localization_counter, events_system_counter,
        events_pandas_counter, events_lane_change_counter,
        events_calibration_counter, events_device_counter,
        events_driver_counter. exact Hc.
    - assert (Hw : writes (fun _ => True) x (before_cruise x)).
      { repeat first
          [ apply writes_refl
          | eapply writes_trans;
            [| first
                 [ apply events_driver_writes; intros
                 | apply events_device_writes
                 | apply events_calibration_writes
                 | apply events_lane_change_writes
                 | apply events_pandas_writes
                 | apply events_system_writes
                 | apply events_localization_writes ];
               apply Forall_forall; intros; exact I ] ]. }
      destruct Hw as ((Hkw & _) & _).
      destruct Hkw as (_ & _ & -> & _). apply Hk. }
  destruct Hy as (Hyc & Hye).
  rewrite Hcount, events_cruise_mismatch_counter, Hyc, Hye.
  split; [reflexivity |].
  intros Hext.
  destruct (not_handed_in _ self Hext ltac:(discriminate))
    as (Hopen & Hdm & Hcs).
  rewrite <- Hev in Hopen.
  assert (Hafter : writes (fun e => e <> EventName.cruiseMismatch)
                     (events_cruise_mismatch CP CS (before_cruise x))
                     (checks x)) by other_parts.
  rewrite (writes_other _ _ _ Hafter), events_cruise_mismatch_member,
    events_cruise_mismatch_counter, Hyc, Hye,
    (writes_other _ _ _ (Hbefore _ Hdm Hcs eq_refl)).
  tauto.
Qed.


(** The events of the device part, in the order they are added. *)
Lemma events_device_events (y : Controls) :
  events (events_device CP tg sm y)
  = events y
    ++ (if (ThermalStatus.level ThermalStatus.red
            <=? ThermalStatus.level (thermalStatus sm))
           && (negb (increase_thermal_limits tg)
               || bool_decide (thermalStatus sm = ThermalStatus.danger))
        then [EventName.overheat] else [])
    ++ (if free_space_low sm && negb (SIMULATION CP)
        then [EventName.outOfSpace] else [])
    ++ (if memory_usage_high sm && negb (SIMULATION CP)
        then [EventName.lowMemory] else [])
    ++ (if pandaType_known sm && fan_stalled sm && fan_grace_over sm
        then [EventName.fanMalfunction] else []).
Proof.
  unfold events_device, add_if. cbv zeta.
  destruct (ThermalStatus.level ThermalStatus.red
            <=? ThermalStatus.level (thermalStatus sm)),
    (negb (increase_thermal_limits tg)
     || bool_decide (thermalStatus sm = ThermalStatus.danger)),
    (free_space_low sm && negb (SIMULATION CP)),
    (memory_usage_high sm && negb (SIMULATION CP)),
    (pandaType_known sm), (fan_stalled sm), (fan_grace_over sm);
    cbn [andb events Events_add set_events];
    repeat rewrite <- app_assoc; cbn [app]; rewrite ?app_nil_r; reflexivity.
Qed.

(** X21. The device events. Once initialised and not in dashcam mode, and when
    the event is not handed in: [overheat] is in the cycle's events exactly
    when the thermal status is [red] or worse and either the thermal limits
    are not raised or the status is [danger]; [outOfSpace] and [lowMemory]
    exactly on their condition outside simulation; [fanMalfunction]
    exactly when the fan of a known panda has stalled for longer than the
    grace time. *)
Theorem device_events (self : Controls) :
  initialized self = true -> passive CP = false ->
  ((EventName.overheat ∉ handed_in CP tg sm CS self) ->
   (EventName.overheat ∈ events (aggregate self)
    <-> (thermalStatus sm = ThermalStatus.red
         /\ increase_thermal_limits tg = false)
        \/ thermalStatus sm = ThermalStatus.danger))
  /\ ((EventName.outOfSpace ∉ handed_in CP tg sm CS self) ->
      (EventName.outOfSpace ∈ events (aggregate self)
       <-> free_space_low sm = true /\ SIMULATION CP = false))
  /\ ((EventName.lowMemory ∉ handed_in CP tg sm CS self) ->
      (EventName.lowMemory ∈ events (aggregate self)
       <-> memory_usage_high sm = true /\ SIMULATION CP = false))
  /\ ((EventName.fanMalfunction ∉ handed_in CP tg sm CS self) ->
      (EventName.fanMalfunction ∈ events (aggregate self)
       <-> pandaType_known sm = true /\ fan_stalled sm = true
           /\ fan_grace_over sm = true)).
Proof.
  intros Hinit Hpassive.
  destruct (update_events_running self Hinit Hpassive)
    as (x & -> & Hk & Hev & _).
  split; [| split; [| split]]; intros Hext;
    destruct (not_handed_in _ self Hext ltac:(discriminate))
      as (Hopen & Hdm & Hcs);
    rewrite <- Hev in Hopen;
    match goal with
    | |- ?n ∈ _ <-> _ =>
        assert (Hafter : writes (fun e => e <> n)
                           (events_device CP tg sm
                              (events_driver CP tg sm CS x))
                           (checks x))
          by other_parts;
        assert (Hbefore : writes (fun e => e <> n) x
                            (events_driver CP tg sm CS x))
          by other_parts;
        rewrite (writes_other _ _ _ Hafter), events_device_events,
          !elem_of_app, !elem_of_if_singleton, (writes_other _ _ _ Hbefore)
    end.
  - split.
    + intros [H | [[H _] | [[_ H] | [[_ H] | [_ H]]]]];
        [now destruct Hopen | | wrong_name H | wrong_name H | wrong_name H].
      apply andb_true_iff in H as [Hl Hd]. apply Z.leb_le in Hl.
      apply orb_true_iff in Hd as [Hd | Hd].
      * apply negb_true_iff in Hd.
        destruct (thermalStatus sm); cbn in Hl; try lia; auto.
      * right. now apply bool_decide_eq_true in Hd.
    + intros H. right. left. split; [| reflexivity].
      destruct H as [[-> ->] | ->]; [reflexivity |].
      rewrite bool_decide_eq_true_2 by reflexivity. now rewrite orb_true_r.
  - rewrite <- (negb_true_iff (SIMULATION CP)), <- andb_true_iff. split.
    + intros [H | [[_ H] | [[H _] | [[_ H] | [_ H]]]]];
        [now destruct Hopen | wrong_name H | exact H | wrong_name H
        | wrong_name H].
    + intros H. right. right. left. now split.
  - rewrite <- (negb_true_iff (SIMULATION CP)), <- andb_true_iff. split.
    + intros [H | [[_ H] | [[_ H] | [[H _] | [_ H]]]]];
        [now destruct Hopen | wrong_name H | wrong_name H | exact H
        | wrong_name H].
    + intros H. right. right. right. left. now split.
  - rewrite <- !andb_true_iff, andb_assoc. split.
    + intros [H | [[_ H] | [[_ H] | [[_ H] | [H _]]]]];
        [now destruct Hopen | wrong_name H | wrong_name H | wrong_name H
        | exact H].
    + intros H. right. right. right. right. now split.
Qed.

(** A blind spot on the side of the lane change. *)
Local Abbreviation blindspot_blocked :=
  (leftBlindspot CS
   && bool_decide (laneChangeDirection sm = LaneChangeDirection.left)
   || rightBlindspot CS
      && bool_decide (laneChangeDirection sm = LaneChangeDirection.right)).

(** What the lane change part adds. *)
Local Abbreviation lane_change_adds n :=
  ((laneChangeState sm = LaneChangeState.preLaneChange
    /\ ((blindspot_blocked = true
         /\ n = (if loud_blindspot_alert tg
                 then EventName.laneChangeBlockedLoud
                 else EventName.laneChangeBlocked))
        \/ (blindspot_blocked = false
            /\ laneChangeDirection sm = LaneChangeDirection.left
            /\ n = (if lane_width_left_ok sm
                    then EventName.preLaneChangeLeft
                    else EventName.noLaneAvailable))
        \/ (blindspot_blocked = false
            /\ laneChangeDirection sm <> LaneChangeDirection.left
            /\ n = (if lane_width_right_ok sm
                    then EventName.preLaneChangeRight
                    else EventName.noLaneAvailable))))
   \/ ((laneChangeState sm = LaneChangeState.laneChangeStarting
        \/ laneChangeState sm = LaneChangeState.laneChangeFinishing)
       /\ n = EventName.laneChange)).

Lemma events_lane_change_member (n : EventName) (y : Controls) :
  n ∈ events (events_lane_change tg sm CS y)
  <-> n ∈ events y \/ lane_change_adds n.
Proof.
  unfold events_lane_change. cbv zeta.
  generalize blindspot_blocked. intros blocked.
  destruct (laneChangeState sm), blocked, (laneChangeDirection sm),
    (loud_blindspot_alert tg), (lane_width_left_ok sm),
    (lane_width_right_ok sm);
    repeat match goal with
      | |- context [bool_decide ?Q] =>
          let n := fresh "n" in
          destruct (bool_decide_reflect Q) as [? | n];
          try congruence; try (exfalso; apply n; congruence)
      end;
    try solve
      [ exfalso;
        match goal with
        | H : _ ∈ _ |- _ =>
            rewrite ?elem_of_cons, elem_of_nil in H; intuition congruence
        | H : ¬ (_ ∈ _) |- _ =>
            apply H; rewrite ?elem_of_cons; auto
        end ];
    cbn [events Events_add set_events];
    rewrite ?elem_of_app, ?list_elem_of_singleton;
    intuition (try discriminate; try congruence; auto).
Qed.

Lemma lane_change_exclusive (n m : EventName) :
  lane_change_adds n -> lane_change_adds m -> n = m.
Proof.
  intros [[Hs [[Hb ->] | [[Hb [Hd ->]] | [Hb [Hd ->]]]]] | [Hs ->]]
         [[Hs' [[Hb' ->] | [[Hb' [Hd' ->]] | [Hb' [Hd' ->]]]]] | [Hs' ->]];
    try reflexivity; try congruence;
    try (destruct Hs; congruence); try (destruct Hs'; congruence).
Qed.

(** X22. The lane change events. Once initialised and not in dashcam mode, an
    event of the lane change family that is not handed in is in the
    cycle's events exactly when the lane change part adds it: before a
    lane change, the blocked alert (loud if so set) under a blind spot on
    the side of the change, else the alert of the side or [noLaneAvailable]
    when the lane there is too narrow, any direction but left being read
    as right; [laneChange] while the change starts or finishes. So at most
    one event of the family is raised in a cycle. *)
Theorem lane_change_events (self : Controls) (n m : EventName) :
  initialized self = true -> passive CP = false ->
  n ∈ names_lane_change ->
  (n ∉ handed_in CP tg sm CS self) ->
  (n ∈ events (aggregate self) <-> lane_change_adds n)
  /\ (m ∈ names_lane_change -> (m ∉ handed_in CP tg sm CS self) ->
      n ∈ events (aggregate self) -> m ∈ events (aggregate self) -> n = m).
Proof.
  intros Hinit Hpassive.
  destruct (update_events_running self Hinit Hpassive)
    as (x & -> & Hk & Hev & _).
  assert (Hone : forall e, e ∈ names_lane_change ->
                   (e ∉ handed_in CP tg sm CS self) ->
                   (e ∈ events (checks x) <-> lane_change_adds e)).
  { intros e He Hext. unfold names_lane_change in He.
    rewrite !elem_of_cons, elem_of_nil in He.
    destruct He as [-> | [-> | [-> | [-> | [-> | [-> | []]]]]]];
      destruct (not_handed_in _ self Hext ltac:(discriminate))
        as (Hopen & Hdm & Hcs);
      rewrite <- Hev in Hopen;
      match goal with
      | |- ?n ∈ _ <-> _ =>
          assert (Hafter : writes (fun e => e <> n)
                             (events_lane_change tg sm CS
                                (events_calibration sm
                                   (before_calibration x)))
                             (checks x))
            by other_parts;
          assert (Hbefore : writes (fun e => e <> n) x
                              (events_calibration sm (before_calibration x)))
            by other_parts;
          rewrite (writes_other _ _ _ Hafter), events_lane_change_member,
            (writes_other _ _ _ Hbefore)
      end; tauto. }
  intros Hn Hext. split; [now apply Hone |].
  intros Hm Hext' Hin Him.
  apply lane_change_exclusive; [now apply (Hone n) | now apply (Hone m)].
Qed.

End Aggregate.
End Writes.


(** ** Invariants of the control loop *)

Section LoopInvariants.

Variable EVENTS : EventName -> list ET.t.
Variable CP : CarParams.

Local Abbreviation loop := (run EVENTS CP).
Local Abbreviation cycle := (step EVENTS CP).

(** The test of the initialisation gate of [data_sample]. *)
Local Abbreviation gate_open CS sm :=
  (canValid CS && all_checks sm || init_timed_out sm
   || SIMULATION CP && negb (REPLAY CP)).

(** The fields a transition does not write. *)
Local Abbreviation same_bookkeeping self x :=
  (initialized x = initialized self
   /\ mismatch_counter x = mismatch_counter self
   /\ cruise_mismatch_counter x = cruise_mismatch_counter self
   /\ static_events x = static_events self
   /\ startup_event x = startup_event self
   /\ CS_prev x = CS_prev self).

Lemma dispatch_bookkeeping (self : Controls) :
  same_bookkeeping self (transition_dispatch EVENTS self).
Proof.
  unfold transition_dispatch, transition_engaged, transition_disabled,
    alert_append.
  cbv zeta.
  repeat match goal with
    | |- context [if ?b then _ else _] => destruct b
    end; repeat split.
Qed.

Lemma transition_bookkeeping (aol : bool) (self : Controls) :
  same_bookkeeping self (state_transition EVENTS aol self).
Proof.
  unfold state_transition, alert_append. cbv zeta.
  destruct aol; cbn [active set_active];
    match goal with |- context [if ?b then _ else _] => destruct b end;
    cbn [initialized mismatch_counter cruise_mismatch_counter static_events
         startup_event CS_prev set_current_alert_types set_active
         set_enabled];
    match goal with
    | |- context [transition_dispatch EVENTS ?s] =>
        destruct (dispatch_bookkeeping s) as (-> & -> & -> & -> & -> & ->)
    end; repeat split.
Qed.

(** A user or immediate disable seen outside [disabled] ends the transition
    in [disabled] with both flags down. *)
Lemma transition_hard_disable (aol : bool) (self : Controls) :
  state self <> State.disabled ->
  Events_contains EVENTS self ET.USER_DISABLE = true
  \/ Events_contains EVENTS self ET.IMMEDIATE_DISABLE = true ->
  state (state_transition EVENTS aol self) = State.disabled
  /\ enabled (state_transition EVENTS aol self) = false
  /\ active (state_transition EVENTS aol self) = false.
Proof.
  intros Hs Hd.
  destruct (transition_flags_eq EVENTS aol self) as [-> ->].
  assert (Hst : state (state_transition EVENTS aol self) = State.disabled).
  { destruct (transition_after_dispatch EVENTS aol self) as (-> & _ & _).
    unfold transition_dispatch.
    cbn [state set_soft_disable_timer set_current_alert_types].
    destruct (bool_decide_reflect (state self <> State.disabled)) as [_ | n];
      [| contradiction].
    change (Events_contains EVENTS
              (set_current_alert_types [ET.PERMANENT]
                 (set_soft_disable_timer
                    (Z.max 0 (soft_disable_timer self - 1)) self)))
      with (Events_contains EVENTS self).
    destruct (Events_contains EVENTS self ET.USER_DISABLE); [reflexivity |].
    destruct Hd as [Hd | ->]; [discriminate Hd | reflexivity]. }
  rewrite Hst. split; [reflexivity |]. split; reflexivity.
Qed.

(** What [data_sample] does besides counting mismatches: it opens the
    initialisation gate, and only then, in replay, may set the state. *)
Lemma data_sample_gate (CS : CarState) (sm : SubMaster) (self : Controls) :
  let x := data_sample CP CS sm self in
  initialized x = initialized self || gate_open CS sm
  /\ state x
     = (if negb (initialized self) && gate_open CS sm && REPLAY CP
           && existsb controlsAllowed (pandaStates sm)
        then State.enabled else state self)
  /\ active x = active self
  /\ events x = events self
  /\ static_events x = static_events self
  /\ startup_event x = startup_event self
  /\ current_alert_types x = current_alert_types self
  /\ cruise_mismatch_counter x = cruise_mismatch_counter self
  /\ CS_prev x = CS_prev self.
Proof.
  cbv zeta. unfold data_sample, set_initial_state. cbv zeta.
  destruct self as [init st en act timer counter cruise evs static alerts
                      startup prev fcw].
  cbn [initialized enabled].
  generalize (gate_open CS sm). intros gate.
  destruct gate, (REPLAY CP), init, en,
    (existsb controlsAllowed (pandaStates sm)),
    (controls_not_allowed sm); cbn; repeat split.
Qed.

(** [update_events] leaves the alert types alone. *)
Lemma update_events_alert_types tg fp sm CS (self : Controls) :
  current_alert_types (update_events EVENTS CP tg fp sm CS self)
  = current_alert_types self.
Proof.
  destruct (update_events_opening EVENTS CP tg fp sm CS self)
    as (x & -> & _ & _ & _ & <- & _).
  destruct (negb (initialized x)); [reflexivity |].
  destruct (passive CP); [reflexivity |].
  assert (Hw : writes (fun _ => True) x
                 (update_events_checks EVENTS CP tg fp sm CS x)).
  { apply update_events_checks_writes; intros;
      apply Forall_forall; intros; exact I. }
  apply Hw.
Qed.

(** One cycle, in terms of its parts. *)
Local Abbreviation sampled cy self :=
  (data_sample CP (cy_CS cy) (cy_sm cy) self).
Local Abbreviation aggregated cy self :=
  (update_events EVENTS CP (cy_toggles cy) (cy_frog cy) (cy_sm cy)
     (cy_CS cy) (sampled cy self)).

Lemma step_parts (cy : Cycle) (self : Controls) :
  let y := aggregated cy self in
  exists z,
    (z = if negb (passive CP) && initialized y
         then state_transition EVENTS (cy_alwaysOnLateral cy) y else y)
    /\ initialized (cycle cy self) = initialized z
    /\ state (cycle cy self) = state z
    /\ enabled (cycle cy self) = enabled z
    /\ active (cycle cy self) = active z
    /\ soft_disable_timer (cycle cy self) = soft_disable_timer z
    /\ mismatch_counter (cycle cy self) = mismatch_counter z
    /\ cruise_mismatch_counter (cycle cy self) = cruise_mismatch_counter z
    /\ static_events (cycle cy self) = static_events z
    /\ startup_event (cycle cy self) = startup_event z
    /\ current_alert_types (cycle cy self) = current_alert_types z
    /\ CS_prev (cycle cy self) = cy_CS cy.
Proof.
  cbv zeta. eexists. split; [reflexivity |].
  unfold step. cbv zeta. repeat split.
Qed.

(** The initialisation flag after a cycle. *)
Lemma step_initialized (cy : Cycle) (self : Controls) :
  initialized (cycle cy self)
  = initialized self || gate_open (cy_CS cy) (cy_sm cy).
Proof.
  destruct (step_parts cy self) as (z & Hz & -> & _).
  destruct (data_sample_gate (cy_CS cy) (cy_sm cy) self) as (<- & _).
  destruct (update_events_keeps EVENTS CP (cy_toggles cy) (cy_frog cy)
              (cy_sm cy) (cy_CS cy) (sampled cy self)) as (<- & _).
  rewrite Hz.
  destruct (negb (passive CP) && initialized (aggregated cy self));
    [| reflexivity].
  apply transition_bookkeeping.
Qed.

(** X23. Initialisation. A cycle ends initialised exactly when it started so or
    the gate opened in it: CAN valid and every subsystem check passing, or
    the initialisation timeout, or simulation outside replay. Once
    initialised, the loop stays initialised. *)
Theorem initialization_gate (cy : Cycle) (cycles : list Cycle)
  (self : Controls) :
  initialized (cycle cy self)
  = initialized self || gate_open (cy_CS cy) (cy_sm cy)
  /\ (initialized self = true -> initialized (loop cycles self) = true).
Proof.
  split; [apply step_initialized |].
  revert self. induction cycles as [| c rest IH]; intros self Hi;
    cbn [run]; [exact Hi |].
  apply IH. rewrite step_initialized, Hi. reflexivity.
Qed.


Lemma enabled_states_spec (s : State.t) :
  bool_decide (s ∈ ENABLED_STATES) = true <-> s <> State.disabled.
Proof.
  rewrite bool_decide_eq_true. unfold ENABLED_STATES, ACTIVE_STATES.
  destruct s; rewrite ?elem_of_cons, ?elem_of_nil; split; intros;
    try congruence; try tauto; intuition congruence.
Qed.

Lemma active_states_spec (s : State.t) :
  bool_decide (s ∈ ACTIVE_STATES) = true
  <-> s <> State.disabled /\ s <> State.preEnabled.
Proof.
  rewrite bool_decide_eq_true. unfold ACTIVE_STATES.
  destruct s; rewrite ?elem_of_cons, ?elem_of_nil; split; intros;
    try congruence; try tauto; intuition congruence.
Qed.

(** The flags are those of the state. *)
Local Abbreviation flags_exact self :=
  (enabled self = bool_decide (state self ∈ ENABLED_STATES)
   /\ active self = bool_decide (state self ∈ ACTIVE_STATES)).

(** What holds of the flags between two cycles: they are those of the state
    whenever the loop is engaged, and outside replay always; engagement
    needs initialisation and is not for dashcam mode. *)
Local Abbreviation sound self :=
  ((enabled self = true ->
    initialized self = true /\ passive CP = false /\ flags_exact self)
   /\ (enabled self = false -> active self = false)
   /\ (REPLAY CP = false -> flags_exact self)).

Lemma step_sound (cy : Cycle) (self : Controls) :
  sound self -> sound (cycle cy self).
Proof.
  intros (HA & HB & HC).
  destruct (step_parts cy self)
    as (z & Hz & -> & -> & -> & -> & _).
  destruct (data_sample_fields CP (cy_CS cy) (cy_sm cy) self)
    as (He & _ & Hi & _).
  destruct (data_sample_gate (cy_CS cy) (cy_sm cy) self)
    as (Hg & Hs & Ha & _).
  destruct (update_events_keeps EVENTS CP (cy_toggles cy) (cy_frog cy)
              (cy_sm cy) (cy_CS cy) (sampled cy self))
    as (Hi' & Hs' & He' & Ha' & _).
  destruct (negb (passive CP) && initialized (aggregated cy self)) eqn:Hrun;
    subst z.
  - apply andb_true_iff in Hrun as [Hp Hu]. apply negb_true_iff in Hp.
    pose proof (transition_flags_eq EVENTS (cy_alwaysOnLateral cy)
                  (aggregated cy self)) as Hf.
    destruct (transition_bookkeeping (cy_alwaysOnLateral cy)
                (aggregated cy self)) as (-> & _).
    split; [intros _; auto |]. split; [| intros _; exact Hf].
    destruct Hf as [Hf ->]. rewrite Hf. intros Hd.
    match goal with |- ?b = false => destruct b eqn:Hact end;
      [| reflexivity].
    apply active_states_spec in Hact as [Hact _].
    apply enabled_states_spec in Hact. congruence.
  - rewrite He', He, Ha', Ha, Hs', Hi'.
    destruct (enabled self) eqn:Hen.
    + destruct (HA eq_refl) as (Hinit & Hp & _).
      destruct (Hi Hinit) as [Hinit' _].
      rewrite Hi', Hinit', Hp in Hrun. discriminate Hrun.
    + split; [discriminate |]. split; [exact HB |].
      intros Hr. rewrite Hs, Hr, !andb_false_r. cbn. now apply HC.
Qed.

Lemma run_sound (cycles : list Cycle) (self : Controls) :
  sound self -> sound (loop cycles self).
Proof.
  revert self. induction cycles as [| cy rest IH]; intros self H;
    cbn [run]; [exact H |].
  apply IH, step_sound, H.
Qed.

Lemma init_sound (sounds_available car_recognized : bool)
  (startup : option EventName) :
  sound (Controls_init CP sounds_available car_recognized startup).
Proof. cbn. repeat split; discriminate. Qed.

(** X24. The flags over the loop. After any number of cycles from [__init__]:
    an enabled loop is initialised, not in dashcam mode and not in state
    [disabled]; an active one is enabled and past [preEnabled]; outside
    replay the converse holds too, so the flags are exactly those of the
    state. *)
Theorem flags_follow_state (sounds_available car_recognized : bool)
  (startup : option EventName) (cycles : list Cycle) :
  let self :=
    loop cycles (Controls_init CP sounds_available car_recognized startup) in
  (enabled self = true ->
   initialized self = true /\ passive CP = false
   /\ state self <> State.disabled)
  /\ (active self = true ->
      enabled self = true /\ state self <> State.preEnabled)
  /\ (REPLAY CP = false ->
      (enabled self = true <-> state self <> State.disabled)
      /\ (active self = true
          <-> state self <> State.disabled
              /\ state self <> State.preEnabled)).
Proof.
  intros self.
  destruct (run_sound cycles _
              (init_sound sounds_available car_recognized startup))
    as (HA & HB & HC).
  fold self in HA, HB, HC.
  split; [| split].
  - intros He. destruct (HA He) as (Hi & Hp & Hf & _).
    repeat split; [exact Hi | exact Hp |].
    apply enabled_states_spec. congruence.
  - intros Ha. destruct (enabled self) eqn:He;
      [| rewrite (HB eq_refl) in Ha; discriminate Ha].
    split; [reflexivity |].
    destruct (HA eq_refl) as (_ & _ & _ & Hf).
    apply (active_states_spec (state self)). congruence.
  - intros Hr. destruct (HC Hr) as [-> ->].
    split; [apply enabled_states_spec | apply active_states_spec].
Qed.

(** What holds between two cycles in dashcam mode. *)
Local Abbreviation parked self :=
  (enabled self = false /\ active self = false
   /\ soft_disable_timer self = 0 /\ mismatch_counter self = 0
   /\ current_alert_types self = [ET.PERMANENT]
   /\ (state self = State.disabled
       \/ (REPLAY CP = true /\ state self = State.enabled))).

Lemma step_parked (cy : Cycle) (self : Controls) :
  passive CP = true -> parked self -> parked (cycle cy self).
Proof.
  intros Hp (He & Ha & Ht & Hc & Hal & Hs).
  destruct (step_parts cy self)
    as (z & Hz & _ & -> & -> & -> & -> & -> & _ & _ & _ & -> & _).
  rewrite Hp in Hz. cbn in Hz. subst z.
  destruct (data_sample_fields CP (cy_CS cy) (cy_sm cy) self)
    as (He1 & Ht1 & _ & Hc1).
  destruct (data_sample_gate (cy_CS cy) (cy_sm cy) self)
    as (_ & Hs1 & Ha1 & _ & _ & _ & Hal1 & _).
  destruct (update_events_keeps EVENTS CP (cy_toggles cy) (cy_frog cy)
              (cy_sm cy) (cy_CS cy) (sampled cy self))
    as (_ & -> & -> & -> & -> & -> & _).
  rewrite update_events_alert_types, He1, Ha1, Ht1, Hc1, Hal1, He.
  repeat split; try assumption.
  rewrite Hs1.
  destruct (negb (initialized self) && gate_open (cy_CS cy) (cy_sm cy)
            && REPLAY CP
            && existsb controlsAllowed (pandaStates (cy_sm cy))) eqn:Hg;
    [| exact Hs].
  right. split; [| reflexivity].
  apply andb_true_iff in Hg as [Hg _].
  now apply andb_true_iff in Hg as [_ Hg].
Qed.

(** X25. Dashcam mode. With a passive car the loop never engages: after any
    number of cycles from [__init__] both flags are down, the soft-disable
    timer and the mismatch counter are 0 and the alert types are
    [PERMANENT] alone; the state is [disabled], or [enabled] when replay
    set it at initialisation. *)
Theorem dashcam_never_engages (sounds_available car_recognized : bool)
  (startup : option EventName) (cycles : list Cycle) :
  passive CP = true ->
  let self :=
    loop cycles (Controls_init CP sounds_available car_recognized startup) in
  enabled self = false /\ active self = false
  /\ soft_disable_timer self = 0 /\ mismatch_counter self = 0
  /\ current_alert_types self = [ET.PERMANENT]
  /\ (state self = State.disabled
      \/ (REPLAY CP = true /\ state self = State.enabled)).
Proof.
  intros Hp. cbv zeta.
  assert (H0 : parked
                 (Controls_init CP sounds_available car_recognized startup))
    by (cbn; repeat split; now left).
  revert H0.
  generalize (Controls_init CP sounds_available car_recognized startup).
  induction cycles as [| cy rest IH]; intros self H; cbn [run]; [exact H |].
  apply IH, step_parked; assumption.
Qed.


(** An event of a category in the cycle's events. *)
Lemma contains_event (self : Controls) (n : EventName) (t : ET.t) :
  n ∈ events self -> t ∈ EVENTS n -> Events_contains EVENTS self t = true.
Proof.
  intros Hn Ht. unfold Events_contains. apply existsb_exists.
  exists n. split; [now apply list_elem_of_In |].
  unfold has_type. now apply bool_decide_eq_true.
Qed.

(** A cycle of an initialised loop, not in dashcam mode, that starts in
    another state than [disabled] and aggregates an event of category
    [USER_DISABLE] or [IMMEDIATE_DISABLE] ends in [disabled] with both
    flags down. *)
Lemma step_hard_disable (cy : Cycle) (self : Controls) (n : EventName) :
  initialized self = true -> passive CP = false ->
  state self <> State.disabled ->
  n ∈ events (aggregated cy self) ->
  ET.USER_DISABLE ∈ EVENTS n \/ ET.IMMEDIATE_DISABLE ∈ EVENTS n ->
  state (cycle cy self) = State.disabled
  /\ enabled (cycle cy self) = false
  /\ active (cycle cy self) = false.
Proof.
  intros Hinit Hp Hs Hn Ht.
  destruct (step_parts cy self) as (z & Hz & _ & -> & -> & -> & _).
  destruct (data_sample_fields CP (cy_CS cy) (cy_sm cy) self)
    as (_ & _ & Hi & _).
  destruct (Hi Hinit) as [Hi1 Hs1].
  destruct (update_events_keeps EVENTS CP (cy_toggles cy) (cy_frog cy)
              (cy_sm cy) (cy_CS cy) (sampled cy self))
    as (Hi' & Hs' & _).
  rewrite Hp, Hi', Hi1 in Hz. cbn in Hz. subst z.
  apply transition_hard_disable.
  - now rewrite Hs', Hs1.
  - destruct Ht as [Ht | Ht]; [left | right];
      exact (contains_event _ n _ Hn Ht).
Qed.

(** X26. Disengagement within the cycle. In an initialised loop, not in dashcam
    mode and not in state [disabled], a cycle whose aggregated events hold
    one of category [USER_DISABLE] or [IMMEDIATE_DISABLE] ends in
    [disabled], neither enabled nor active, whatever [state_control] and
    [publish_logs] add afterwards; and the next cycle, whatever it reads,
    starts by resetting the mismatch counter. *)
Theorem disabling_event_disengages (cy next : Cycle) (self : Controls)
  (n : EventName) :
  initialized self = true -> passive CP = false ->
  state self <> State.disabled ->
  n ∈ events (aggregated cy self) ->
  ET.USER_DISABLE ∈ EVENTS n \/ ET.IMMEDIATE_DISABLE ∈ EVENTS n ->
  state (cycle cy self) = State.disabled
  /\ enabled (cycle cy self) = false
  /\ active (cycle cy self) = false
  /\ mismatch_counter (sampled next (cycle cy self)) = 0.
Proof.
  intros Hinit Hp Hs Hn Ht.
  destruct (step_hard_disable cy self n Hinit Hp Hs Hn Ht)
    as (Hst & Hen & Hact).
  repeat split; try assumption.
  destruct (data_sample_fields CP (cy_CS next) (cy_sm next) (cycle cy self))
    as (_ & _ & _ & ->).
  now rewrite Hen.
Qed.

(** What holds of the mismatch counter between two cycles. *)
Local Abbreviation capped self :=
  (0 <= mismatch_counter self <= 200
   /\ (enabled self = true -> mismatch_counter self < 200)).

Lemma step_capped (cy : Cycle) (self : Controls) :
  ET.IMMEDIATE_DISABLE ∈ EVENTS EventName.controlsMismatch ->
  sound self -> capped self -> capped (cycle cy self).
Proof.
  intros Himm (HA & _) (Hc & Hlt).
  destruct (data_sample_fields CP (cy_CS cy) (cy_sm cy) self)
    as (_ & _ & Hi & Hm).
  destruct (update_events_keeps EVENTS CP (cy_toggles cy) (cy_frog cy)
              (cy_sm cy) (cy_CS cy) (sampled cy self))
    as (Hi' & _ & _ & _ & _ & Hm' & _).
  assert (Hcount : mismatch_counter (cycle cy self)
                   = mismatch_counter (sampled cy self)).
  { destruct (step_parts cy self)
      as (z & Hz & _ & _ & _ & _ & _ & -> & _).
    rewrite <- Hm'. subst z.
    destruct (negb (passive CP) && initialized (aggregated cy self));
      [| reflexivity].
    apply transition_bookkeeping. }
  rewrite Hcount, Hm.
  destruct (enabled self) eqn:Hen; [| split; [lia | intros _; lia]].
  specialize (Hlt eq_refl).
  destruct (HA eq_refl) as (Hinit & Hp & Hf & _).
  destruct (controls_not_allowed (cy_sm cy)) eqn:Hna;
    [| split; [lia | intros _; lia]].
  split; [lia |]. intros He.
  destruct (Z.eq_dec (mismatch_counter self) 199) as [H199 | ?]; [| lia].
  exfalso.
  assert (Hin : EventName.controlsMismatch ∈ events (aggregated cy self)).
  { apply update_events_threshold.
    - now apply Hi.
    - exact Hp.
    - apply controls_not_allowed_spec in Hna as (ps & Hps & _).
      intros Hnil. rewrite Hnil in Hps. now apply elem_of_nil in Hps.
    - rewrite Hm. lia. }
  assert (Hs : state self <> State.disabled)
    by (apply enabled_states_spec; congruence).
  destruct (step_hard_disable cy self _ Hinit Hp Hs Hin (or_intror Himm))
    as (_ & Hoff & _).
  congruence.
Qed.

(** X27. The cap on the mismatch counter. When [controlsMismatch] is an
    immediate disable, after any number of cycles from [__init__] the
    mismatch counter is between 0 and 200, and below 200 while the loop is
    enabled: the cycle in which it reaches 200 disengages. *)
Theorem mismatch_counter_capped (sounds_available car_recognized : bool)
  (startup : option EventName) (cycles : list Cycle) :
  ET.IMMEDIATE_DISABLE ∈ EVENTS EventName.controlsMismatch ->
  let self :=
    loop cycles (Controls_init CP sounds_available car_recognized startup) in
  0 <= mismatch_counter self <= 200
  /\ (enabled self = true -> mismatch_counter self < 200).
Proof.
  intros Himm. cbv zeta.
  assert (H0 : sound
                 (Controls_init CP sounds_available car_recognized startup)
               /\ capped
                    (Controls_init CP sounds_available car_recognized
                       startup)).
  { split; [apply init_sound |]. cbn. split; [lia | discriminate]. }
  revert H0.
  generalize (Controls_init CP sounds_available car_recognized startup).
  induction cycles as [| cy rest IH]; intros self [Hs Hc]; cbn [run];
    [exact Hc |].
  apply IH. split; [now apply step_sound | now apply step_capped].
Qed.

(** The startup event over a cycle. *)
Lemma step_startup_event (cy : Cycle) (self : Controls) :
  startup_event (cycle cy self) = None.
Proof.
  destruct (step_parts cy self)
    as (z & Hz & _ & _ & _ & _ & _ & _ & _ & _ & -> & _).
  assert (Hy : startup_event (aggregated cy self) = None)
    by apply update_events_startup.
  subst z.
  destruct (negb (passive CP) && initialized (aggregated cy self));
    [| exact Hy].
  destruct (transition_bookkeeping (cy_alwaysOnLateral cy)
              (aggregated cy self)) as (_ & _ & _ & _ & -> & _).
  exact Hy.
Qed.

(** X28. The startup event is shown once. The first cycle consumes it: unless
    joystick mode drops it, it is among that cycle's events, and after one
    cycle or more none is left to show. *)
Theorem startup_event_once (cy : Cycle) (cycles : list Cycle)
  (self : Controls) :
  startup_event (loop (cy :: cycles) self) = None
  /\ (joystick_mode (cy_toggles cy) = false ->
      forall e, startup_event self = Some e -> e ∈ events (cycle cy self)).
Proof.
  split.
  - cbn [run]. generalize (step_startup_event cy self).
    generalize (cycle cy self).
    induction cycles as [| c rest IH]; intros x Hx; cbn [run]; [exact Hx |].
    apply IH, step_startup_event.
  - intros Hj e He. rewrite step_events. apply elem_of_app. left.
    destruct (data_sample_gate (cy_CS cy) (cy_sm cy) self)
      as (_ & _ & _ & _ & _ & Hs & _).
    apply (update_events_startup EVENTS CP (cy_toggles cy) (cy_frog cy)
             (cy_sm cy) (cy_CS cy) (sampled cy self)); [exact Hj |].
    now rewrite Hs.
Qed.

End LoopInvariants.


(** ** More on the sanitizer *)

Section SanitizerLog.

Local Abbreviation non_finite attr :=
  (SupportsFloat attr && negb (isfinite attr)).

(** What an entry of the log shows: the value of the field it names, in
    the command as it was when the entry was written, offends. *)
Local Abbreviation shows_offence e :=
  (exists attr, log_payload e !! log_field e = Some attr
                /\ non_finite attr = true).

(** The log the loop starts with is only appended to. *)
Lemma sanitize_fold_log (fields : list string) (a : gmap string Attr)
  (log : list LogEntry) :
  foldl sanitize_field (a, log) fields
  = ((foldl sanitize_field (a, []) fields).1,
     log ++ (foldl sanitize_field (a, []) fields).2).
Proof.
  revert a log. induction fields as [| q fields IH]; intros a log;
    cbn [foldl].
  - cbn. now rewrite app_nil_r.
  - destruct (sanitize_field_cases a log q)
      as [(aq & Hq & Hnf & ->) | (Hfin & ->)];
      destruct (sanitize_field_cases a [] q)
        as [(aq' & Hq' & Hnf' & ->) | (Hfin' & ->)].
    + rewrite IH. rewrite (IH _ ([] ++ _)). cbn [fst snd app].
      now rewrite <- app_assoc.
    + rewrite (Hfin' _ Hq) in Hnf. discriminate Hnf.
    + rewrite (Hfin _ Hq') in Hnf'. discriminate Hnf'.
    + apply IH.
Qed.

(** A field is in the command after the loop exactly when it was before. *)
Lemma sanitize_fold_none (fields : list string) (a : gmap string Attr)
  (log : list LogEntry) (p : string) :
  a !! p = None -> (foldl sanitize_field (a, log) fields).1 !! p = None.
Proof.
  revert a log. induction fields as [| q fields IH]; intros a log Hp;
    cbn [foldl]; [exact Hp |].
  destruct (sanitize_field_cases a log q)
    as [(aq & Hq & Hnf & ->) | (Hfin & ->)]; apply IH; [| exact Hp].
  rewrite lookup_insert_ne; [exact Hp |]. intros ->. congruence.
Qed.

(** No field of the schema offends after the loop. *)
Lemma sanitize_fold_clean (fields : list string) (a : gmap string Attr)
  (p : string) (attr : Attr) :
  p ∈ fields ->
  (foldl sanitize_field (a, []) fields).1 !! p = Some attr ->
  non_finite attr = false.
Proof.
  intros Hin Hp.
  destruct (sanitize_fold fields a []) as [Hv _]. cbn zeta in Hv.
  destruct (a !! p) as [old |] eqn:Hold.
  - rewrite (Hv p old Hold), bool_decide_eq_true_2 in Hp by exact Hin.
    cbn [andb] in Hp.
    destruct (SupportsFloat old && negb (isfinite old)) eqn:Hnf;
      injection Hp as <-; [reflexivity | exact Hnf].
  - rewrite (sanitize_fold_none fields a [] p Hold) in Hp. discriminate Hp.
Qed.

(** A loop over a command in which no field of the schema offends changes
    nothing and logs nothing. *)
Lemma sanitize_fold_fixed (fields : list string) (a : gmap string Attr) :
  (forall p attr, p ∈ fields -> a !! p = Some attr ->
                  non_finite attr = false) ->
  foldl sanitize_field (a, []) fields = (a, []).
Proof.
  induction fields as [| q fields IH]; intros Hclean; cbn [foldl];
    [reflexivity |].
  destruct (sanitize_field_cases a [] q)
    as [(aq & Hq & Hnf & _) | (_ & ->)].
  - rewrite (Hclean q aq) in Hnf by (auto; apply elem_of_cons; auto).
    discriminate Hnf.
  - apply IH. intros p attr Hin. apply Hclean, elem_of_cons. now right.
Qed.

(** X29. The sanitizer is idempotent: run on its own result it leaves the
    command as it is and logs nothing. *)
Theorem sanitize_actuators_idempotent (ACTUATOR_FIELDS : list string)
  (actuators : gmap string Attr) :
  sanitize_actuators ACTUATOR_FIELDS
    (sanitize_actuators ACTUATOR_FIELDS actuators).1
  = ((sanitize_actuators ACTUATOR_FIELDS actuators).1, []).
Proof.
  unfold sanitize_actuators. apply sanitize_fold_fixed.
  intros p attr Hin Hp. exact (sanitize_fold_clean _ _ _ _ Hin Hp).
Qed.

(** X30. The log of the sanitizer names a field at most once, names the fields
    in the order of [ACTUATOR_FIELDS], and each entry carries the command
    as it was when the field was found: the field it names offends in
    it. *)
Theorem sanitize_log_entries (ACTUATOR_FIELDS : list string)
  (actuators : gmap string Attr) :
  let log := (sanitize_actuators ACTUATOR_FIELDS actuators).2 in
  NoDup (log_field <$> log)
  /\ (log_field <$> log) `sublist_of` ACTUATOR_FIELDS
  /\ Forall (fun e => shows_offence e) log.
Proof.
  cbv zeta. unfold sanitize_actuators. revert actuators.
  induction ACTUATOR_FIELDS as [| q fields IH]; intros a; cbn [foldl].
  - cbn. split; [apply NoDup_nil_2 |].
    split; [apply sublist_nil | apply Forall_nil_2].
  - destruct (sanitize_field_cases a [] q)
      as [(aq & Hq & Hnf & ->) | (Hfin & ->)].
    + rewrite sanitize_fold_log. cbn [fst snd app fmap list_fmap log_field].
      destruct (IH (<[q := zero]> a)) as (Hnd & Hsub & Hall).
      split; [| split].
      * apply NoDup_cons. split; [| exact Hnd].
        intros Hin.
        destruct (sanitize_fold fields (<[q := zero]> a) []) as [_ Hl].
        cbn zeta in Hl. apply Hl in Hin as [Hin | (_ & attr & Hz & Hattr)].
        -- now apply elem_of_nil in Hin.
        -- rewrite lookup_insert_eq in Hz. injection Hz as <-.
           discriminate Hattr.
      * now apply sublist_skip.
      * apply Forall_cons. split; [| exact Hall].
        exists aq. now split.
    + destruct (IH a) as (Hnd & Hsub & Hall).
      split; [exact Hnd |]. split; [| exact Hall].
      now apply sublist_cons.
Qed.

End SanitizerLog.

(** ** The further properties on concrete inputs *)

(** Enabled, brake pedal: the transition to [disabled] has its cause. *)
Lemma hard_disable_causes_witness :
  let self := Controls_sample State.enabled 0 0 [EventName.pedalPressed] in
  Events_contains EVENTS_sample self ET.USER_DISABLE = true
  \/ Events_contains EVENTS_sample self ET.IMMEDIATE_DISABLE = true
  \/ (state self = State.softDisabling
      /\ Events_contains EVENTS_sample self ET.SOFT_DISABLE = true
      /\ soft_disable_timer self <= 1).
Proof.
  apply (hard_disable_causes EVENTS_sample false
           (Controls_sample State.enabled 0 0 [EventName.pedalPressed]));
    [discriminate | reflexivity].
Defined.

(** Enabled, overheating: [softDisabling] is entered from [enabled]. *)
Lemma transition_graph_witness :
  let self := Controls_sample State.enabled 0 0 [EventName.overheat] in
  state self = State.enabled \/ state self = State.overriding
  \/ state self = State.softDisabling.
Proof.
  apply (proj1 (transition_graph EVENTS_sample false
                  (Controls_sample State.enabled 0 0 [EventName.overheat]))).
  reflexivity.
Defined.

(** Soft-disabling with five ticks left. *)
Lemma timer_counts_down_witness :
  soft_disable_timer
    (state_transition EVENTS_sample false
       (Controls_sample State.softDisabling 5 0 [EventName.overheat]))
  = Z.max 0 (5 - 1).
Proof.
  apply (timer_counts_down EVENTS_sample false
           (Controls_sample State.softDisabling 5 0 [EventName.overheat])).
  left. reflexivity.
Defined.

(** Soft-disabling, the condition gone. *)
Lemma soft_disabling_recovers_witness :
  let self := Controls_sample State.softDisabling 5 0 [] in
  state (state_transition EVENTS_sample false self) = State.enabled
  /\ soft_disable_timer (state_transition EVENTS_sample false self)
     = Z.max 0 (5 - 1).
Proof.
  apply (soft_disabling_recovers EVENTS_sample false
           (Controls_sample State.softDisabling 5 0 []));
    reflexivity.
Defined.

(** Four cycles with the brake held at standstill. *)
Lemma pre_enabled_waits_witness :
  state (state_transition_iter EVENTS_sample 4 false
           (Controls_sample State.preEnabled 0 0
              [EventName.preEnableStandstill]))
  = State.preEnabled.
Proof. apply pre_enabled_waits; reflexivity. Defined.

(** Overheating from [enabled]: the eleventh cycle, and the last. *)
Lemma soft_disable_grace_witness :
  let self := Controls_sample State.enabled 0 0 [EventName.overheat] in
  (state (state_transition_iter EVENTS_sample 11 false self)
   = State.softDisabling
   /\ soft_disable_timer (state_transition_iter EVENTS_sample 11 false self)
      = 300 - Z.of_nat 10)
  /\ state (state_transition_iter EVENTS_sample 301 false self)
     = State.disabled.
Proof.
  cbv zeta.
  pose proof (soft_disable_grace EVENTS_sample 10 false
                (Controls_sample State.enabled 0 0 [EventName.overheat])
                eq_refl eq_refl eq_refl eq_refl) as [Hten Hlast].
  split; [apply Hten; apply Nat.ltb_lt; reflexivity | exact Hlast].
Defined.

(** Enabled with the accelerator pressed: no longitudinal control, the
    override is commanded. *)
Lemma long_active_or_override_witness :
  let self :=
    Controls_sample State.enabled 0 0 [EventName.gasPressedOverride] in
  CC_longActive EVENTS_sample CarParams_sample self
  = negb (cruiseControl_override CarParams_sample
            (CC_longActive EVENTS_sample CarParams_sample self) self).
Proof.
  apply (proj2 (proj2 (long_active_or_override EVENTS_sample CarParams_sample
                         (Controls_sample State.enabled 0 0
                            [EventName.gasPressedOverride]))));
    reflexivity.
Defined.

(** A personality parameter of 7 and a released button. *)
Lemma personality_range_witness :
  0 <= personality
         (update_personality CarParams_sample gap_released_cycle.1
            gap_released_cycle.2
            {| personality := 7; onroad_distance_pressed := false |}) < 3.
Proof.
  apply (proj1 (personality_range CarParams_sample gap_released_cycle.1
                  gap_released_cycle.2
                  {| personality := 7; onroad_distance_pressed := false |}));
    reflexivity.
Defined.

(** Three releases of the button from [1]. *)
Lemma personality_three_presses_witness :
  personality
    (run_personality CarParams_sample
       [gap_released_cycle; gap_released_cycle; gap_released_cycle]
       {| personality := 1; onroad_distance_pressed := false |})
  = 1 mod 3.
Proof.
  apply (proj1 (personality_three_presses CarParams_sample
                  gap_released_cycle gap_released_cycle gap_released_cycle
                  {| personality := 1; onroad_distance_pressed := false |}
                  eq_refl eq_refl eq_refl eq_refl eq_refl eq_refl eq_refl)).
Defined.

(** The onroad button held for three cycles, from [2]. *)
Lemma onroad_button_release_witness :
  personality
    (run_personality CarParams_sample
       (replicate 3 (onroad_cycle true) ++ [onroad_cycle false])
       {| personality := 2; onroad_distance_pressed := false |})
  = (2 - 1) mod 3.
Proof.
  apply (proj1 (proj2 (onroad_button_release CarParams_sample 2
                         {| personality := 2;
                            onroad_distance_pressed := false |}
                         eq_refl eq_refl))).
Defined.

(** Proves a membership, or its negation, between concrete names. *)
Ltac by_computation := apply (bool_decide_unpack _); vm_compute; exact I.

(** The first cycle after [__init__]: not initialised yet. *)
Lemma update_events_early_returns_witness :
  events (update_events EVENTS_sample CarParams_sample Toggles_sample
            FrogPilotChecks_sample (SubMaster_sample []) CarState_sample
            Controls_boot)
  = ["startup"%string; EventName.controlsInitializing].
Proof.
  exact (proj1 (update_events_early_returns EVENTS_sample CarParams_sample
                  Toggles_sample FrogPilotChecks_sample (SubMaster_sample [])
                  CarState_sample Controls_boot) eq_refl).
Defined.

(** A mismatch counter of 200 and one panda. *)
Lemma panda_events_witness :
  EventName.controlsMismatch
    ∈ events (update_events EVENTS_sample CarParams_sample Toggles_sample
                FrogPilotChecks_sample
                (SubMaster_sample [PandaState_sample true]) CarState_sample
                (set_mismatch_counter 200
                   (Controls_sample State.enabled 0 0 []))).
Proof.
  refine (proj2 (proj1 (panda_events EVENTS_sample CarParams_sample
                          Toggles_sample FrogPilotChecks_sample
                          (SubMaster_sample [PandaState_sample true])
                          CarState_sample
                          (set_mismatch_counter 200
                             (Controls_sample State.enabled 0 0 []))
                          eq_refl eq_refl) _) _);
    [by_computation |].
  exists 0%nat, (PandaState_sample true).
  split; [reflexivity |]. right. right. cbn. lia.
Defined.

(** The brake pressed while moving. *)
Lemma pedal_events_witness :
  EventName.pedalPressed
    ∈ events (update_events EVENTS_sample CarParams_sample Toggles_sample
                FrogPilotChecks_sample (SubMaster_sample [])
                CarState_braking (Controls_sample State.enabled 0 0 [])).
Proof.
  refine (proj2 (proj1 (pedal_events EVENTS_sample CarParams_sample
                          Toggles_sample FrogPilotChecks_sample
                          (SubMaster_sample []) CarState_braking
                          (Controls_sample State.enabled 0 0 [])
                          eq_refl eq_refl) _) _);
    [by_computation | reflexivity].
Defined.

(** An uncalibrated device. *)
Lemma calibration_events_witness :
  EventName.calibrationIncomplete
    ∈ events (update_events EVENTS_sample CarParams_sample Toggles_sample
                FrogPilotChecks_sample
                (SubMaster_condition ThermalStatus.green
                   CalStatus.uncalibrated LaneChangeState.off
                   LaneChangeDirection.none true)
                CarState_sample (Controls_sample State.enabled 0 0 [])).
Proof.
  refine (proj2 (proj1 (calibration_events EVENTS_sample CarParams_sample
                          Toggles_sample FrogPilotChecks_sample
                          (SubMaster_condition ThermalStatus.green
                             CalStatus.uncalibrated LaneChangeState.off
                             LaneChangeDirection.none true)
                          CarState_sample
                          (Controls_sample State.enabled 0 0 [])
                          eq_refl eq_refl) _) _);
    [by_computation | reflexivity].
Defined.

(** A CAN timeout. *)
Lemma can_events_witness :
  EventName.canBusMissing
    ∈ events (update_events EVENTS_sample CarParams_sample Toggles_sample
                FrogPilotChecks_sample (SubMaster_sample [])
                CarState_can_timeout (Controls_sample State.enabled 0 0 [])).
Proof.
  refine (proj2 (proj1 (can_events EVENTS_sample CarParams_sample
                          Toggles_sample FrogPilotChecks_sample
                          (SubMaster_sample []) CarState_can_timeout
                          (Controls_sample State.enabled 0 0 [])
                          eq_refl eq_refl) _) _);
    [by_computation | reflexivity].
Defined.

(** A failed subsystem check with every service alive and on time. *)
Lemma comm_issue_events_witness :
  let sm :=
    SubMaster_condition ThermalStatus.green CalStatus.calibrated
      LaneChangeState.off LaneChangeDirection.none false in
  (all_checks sm = false \/ can_rcv_timeout sm = true)
  /\ (all_alive sm = false \/ all_freq_ok sm = true).
Proof.
  refine (proj1 (comm_issue_events EVENTS_sample CarParams_sample
                   Toggles_sample FrogPilotChecks_sample
                   (SubMaster_condition ThermalStatus.green
                      CalStatus.calibrated LaneChangeState.off
                      LaneChangeDirection.none false)
                   CarState_sample (Controls_sample State.enabled 0 0 [])
                   eq_refl eq_refl) _ _);
    by_computation.
Defined.

(** The car's cruise control on for 601 cycles while disabled. *)
Lemma cruise_mismatch_events_witness :
  EventName.cruiseMismatch
    ∈ events (update_events EVENTS_sample CarParams_sample Toggles_sample
                FrogPilotChecks_sample (SubMaster_sample []) CarState_sample
                (set_cruise_mismatch_counter 600
                   (Controls_sample State.disabled 0 0 []))).
Proof.
  refine (proj2 (proj2 (cruise_mismatch_events EVENTS_sample CarParams_sample
                          Toggles_sample FrogPilotChecks_sample
                          (SubMaster_sample []) CarState_sample
                          (set_cruise_mismatch_counter 600
                             (Controls_sample State.disabled 0 0 []))
                          eq_refl eq_refl) _) _);
    [by_computation |].
  split; [reflexivity | vm_compute; reflexivity].
Defined.

(** A device in thermal danger. *)
Lemma device_events_witness :
  EventName.overheat
    ∈ events (update_events EVENTS_sample CarParams_sample Toggles_sample
                FrogPilotChecks_sample
                (SubMaster_condition ThermalStatus.danger
                   CalStatus.calibrated LaneChangeState.off
                   LaneChangeDirection.none true)
                CarState_sample (Controls_sample State.enabled 0 0 [])).
Proof.
  refine (proj2 (proj1 (device_events EVENTS_sample CarParams_sample
                          Toggles_sample FrogPilotChecks_sample
                          (SubMaster_condition ThermalStatus.danger
                             CalStatus.calibrated LaneChangeState.off
                             LaneChangeDirection.none true)
                          CarState_sample
                          (Controls_sample State.enabled 0 0 [])
                          eq_refl eq_refl) _) _);
    [by_computation | right; reflexivity].
Defined.

(** Before a lane change to the left, no blind spot, the lane wide
    enough. *)
Lemma lane_change_events_witness :
  EventName.preLaneChangeLeft
    ∈ events (update_events EVENTS_sample CarParams_sample Toggles_sample
                FrogPilotChecks_sample
                (SubMaster_condition ThermalStatus.green
                   CalStatus.calibrated LaneChangeState.preLaneChange
                   LaneChangeDirection.left true)
                CarState_sample (Controls_sample State.enabled 0 0 [])).
Proof.
  refine (proj2 (proj1 (lane_change_events EVENTS_sample CarParams_sample
                          Toggles_sample FrogPilotChecks_sample
                          (SubMaster_condition ThermalStatus.green
                             CalStatus.calibrated LaneChangeState.preLaneChange
                             LaneChangeDirection.left true)
                          CarState_sample
                          (Controls_sample State.enabled 0 0 [])
                          EventName.preLaneChangeLeft EventName.laneChange
                          eq_refl eq_refl _ _)) _);
    [by_computation | by_computation |].
  left. split; [reflexivity |]. right. left.
  repeat split; reflexivity.
Defined.

(** An initialised loop after 201 cycles. *)
Lemma initialization_gate_witness :
  initialized
    (run EVENTS_sample CarParams_sample cycles_mismatch_199
       (Controls_sample State.disabled 0 0 []))
  = true.
Proof.
  apply (proj2 (initialization_gate EVENTS_sample CarParams_sample
                  (Cycle_sample [] []) cycles_mismatch_199
                  (Controls_sample State.disabled 0 0 []))).
  reflexivity.
Defined.

(** The flags after 201 cycles, outside replay. *)
Lemma flags_follow_state_witness :
  let self :=
    run EVENTS_sample CarParams_sample cycles_mismatch_199
      (Controls_init CarParams_sample true true (Some "startup"%string)) in
  enabled self = true <-> state self <> State.disabled.
Proof.
  exact (proj1 (proj2 (proj2 (flags_follow_state EVENTS_sample
                                CarParams_sample true true
                                (Some "startup"%string) cycles_mismatch_199))
                 eq_refl)).
Defined.

(** Dashcam mode, the enable button pressed twice. *)
Lemma dashcam_never_engages_witness :
  let self :=
    run EVENTS_sample CarParams_passive
      [Cycle_sample ["buttonEnable"%string] [PandaState_sample true];
       Cycle_sample ["buttonEnable"%string] [PandaState_sample true]]
      (Controls_init CarParams_passive true true None) in
  enabled self = false /\ active self = false
  /\ soft_disable_timer self = 0 /\ mismatch_counter self = 0
  /\ current_alert_types self = [ET.PERMANENT]
  /\ (state self = State.disabled
      \/ (REPLAY CarParams_passive = true /\ state self = State.enabled)).
Proof.
  apply (dashcam_never_engages EVENTS_sample CarParams_passive true true None
           [Cycle_sample ["buttonEnable"%string] [PandaState_sample true];
            Cycle_sample ["buttonEnable"%string] [PandaState_sample true]]).
  reflexivity.
Defined.

(** Enabled, the cancel button in the car's events. *)
Lemma disabling_event_disengages_witness :
  let after :=
    step EVENTS_sample CarParams_sample
      (Cycle_sample ["buttonCancel"%string] [PandaState_sample true])
      (Controls_sample State.enabled 0 0 []) in
  state after = State.disabled /\ enabled after = false
  /\ active after = false
  /\ mismatch_counter
       (data_sample CarParams_sample
          (cy_CS (Cycle_sample [] [PandaState_sample false]))
          (cy_sm (Cycle_sample [] [PandaState_sample false])) after)
     = 0.
Proof.
  apply (disabling_event_disengages EVENTS_sample CarParams_sample
           (Cycle_sample ["buttonCancel"%string] [PandaState_sample true])
           (Cycle_sample [] [PandaState_sample false])
           (Controls_sample State.enabled 0 0 []) "buttonCancel"%string);
    [reflexivity | reflexivity | discriminate | by_computation |].
  left. by_computation.
Defined.

(** 200 cycles against a panda that does not allow controls. *)
Lemma mismatch_counter_capped_witness :
  let self :=
    run EVENTS_sample CarParams_sample
      (cycles_mismatch_199 ++ [Cycle_sample [] [PandaState_sample false]])
      (Controls_init CarParams_sample true true (Some "startup"%string)) in
  0 <= mismatch_counter self <= 200
  /\ (enabled self = true -> mismatch_counter self < 200).
Proof.
  apply (mismatch_counter_capped EVENTS_sample CarParams_sample true true
           (Some "startup"%string)
           (cycles_mismatch_199
              ++ [Cycle_sample [] [PandaState_sample false]])).
  by_computation.
Defined.

(** The startup event of the first cycle. *)
Lemma startup_event_once_witness :
  "startup"%string
    ∈ events (step EVENTS_sample CarParams_sample (Cycle_sample [] [])
                Controls_boot).
Proof.
  exact (proj2 (startup_event_once EVENTS_sample CarParams_sample
                  (Cycle_sample [] []) [] Controls_boot)
           eq_refl "startup"%string eq_refl).
Defined.
